(** * Cross-review consensus and iterative repair loop: a shallow embedding

    The development embeds the algorithmic core of the review scripts

    - [quick_cross_review_and_fix.py]      (module [Quick]),
    - [iterative_code_improvement.py]      (module [Iterative]),
    - [workflows/code_review_workflow_gemini.py] (module [Workflow]),
    - [utils/llm_utils.py]                 (module [LlmUtils]),

    together with the part of the Python run time they rely on (module [Py]):
    strings with [find]/[rfind]/slicing, JSON values as returned by
    [json.loads], and exceptions as an error monad.

    Modelling conventions.
    - A Python [str] is a [string]; each character is a code point below 256.
    - Python numbers are exact: an [int] is a [Z], a [float] is a rational
      [Q].  Rounding of binary floating point is outside the model.
    - A Python [dict] is an association list in insertion order with
      distinct keys.
    - What a script gets from outside (which tools are installed, what a
      process run returns, which files exist, what a configuration file
      holds) is an argument of its model.  Calls to the
      repairing tool and to [sleep] are recorded as events; printing and
      the audit files written on the way are left out. *)

From Stdlib Require Import String Ascii List ZArith QArith Qabs Qround Lia Lqa Bool.
From Stdlib Require Import DecimalString.
Import ListNotations.

Set Warnings "-register-all".

Open Scope string_scope.
Open Scope Z_scope.

(* ================================================================== *)
(** * Python run time *)
(* ================================================================== *)

Module Py.

(** ** Exceptions *)

Inductive exn : Type :=
| TypeError
| AttributeError
| ValueError
| KeyError
| JSONDecodeError
| TimeoutExpired
| OSError.

Inductive result (A : Type) : Type :=
| Ok (a : A)
| Raise (e : exn).

Arguments Ok {A} a.
Arguments Raise {A} e.

Definition bind {A B : Type} (m : result A) (k : A -> result B) : result B :=
  match m with
  | Ok a => k a
  | Raise e => Raise e
  end.

Notation "x <- m ;; k" := (bind m (fun x => k))
  (at level 61, m at next level, right associativity).

(** ** Characters *)

Definition code (c : ascii) : Z := Z.of_nat (nat_of_ascii c).

Definition chr (n : Z) : ascii := ascii_of_nat (Z.to_nat n).

(** [str.isspace] on one character. *)
Definition isspace (c : ascii) : bool :=
  let n := code c in
  ((9 <=? n) && (n <=? 13)) || ((28 <=? n) && (n <=? 32))
  || (n =? 133) || (n =? 160).

Definition isdigit (c : ascii) : bool :=
  let n := code c in (48 <=? n) && (n <=? 57).

(** [str.lower] on one character. *)
Definition lower_char (c : ascii) : ascii :=
  let n := code c in
  if ((65 <=? n) && (n <=? 90))
     || ((192 <=? n) && (n <=? 222) && negb (n =? 215))
  then chr (n + 32) else c.

(** [str.upper] on one character; only the ASCII letters are changed
    (the callers apply it to ASCII words). *)
Definition upper_char (c : ascii) : ascii :=
  let n := code c in
  if (97 <=? n) && (n <=? 122) then chr (n - 32) else c.

(** ** Strings *)

Fixpoint map_string (f : ascii -> ascii) (s : string) : string :=
  match s with
  | EmptyString => EmptyString
  | String c s' => String (f c) (map_string f s')
  end.

Definition lower (s : string) : string := map_string lower_char s.
Definition upper (s : string) : string := map_string upper_char s.

(** [s.startswith(p)] *)
Fixpoint startswith (p s : string) : bool :=
  match p, s with
  | EmptyString, _ => true
  | String _ _, EmptyString => false
  | String a p', String b s' => Ascii.eqb a b && startswith p' s'
  end.

(** Index of the first occurrence of [sub] in [s], the head of [s] having
    index [i]; [-1] when there is none. *)
Fixpoint find_from (sub s : string) (i : Z) : Z :=
  match s with
  | EmptyString => if startswith sub EmptyString then i else -1
  | String _ s' => if startswith sub s then i else find_from sub s' (i + 1)
  end.

(** [s.find(sub)] *)
Definition find (sub s : string) : Z := find_from sub s 0.

Fixpoint drop (n : nat) (s : string) : string :=
  match n, s with
  | O, _ => s
  | S _, EmptyString => EmptyString
  | S n', String _ s' => drop n' s'
  end.

(** [s.find(sub, start)] for [0 <= start]. *)
Definition find_at (sub s : string) (start : Z) : Z :=
  if Z.of_nat (String.length s) <? start then -1
  else find_from sub (drop (Z.to_nat start) s) start.

(** Index of the last occurrence, same conventions as [find_from]. *)
Fixpoint rfind_from (sub s : string) (i : Z) : Z :=
  match s with
  | EmptyString => if startswith sub EmptyString then i else -1
  | String _ s' =>
      let r := rfind_from sub s' (i + 1) in
      if 0 <=? r then r else if startswith sub s then i else -1
  end.

(** [s.rfind(sub)] *)
Definition rfind (sub s : string) : Z := rfind_from sub s 0.

(** [sub in s] *)
Definition contains (sub s : string) : bool := 0 <=? find sub s.

(** A slice bound as Python normalises it: negative bounds count from the
    end, and the result is clipped to [0 .. n]. *)
Definition clip (n i : Z) : Z :=
  let j := if i <? 0 then i + n else i in
  Z.max 0 (Z.min n j).

(** [s[a:b]] *)
Definition slice (s : string) (a b : Z) : string :=
  let n := Z.of_nat (String.length s) in
  let a' := clip n a in
  let b' := clip n b in
  substring (Z.to_nat a') (Z.to_nat (b' - a')) s.

Fixpoint lstrip (s : string) : string :=
  match s with
  | EmptyString => EmptyString
  | String c s' => if isspace c then lstrip s' else s
  end.

Fixpoint rstrip (s : string) : string :=
  match s with
  | EmptyString => EmptyString
  | String c s' =>
      match rstrip s' with
      | EmptyString => if isspace c then EmptyString else String c EmptyString
      | t => String c t
      end
  end.

(** [s.strip()] *)
Definition strip (s : string) : string := rstrip (lstrip s).

(** ** JSON values, as [json.loads] builds them *)

Inductive json : Type :=
| JNull
| JBool (b : bool)
| JInt (z : Z)
| JFloat (q : Q)
| JStr (s : string)
| JArr (l : list json)
| JObj (o : list (string * json)).

Definition dict : Type := list (string * json).

Fixpoint lookup (k : string) (o : dict) : option json :=
  match o with
  | [] => None
  | (k', v) :: o' => if String.eqb k k' then Some v else lookup k o'
  end.

(** [d.get(k, default)] *)
Definition get (o : dict) (k : string) (default : json) : json :=
  match lookup k o with
  | Some v => v
  | None => default
  end.

(** [d[k] = v]: an existing key keeps its place. *)
Fixpoint set (k : string) (v : json) (o : dict) : dict :=
  match o with
  | [] => [(k, v)]
  | (k', v') :: o' =>
      if String.eqb k k' then (k, v) :: o' else (k', v') :: set k v o'
  end.

(** [x.get(k, default)] on an arbitrary value: only a [dict] has [get]. *)
Definition attr_get (x : json) (k : string) (default : json) : result json :=
  match x with
  | JObj o => Ok (get o k default)
  | _ => Raise AttributeError
  end.

(** The number a value stands for in arithmetic ([bool] is a subclass of
    [int]); [None] for the values on which arithmetic raises [TypeError]. *)
Definition num_of (x : json) : option Q :=
  match x with
  | JBool b => Some (if b then 1%Q else 0%Q)
  | JInt z => Some (inject_Z z)
  | JFloat q => Some q
  | _ => None
  end.

(** [x == y] *)
Fixpoint py_eq (x y : json) : bool :=
  match num_of x, num_of y with
  | Some a, Some b => Qeq_bool a b
  | Some _, None | None, Some _ => false
  | None, None =>
      match x, y with
      | JNull, JNull => true
      | JStr s, JStr t => String.eqb s t
      | JArr l, JArr m =>
          (fix go (l m : list json) : bool :=
             match l, m with
             | [], [] => true
             | a :: l', b :: m' => py_eq a b && go l' m'
             | _, _ => false
             end) l m
      | JObj o, JObj p =>
          (Nat.eqb (List.length o) (List.length p))
          && (fix go (o : dict) : bool :=
                match o with
                | [] => true
                | (k, v) :: o' =>
                    match lookup k p with
                    | Some w => py_eq v w && go o'
                    | None => false
                    end
                end) o
      | _, _ => false
      end
  end.

(** The elements a [for] loop visits: the items of a list, the characters
    of a string, the keys of a dict; other values are not iterable. *)
Definition iter (x : json) : result (list json) :=
  match x with
  | JArr l => Ok l
  | JStr s => Ok (List.map (fun c => JStr (String c EmptyString)) (list_ascii_of_string s))
  | JObj o => Ok (List.map (fun kv => JStr (fst kv)) o)
  | _ => Raise TypeError
  end.

(** [len(x)] *)
Definition len (x : json) : result Z :=
  match x with
  | JArr l => Ok (Z.of_nat (List.length l))
  | JStr s => Ok (Z.of_nat (String.length s))
  | JObj o => Ok (Z.of_nat (List.length o))
  | _ => Raise TypeError
  end.

(** ** [json.loads]

    A recursive-descent reading of the JSON grammar as Python's decoder
    accepts it: white space is blank, tab, line feed and carriage return;
    a number without fraction and exponent is an [int], any other a
    [float]; a repeated key keeps its first place and its last value; a raw
    control character inside a string is an error.  Two extensions of the
    decoder are not modelled and count as decoding errors here: the
    literals [NaN], [Infinity] and [-Infinity] (no rational value), and
    [\u] escapes of code points above 255 (no character in the model).

    The recursion is on a fuel argument; every recursive call follows the
    consumption of at least one character, so twice the length of the text
    is enough fuel and [loads] hands over that much. *)

Definition quote : ascii := "034"%char.
Definition backslash : ascii := "092"%char.

Definition is_json_ws (c : ascii) : bool :=
  let n := code c in (n =? 32) || (n =? 9) || (n =? 10) || (n =? 13).

Fixpoint skip_ws (s : string) : string :=
  match s with
  | String c s' => if is_json_ws c then skip_ws s' else s
  | EmptyString => EmptyString
  end.

(** The longest prefix of digits, and what follows it. *)
Fixpoint span_digits (s : string) : string * string :=
  match s with
  | String c s' =>
      if isdigit c
      then let (d, r) := span_digits s' in (String c d, r)
      else (EmptyString, s)
  | EmptyString => (EmptyString, EmptyString)
  end.

Fixpoint digits_value (acc : Z) (s : string) : Z :=
  match s with
  | String c s' => digits_value (10 * acc + (code c - 48)) s'
  | EmptyString => acc
  end.

(** The rational [m * 10 ^ e]. *)
Definition scale10 (m e : Z) : Q :=
  if 0 <=? e then inject_Z (m * 10 ^ e)
  else Qred (Qmake m (Z.to_pos (10 ^ (- e)))).

(** The value of the literal [int_digits.frac_digits] times [10 ^ e]. *)
Definition decimal_value (int_digits frac_digits : string) (e : Z) : Q :=
  scale10 (digits_value (digits_value 0 int_digits) frac_digits)
          (e - Z.of_nat (String.length frac_digits)).

(** The optional fraction [.digits] of a number. *)
Definition span_fraction (s : string) : string * string :=
  match s with
  | String "." r =>
      match span_digits r with
      | (EmptyString, _) => (EmptyString, s)
      | (d, r') => (d, r')
      end
  | _ => (EmptyString, s)
  end.

(** The optional exponent [e+digits] of a number: whether there is one,
    its value, and the rest. *)
Definition span_exponent (s : string) : bool * Z * string :=
  match s with
  | String c r =>
      if Ascii.eqb c "e" || Ascii.eqb c "E" then
        let '(sign, r1) :=
          match r with
          | String "-" r1 => (-1, r1)
          | String "+" r1 => (1, r1)
          | _ => (1, r)
          end in
        match span_digits r1 with
        | (EmptyString, _) => (false, 0, s)
        | (d, r2) => (true, sign * digits_value 0 d, r2)
        end
      else (false, 0, s)
  | EmptyString => (false, 0, s)
  end.

Definition parse_number (s : string) : option (json * string) :=
  let '(neg, s1) :=
    match s with
    | String "-" r => (true, r)
    | _ => (false, s)
    end in
  let int_part :=
    match s1 with
    | String "0" r => Some ("0", r)
    | String c _ => if isdigit c then Some (span_digits s1) else None
    | EmptyString => None
    end in
  match int_part with
  | None => None
  | Some (ds, r) =>
      let '(fs, r1) := span_fraction r in
      let '(has_exp, e, r2) := span_exponent r1 in
      match fs, has_exp with
      | EmptyString, false =>
          let z := digits_value 0 ds in
          Some (JInt (if neg then - z else z), r2)
      | _, _ =>
          let q := decimal_value ds fs e in
          Some (JFloat (if neg then Qopp q else q), r2)
      end
  end.

Definition hex_value (c : ascii) : option Z :=
  let n := code c in
  if (48 <=? n) && (n <=? 57) then Some (n - 48)
  else if (65 <=? n) && (n <=? 70) then Some (n - 55)
  else if (97 <=? n) && (n <=? 102) then Some (n - 87)
  else None.

Definition hex4 (a b c d : ascii) : option Z :=
  match hex_value a, hex_value b, hex_value c, hex_value d with
  | Some x, Some y, Some z, Some w => Some (((x * 16 + y) * 16 + z) * 16 + w)
  | _, _, _, _ => None
  end.

Definition unescape (c : ascii) : option ascii :=
  let n := code c in
  if n =? 34 then Some quote
  else if n =? 92 then Some backslash
  else if n =? 47 then Some "/"%char
  else if n =? 98 then Some (chr 8)
  else if n =? 102 then Some (chr 12)
  else if n =? 110 then Some (chr 10)
  else if n =? 114 then Some (chr 13)
  else if n =? 116 then Some (chr 9)
  else None.

(** The rest of a string literal after its opening quote: the decoded
    text and what follows the closing quote. *)
Fixpoint parse_string (s : string) : option (string * string) :=
  match s with
  | EmptyString => None
  | String c r =>
      if Ascii.eqb c quote then Some (EmptyString, r)
      else if Ascii.eqb c backslash then
        match r with
        | String "u" (String h1 (String h2 (String h3 (String h4 r')))) =>
            match hex4 h1 h2 h3 h4 with
            | Some n =>
                if n <? 256 then
                  match parse_string r' with
                  | Some (t, r'') => Some (String (chr n) t, r'')
                  | None => None
                  end
                else None
            | None => None
            end
        | String e r' =>
            match unescape e with
            | Some x =>
                match parse_string r' with
                | Some (t, r'') => Some (String x t, r'')
                | None => None
                end
            | None => None
            end
        | EmptyString => None
        end
      else if code c <? 32 then None
      else
        match parse_string r with
        | Some (t, r') => Some (String c t, r')
        | None => None
        end
  end.

Definition parse_literal (s : string) : option (json * string) :=
  if startswith "null" s then Some (JNull, drop 4 s)
  else if startswith "true" s then Some (JBool true, drop 4 s)
  else if startswith "false" s then Some (JBool false, drop 5 s)
  else parse_number s.

Fixpoint parse_value (fuel : nat) (s : string) : option (json * string) :=
  match fuel with
  | O => None
  | S f =>
      match s with
      | EmptyString => None
      | String c r =>
          if Ascii.eqb c "{" then
            match skip_ws r with
            | String "}" r' => Some (JObj [], r')
            | r1 => parse_members f r1 []
            end
          else if Ascii.eqb c "[" then
            match skip_ws r with
            | String "]" r' => Some (JArr [], r')
            | r1 => parse_elements f r1 []
            end
          else if Ascii.eqb c quote then
            match parse_string r with
            | Some (t, r') => Some (JStr t, r')
            | None => None
            end
          else parse_literal s
      end
  end

with parse_members (fuel : nat) (s : string) (acc : dict)
  : option (json * string) :=
  match fuel with
  | O => None
  | S f =>
      match s with
      | EmptyString => None
      | String c r =>
          if Ascii.eqb c quote then
            match parse_string r with
            | None => None
            | Some (k, r1) =>
                match skip_ws r1 with
                | String ":" r2 =>
                    match parse_value f (skip_ws r2) with
                    | None => None
                    | Some (v, r3) =>
                        match skip_ws r3 with
                        | String "}" r4 => Some (JObj (set k v acc), r4)
                        | String "," r4 =>
                            parse_members f (skip_ws r4) (set k v acc)
                        | _ => None
                        end
                    end
                | _ => None
                end
            end
          else None
      end
  end

with parse_elements (fuel : nat) (s : string) (rev_acc : list json)
  : option (json * string) :=
  match fuel with
  | O => None
  | S f =>
      match parse_value f s with
      | None => None
      | Some (v, r) =>
          match skip_ws r with
          | String "]" r' => Some (JArr (List.rev (v :: rev_acc)), r')
          | String "," r' => parse_elements f (skip_ws r') (v :: rev_acc)
          | _ => None
          end
      end
  end.

(** [json.loads(s)] *)
Definition loads (s : string) : result json :=
  match parse_value (2 * String.length s + 2) (skip_ws s) with
  | Some (v, r) =>
      match skip_ws r with
      | EmptyString => Ok v
      | _ => Raise JSONDecodeError
      end
  | None => Raise JSONDecodeError
  end.

(** [float(s)] for a literal [digits] or [digits.digits]. *)
Definition float_of_decimal (s : string) : Q :=
  let (ds, r) := span_digits s in
  let (fs, _) := span_fraction r in
  decimal_value ds fs 0.

(** ** [repr] and [str] *)

Definition hex_digit (n : Z) : ascii :=
  if n <? 10 then chr (48 + n) else chr (87 + n).

(** [c.isprintable()] below code point 256. *)
Definition isprintable (c : ascii) : bool :=
  let n := code c in
  ((32 <=? n) && (n <? 127)) || ((161 <=? n) && negb (n =? 173)).

Definition repr_char (q : ascii) (c : ascii) : string :=
  let n := code c in
  if Ascii.eqb c q || Ascii.eqb c backslash then String backslash (String c "")
  else if n =? 9 then String backslash "t"
  else if n =? 10 then String backslash "n"
  else if n =? 13 then String backslash "r"
  else if isprintable c then String c ""
  else String backslash (String "x" (String (hex_digit (n / 16))
                                       (String (hex_digit (n mod 16)) ""))).

Fixpoint concat_map (f : ascii -> string) (s : string) : string :=
  match s with
  | EmptyString => EmptyString
  | String c s' => f c ++ concat_map f s'
  end.

(** [repr(s)] of a string: single quotes, unless the text has a single
    quote and no double quote. *)
Definition repr_str (s : string) : string :=
  let q := if contains "'" s && negb (contains (String quote "") s)
           then quote else "'"%char in
  String q (concat_map (repr_char q) s ++ String q "").

Definition repr_int (z : Z) : string := NilZero.string_of_int (Z.to_int z).

(** At most [n] decimal digits of the fraction [r / d], stopping when the
    expansion ends. *)
Fixpoint fraction_digits (n : nat) (r d : Z) : string :=
  match n with
  | O => EmptyString
  | S n' =>
      if r =? 0 then EmptyString
      else String (chr (48 + (10 * r) / d))
                  (fraction_digits n' ((10 * r) mod d) d)
  end.

(** [repr(x)] of a float, in positional notation: exact for the values
    whose decimal expansion ends within seventeen digits (Python turns to
    exponent notation below [1e-4] and from [1e16] on, which is not
    modelled). *)
Definition repr_float (q : Q) : string :=
  let a := Z.abs (Qnum q) in
  let d := Zpos (Qden q) in
  let frac := fraction_digits 17 (a mod d) d in
  (if Qnum q <? 0 then "-" else "")
  ++ repr_int (a / d) ++ "."
  ++ (match frac with EmptyString => "0" | _ => frac end).

Fixpoint repr (x : json) : string :=
  match x with
  | JNull => "None"
  | JBool true => "True"
  | JBool false => "False"
  | JInt z => repr_int z
  | JFloat q => repr_float q
  | JStr s => repr_str s
  | JArr l =>
      "[" ++ (fix items (l : list json) : string :=
                match l with
                | [] => ""
                | a :: l' =>
                    repr a ++ match l' with [] => "" | _ => ", " ++ items l' end
                end) l ++ "]"
  | JObj o =>
      "{" ++ (fix items (o : list (string * json)) : string :=
                match o with
                | [] => ""
                | (k, v) :: o' =>
                    repr_str k ++ ": " ++ repr v
                    ++ match o' with [] => "" | _ => ", " ++ items o' end
                end) o ++ "}"
  end.

(** [str(x)] *)
Definition str (x : json) : string :=
  match x with
  | JStr s => s
  | _ => repr x
  end.

(** ** Arithmetic on values *)

(** [sum(xs)] *)
Fixpoint sum_from (acc : Q) (xs : list json) : result Q :=
  match xs with
  | [] => Ok acc
  | x :: xs' =>
      match num_of x with
      | Some q => sum_from (acc + q)%Q xs'
      | None => Raise TypeError
      end
  end.

Definition sum (xs : list json) : result Q := sum_from 0%Q xs.

(** [sum(xs) / len(xs)] for a non-empty list *)
Definition mean (xs : list json) : result Q :=
  s <- sum xs ;; Ok (s / inject_Z (Z.of_nat (List.length xs)))%Q.

(** [round(q, 2)]: to the nearest hundredth, ties to the even one. *)
Definition round2 (q : Q) : Q :=
  let n := (q * 100)%Q in
  let f := Qfloor n in
  let d := (n - inject_Z f)%Q in
  let up :=
    match Qcompare d (1 # 2) with
    | Lt => false
    | Gt => true
    | Eq => Z.odd f
    end in
  (inject_Z (if up then f + 1 else f) / 100)%Q.

(** ** [subprocess.run] *)

Record completed : Type := {
  returncode : Z;
  stdout : string;
  stderr : string
}.

(** The text with a double quote for each single quote, so that JSON
    examples can be written with single quotes. *)
Definition dq (s : string) : string :=
  map_string (fun c => if Ascii.eqb c "'" then quote else c) s.

End Py.

Notation "x <- m ;; k" := (Py.bind m (fun x => k))
  (at level 61, m at next level, right associativity).

(* ================================================================== *)
(** * quick_cross_review_and_fix.py *)
(* ================================================================== *)

Module Quick.
Import Py.

(** The dict a review function returns: [{"status": ..., "data": ...}],
    the second key only on success. *)
Record review_result : Type := {
  status : string;
  data : option json
}.

Definition failed : review_result := {| status := "failed"; data := None |}.
Definition skipped : review_result := {| status := "skipped"; data := None |}.
Definition success (d : json) : review_result :=
  {| status := "success"; data := Some d |}.

(** [r["data"].get(k, default)] *)
Definition data_get (r : review_result) (k : string) (default : json)
  : result json :=
  match data r with
  | Some d => attr_get d k default
  | None => Raise KeyError
  end.

Definition fence : string := "```json".
Definition fence_end : string := "```".
Definition plus_marker : string := "upgrade to Plus".

(** The interior of the first fenced block, stripped. *)
Definition fenced_json (output : string) : string :=
  let json_start := find fence output + 7 in
  let json_end := find_at fence_end output json_start in
  strip (slice output json_start json_end).

(** What the two prints after decoding need: [data.get] and the [len] of
    the issue list. *)
Definition report_data (d : json) : result unit :=
  _ <- attr_get d "overall_score" (JInt 0) ;;
  top <- attr_get d "top_issues" (JArr []) ;;
  _ <- len top ;;
  Ok tt.

(** The body of the [try] of [run_gemini_review], after the process has
    returned with status zero. *)
Definition gemini_decode (output : string) : result json :=
  let json_str :=
    if contains fence output then fenced_json output
    else
      let json_start := find "{" output in
      let json_end := rfind "}" output + 1 in
      slice output json_start json_end in
  d <- loads json_str ;;
  _ <- report_data d ;;
  Ok d.

Definition run_gemini_review (run : result completed) : review_result :=
  match run with
  | Raise _ => failed
  | Ok p =>
      if returncode p =? 0 then
        match gemini_decode (stdout p) with
        | Ok d => success d
        | Raise _ => failed
        end
      else failed
  end.

(** The body of the [try] of [run_codex_review] after the subscription
    check. *)
Definition codex_decode (output : string) : result json :=
  json_str <-
    (if contains fence output then Ok (fenced_json output)
     else
       let json_start := rfind "{" output in
       let json_end := rfind "}" output + 1 in
       if (0 <=? json_start) && (json_start <? json_end)
       then Ok (slice output json_start json_end)
       else Raise ValueError) ;;
  d <- loads json_str ;;
  _ <- report_data d ;;
  Ok d.

Definition run_codex_review (run : result completed) : review_result :=
  match run with
  | Raise _ => failed
  | Ok p =>
      let output := stdout p ++ stderr p in
      if contains plus_marker output then skipped
      else
        match codex_decode output with
        | Ok d => success d
        | Raise _ => failed
        end
  end.

(** One entry of the consensus list. *)
Record consensus_issue : Type := {
  file : json;
  line : json;
  severity : json;
  gemini_issue : json;
  codex_issue : json
}.

(** [g_file == c_file and abs(g_line - c_line) <= 5]; the subtraction is
    evaluated only when the files are equal. *)
Definition same_problem (g_file g_line c_file c_line : json) : result bool :=
  if py_eq g_file c_file then
    match num_of g_line, num_of c_line with
    | Some a, Some b => Ok (Qle_bool (Qabs (a - b)) 5)
    | _, _ => Raise TypeError
    end
  else Ok false.

(** The test of the inner loop on one Codex issue. *)
Definition issues_match (g_file g_line c_issue : json) : result bool :=
  c_file <- attr_get c_issue "file" (JStr "") ;;
  c_line <- attr_get c_issue "line" (JInt 0) ;;
  same_problem g_file g_line c_file c_line.

(** The inner loop: the entry of the first Codex issue that matches, the
    [break] ending the search. *)
Fixpoint first_match (g_issue g_file g_line g_severity : json)
  (codex_issues : list json) : result (option consensus_issue) :=
  match codex_issues with
  | [] => Ok None
  | c_issue :: rest =>
      b <- issues_match g_file g_line c_issue ;;
      if b then
        Ok (Some {| file := g_file; line := g_line; severity := g_severity;
                    gemini_issue := g_issue; codex_issue := c_issue |})
      else first_match g_issue g_file g_line g_severity rest
  end.

(** The outer loop. *)
Fixpoint consensus_loop (gemini_issues codex_issues : list json)
  : result (list consensus_issue) :=
  match gemini_issues with
  | [] => Ok []
  | g_issue :: rest =>
      g_file <- attr_get g_issue "file" (JStr "") ;;
      g_line <- attr_get g_issue "line" (JInt 0) ;;
      g_severity <- attr_get g_issue "severity" (JStr "") ;;
      m <- first_match g_issue g_file g_line g_severity codex_issues ;;
      consensus <- consensus_loop rest codex_issues ;;
      Ok (match m with
          | Some e => e :: consensus
          | None => consensus
          end)
  end.

Definition find_consensus_issues (gemini_data codex_data : json)
  : result (list consensus_issue) :=
  gemini_issues <- attr_get gemini_data "top_issues" (JArr []) ;;
  codex_issues <- attr_get codex_data "top_issues" (JArr []) ;;
  _ <- len gemini_issues ;;
  _ <- len codex_issues ;;
  gs <- iter gemini_issues ;;
  cs <- iter codex_issues ;;
  consensus_loop gs cs.

(** *** The loop of [main] *)

(** What an iteration does that the outside can see. *)
Inductive event : Type :=
| Reviewed (iteration : Z) (gemini_result codex_result : review_result)
| Scored (iteration : Z) (avg_score : Q)
| FixAttempt (iteration : Z) (issue : consensus_issue)
| Slept (iteration : Z).

(** Why the loop ended. *)
Inductive stop : Type :=
| NoSuccessfulReviews
| TargetReached
| LoopFinished
| Uncaught (e : exn).

Inductive flow : Type :=
| Break (s : stop)
| Next.

Definition is_success (r : review_result) : bool := String.eqb (status r) "success".

(** The scores of the reviews whose status is ["success"]. *)
Definition collect_scores (gemini_result codex_result : review_result)
  : result (list json) :=
  g <- (if is_success gemini_result
        then x <- data_get gemini_result "overall_score" (JInt 0) ;; Ok [x]
        else Ok []) ;;
  c <- (if is_success codex_result
        then x <- data_get codex_result "overall_score" (JInt 0) ;; Ok [x]
        else Ok []) ;;
  Ok (g ++ c)%list.

(** [data] of a review known to be there. *)
Definition the_data (r : review_result) : result json :=
  match data r with
  | Some d => Ok d
  | None => Raise KeyError
  end.

(** The calls of [apply_fix], one per consensus issue in order.  The call
    joins the directory path with [issue["file"]] before its own [try], so
    a file that is not a string raises out of the loop. *)
Fixpoint apply_fixes (iteration : Z) (consensus_issues : list consensus_issue)
  : list event * option exn :=
  match consensus_issues with
  | [] => ([], None)
  | issue :: rest =>
      match file issue with
      | JStr _ =>
          let (evs, e) := apply_fixes iteration rest in
          (FixAttempt iteration issue :: evs, e)
      | _ => ([FixAttempt iteration issue], Some TypeError)
      end
  end.

(** The part of an iteration after the target test: consensus and fixes. *)
Definition fix_phase (max_iterations iteration : Z)
  (gemini_result codex_result : review_result) : list event * flow :=
  let pause := if iteration <? max_iterations then [Slept iteration] else [] in
  if is_success gemini_result && is_success codex_result then
    match (gd <- the_data gemini_result ;;
           cd <- the_data codex_result ;;
           find_consensus_issues gd cd) with
    | Raise e => ([], Break (Uncaught e))
    | Ok [] => ([], Next)
    | Ok consensus_issues =>
        match apply_fixes iteration consensus_issues with
        | (fixes, Some e) => (fixes, Break (Uncaught e))
        | (fixes, None) => ((fixes ++ pause)%list, Next)
        end
    end
  else (pause, Next).

(** One turn of the [for] loop of [main]. *)
Definition iteration_body (target_score : Q) (max_iterations iteration : Z)
  (gemini_result codex_result : review_result) : list event * flow :=
  let reviewed := Reviewed iteration gemini_result codex_result in
  match collect_scores gemini_result codex_result with
  | Raise e => ([reviewed], Break (Uncaught e))
  | Ok [] => ([reviewed], Break NoSuccessfulReviews)
  | Ok scores =>
      match mean scores with
      | Raise e => ([reviewed], Break (Uncaught e))
      | Ok avg_score =>
          if Qle_bool target_score avg_score
          then ([reviewed; Scored iteration avg_score], Break TargetReached)
          else
            let (fixes, f) :=
              fix_phase max_iterations iteration gemini_result codex_result in
            ((reviewed :: Scored iteration avg_score :: fixes)%list, f)
      end
  end.

(** The world [main] runs in: which tools are installed, and what each
    process run of an iteration returns. *)
Record world : Type := {
  has_gemini : bool;
  has_codex : bool;
  gemini_run : Z -> result completed;
  codex_run : Z -> result completed
}.

Definition reviews (w : world) (iteration : Z) : review_result * review_result :=
  (if has_gemini w then run_gemini_review (gemini_run w iteration) else skipped,
   if has_codex w then run_codex_review (codex_run w iteration) else skipped).

(** [for iteration in range(iteration, iteration + n)]. *)
Fixpoint loop (w : world) (target_score : Q) (max_iterations : Z)
  (n : nat) (iteration : Z) : list event * stop :=
  match n with
  | O => ([], LoopFinished)
  | S n' =>
      let (g, c) := reviews w iteration in
      let (evs, f) := iteration_body target_score max_iterations iteration g c in
      match f with
      | Break s => (evs, s)
      | Next =>
          let (evs', s) := loop w target_score max_iterations n' (iteration + 1) in
          ((evs ++ evs')%list, s)
      end
  end.

Definition main (w : world) (target_score : Q) (max_iterations : Z)
  : list event * stop :=
  loop w target_score max_iterations (Z.to_nat max_iterations) 1.

(** *** [get_core_files] *)

Definition priority_files : list string :=
  ["main.py"; "model.py"; "trainer.py"; "data_loader.py";
   "config.py"; "utils.py"; "train.py"; "test.py"].

(** The files to review: the priority files that exist in the directory,
    or else the first five top-level Python files, whose names the glob
    gives in [top_level_py]. *)
Definition get_core_files (file_exists : string -> bool)
  (top_level_py : list string) : list string :=
  match List.filter file_exists priority_files with
  | [] => List.firstn 5 top_level_py
  | core_files => core_files
  end.

End Quick.

(* ================================================================== *)
(** * iterative_code_improvement.py *)
(* ================================================================== *)

Module Iterative.
Import Py.

(** The [error] entry of a failed review. *)
Inductive error_detail : Type :=
| Stderr (text : string)
| Timeout
| RequiresPlus
| Exception (e : exn).

(** The dict a review method returns. *)
Record review_result : Type := {
  status : string;
  tool : string;
  data : option json;
  error : option error_detail;
  raw_output : option string
}.

Definition failed (t : string) (e : error_detail) : review_result :=
  {| status := "failed"; tool := t; data := None; error := Some e;
     raw_output := None |}.

Definition skipped (t : string) : review_result :=
  {| status := "skipped"; tool := t; data := None; error := None;
     raw_output := None |}.

Definition success (t : string) (d : json) (raw : string) : review_result :=
  {| status := "success"; tool := t; data := Some d; error := None;
     raw_output := Some raw |}.

Definition partial (t : string) (d : json) (raw : string) : review_result :=
  {| status := "partial"; tool := t; data := Some d; error := None;
     raw_output := Some raw |}.

(** ** The two regular expressions of [parse_text_review]

    Both are searched with [re.findall] under [re.IGNORECASE].  Neither
    can match the empty text, and in neither does backtracking find a
    match that the greedy reading misses: a run [[:\s]+] is followed by a
    character outside the class, a run of digits by a non-digit. *)

(** The text after the word [w] (given in lower case) at the head of [s],
    letter case ignored. *)
Fixpoint skip_word (w s : string) : option string :=
  match w, s with
  | EmptyString, _ => Some s
  | String _ _, EmptyString => None
  | String a w', String b s' =>
      if Ascii.eqb a (lower_char b) then skip_word w' s' else None
  end.

(** The class [[:\s]]. *)
Definition is_sep (c : ascii) : bool := Ascii.eqb c ":" || isspace c.

Fixpoint skip_seps (s : string) : string :=
  match s with
  | String c s' => if is_sep c then skip_seps s' else s
  | EmptyString => EmptyString
  end.

Definition consumed (s rest : string) : nat :=
  (String.length s - String.length rest)%nat.

(** A match of [score[:\s]+(\d+(?:\.\d+)?)/10] at the head of [s]: the
    group and the length of the match. *)
Definition match_score (s : string) : option (string * nat) :=
  match skip_word "score" s with
  | None => None
  | Some r =>
      let r1 := skip_seps r in
      if (String.length r1 <? String.length r)%nat then
        match span_digits r1 with
        | (EmptyString, _) => None
        | (d, r2) =>
            let (f, r3) := span_fraction r2 in
            if startswith "/10" r3 then
              Some (match f with
                    | EmptyString => d
                    | _ => d ++ "." ++ f
                    end,
                    (consumed s r3 + 3)%nat)
            else None
        end
      else None
  end.

(** The text up to the next line feed. *)
Fixpoint line_rest (s : string) : string :=
  match s with
  | EmptyString => EmptyString
  | String c s' =>
      if Ascii.eqb c "010" then EmptyString else String c (line_rest s')
  end.

Definition severity_words : list string := ["critical"; "high"; "medium"; "low"].

(** A match of [(CRITICAL|HIGH|MEDIUM|LOW)[:\s]+(.*?)(?=\n|$)] at the head
    of [s]: the two groups and the length of the match. *)
Fixpoint match_severity_in (words : list string) (s : string)
  : option ((string * string) * nat) :=
  match words with
  | [] => None
  | w :: words' =>
      match skip_word w s with
      | Some r =>
          let r1 := skip_seps r in
          if (String.length r1 <? String.length r)%nat then
            let description := line_rest r1 in
            Some ((substring 0 (String.length w) s, description),
                  (consumed s r1 + String.length description)%nat)
          else match_severity_in words' s
      | None => match_severity_in words' s
      end
  end.

Definition match_severity : string -> option ((string * string) * nat) :=
  match_severity_in severity_words.

(** [re.findall]: the matches from left to right, each search resuming
    where the last match ended; [skip] counts the characters of the last
    match still to pass. *)
Fixpoint findall {A : Type} (m : string -> option (A * nat)) (s : string)
  (skip : nat) : list A :=
  match s with
  | EmptyString => []
  | String _ s' =>
      match skip with
      | S k => findall m s' k
      | O =>
          match m s with
          | Some (a, n) => a :: findall m s' (Nat.pred n)
          | None => findall m s' 0
          end
      end
  end.

Definition score_texts (text : string) : list string := findall match_score text 0.

Definition severity_matches (text : string) : list (string * string) :=
  findall match_severity text 0.

(** [sum(float(s) for s in scores) / len(scores) if scores else 5.0] *)
Definition avg_score (scores : list string) : Q :=
  match scores with
  | [] => 5
  | _ =>
      (List.fold_left Qplus (List.map float_of_decimal scores) 0
       / inject_Z (Z.of_nat (List.length scores)))%Q
  end.

Definition text_issue (m : string * string) : json :=
  JObj [("severity", JStr (upper (fst m)));
        ("description", JStr (strip (snd m)))].

Definition parse_text_review (text : string) : json :=
  let issues := List.map text_issue (severity_matches text) in
  JObj [("overall_score", JFloat (avg_score (score_texts text)));
        ("critical_issues", JArr (List.firstn 5 issues));
        ("summary", JStr "Parsed from text output")].

(** ** The review methods *)

Definition fence : string := "```json".
Definition fence_end : string := "```".
Definition plus_marker : string := "upgrade to Plus".

Definition fenced_json (output : string) : string :=
  let json_start := find fence output + 7 in
  let json_end := find_at fence_end output json_start in
  strip (slice output json_start json_end).

(** The candidate text handed to [json.loads] by [run_gemini_review]. *)
Definition gemini_json_str (output : string) : string :=
  if contains fence output then fenced_json output
  else if contains "{" output then
    let json_start := find "{" output in
    let json_end := rfind "}" output + 1 in
    slice output json_start json_end
  else output.

(** The candidate text handed to [json.loads] by [run_codex_review]. *)
Definition codex_json_str (output : string) : string :=
  if contains fence output then fenced_json output
  else if contains "{" output then
    let json_start := rfind "{" output in
    let json_end := rfind "}" output + 1 in
    slice output json_start json_end
  else output.

(** The inner [try]: decode and, for the score print, call [get] on the
    decoded value.  A decoding error leads to the text fallback, any other
    exception to the outer handler.  (The raw output is written to its
    audit file just before; the write is taken to succeed.) *)
Definition decode (t : string) (json_str output : string) : review_result :=
  match loads json_str with
  | Ok review_data =>
      match attr_get review_data "overall_score" (JStr "N/A") with
      | Ok _ => success t review_data output
      | Raise e => failed t (Exception e)
      end
  | Raise JSONDecodeError => partial t (parse_text_review output) output
  | Raise e => failed t (Exception e)
  end.

Definition run_gemini_review (run : result completed) : review_result :=
  match run with
  | Raise TimeoutExpired => failed "gemini" Timeout
  | Raise e => failed "gemini" (Exception e)
  | Ok p =>
      if returncode p =? 0
      then decode "gemini" (gemini_json_str (stdout p)) (stdout p)
      else failed "gemini" (Stderr (stderr p))
  end.

Definition run_codex_review (run : result completed) : review_result :=
  match run with
  | Raise TimeoutExpired => failed "codex" Timeout
  | Raise e => failed "codex" (Exception e)
  | Ok p =>
      let output := stdout p ++ stderr p in
      if contains plus_marker output then failed "codex" RequiresPlus
      else decode "codex" (codex_json_str output) output
  end.

(** ** The consensus report *)

Record keyword_match : Type := {
  keyword : string;
  gemini_finding : json;
  codex_finding : json;
  priority : string
}.

Record consensus : Type := {
  iteration : Z;
  gemini_status : string;
  codex_status : string;
  scores : list (string * json);
  consensus_issues : list keyword_match;
  average_score : Q
}.

Definition common_keywords : list string :=
  ["device"; "gpu"; "cuda"; "hard-coded"; "hardcoded";
   "eval"; "train"; "mode"; "dropout"; "error handling";
   "exception"; "validation"].

(** [status in ["success", "partial"]] *)
Definition counts (r : review_result) : bool :=
  String.eqb (status r) "success" || String.eqb (status r) "partial".

(** [r["data"].get(k, default)] *)
Definition data_get (r : review_result) (k : string) (default : json)
  : result json :=
  match data r with
  | Some d => attr_get d k default
  | None => Raise KeyError
  end.

(** The [scores] dict of the report: one entry per review that counts. *)
Definition collect_scores (gemini_result codex_result : review_result)
  : result (list (string * json)) :=
  g <- (if counts gemini_result
        then x <- data_get gemini_result "overall_score" (JInt 0) ;;
             Ok [("gemini", x)]
        else Ok []) ;;
  c <- (if counts codex_result
        then x <- data_get codex_result "overall_score" (JInt 0) ;;
             Ok [("codex", x)]
        else Ok []) ;;
  Ok (g ++ c)%list.

(** [sum(scores) / len(scores)] if there is a score, else the initial
    [0.0]. *)
Definition average (scores : list json) : result Q :=
  match scores with
  | [] => Ok 0%Q
  | _ => mean scores
  end.

(** The innermost loop: the first keyword found in both texts. *)
Fixpoint first_keyword (keywords : list string) (g_desc c_desc : string)
  : option string :=
  match keywords with
  | [] => None
  | keyword :: rest =>
      if contains keyword g_desc && contains keyword c_desc
      then Some keyword
      else first_keyword rest g_desc c_desc
  end.

(** The entries one pair of issues contributes: one or none. *)
Definition pair_entries (g_issue c_issue : json) : list keyword_match :=
  let g_desc := lower (str g_issue) in
  let c_desc := lower (str c_issue) in
  match first_keyword common_keywords g_desc c_desc with
  | Some k =>
      [{| keyword := k; gemini_finding := g_issue; codex_finding := c_issue;
          priority := "HIGH" |}]
  | None => []
  end.

(** The two outer loops. *)
Definition keyword_consensus (gemini_issues codex_issues : list json)
  : list keyword_match :=
  List.flat_map
    (fun g_issue => List.flat_map (pair_entries g_issue) codex_issues)
    gemini_issues.

Definition find_consensus (gemini_result codex_result : review_result)
  : result (list keyword_match) :=
  if counts gemini_result && counts codex_result then
    gemini_issues <- data_get gemini_result "critical_issues" (JArr []) ;;
    codex_issues <- data_get codex_result "critical_issues" (JArr []) ;;
    _ <- len gemini_issues ;;
    _ <- len codex_issues ;;
    gs <- iter gemini_issues ;;
    cs <- iter codex_issues ;;
    Ok (keyword_consensus gs cs)
  else Ok [].

Definition generate_consensus_report
  (gemini_result codex_result : review_result) (iteration : Z)
  : result consensus :=
  scores <- collect_scores gemini_result codex_result ;;
  avg <- average (List.map snd scores) ;;
  issues <- find_consensus gemini_result codex_result ;;
  Ok {| iteration := iteration;
        gemini_status := status gemini_result;
        codex_status := status codex_result;
        scores := scores;
        consensus_issues := issues;
        average_score := avg |}.

(** ** The improver *)

Inductive event : Type :=
| FixAttempt (iteration : Z) (issue : keyword_match)
| Slept (iteration : Z).

(** The state of an [IterativeCodeImprover] that changes: the review
    history, and the calls made to the repairing tool and to [sleep]. *)
Record improver : Type := {
  review_history : list consensus;
  log : list event
}.

Definition append_history (c : consensus) (st : improver) : improver :=
  {| review_history := (review_history st ++ [c])%list; log := log st |}.

Definition append_log (evs : list event) (st : improver) : improver :=
  {| review_history := review_history st; log := (log st ++ evs)%list |}.

(** One repair call per consensus issue; the answer tells whether there
    was any. *)
Definition apply_improvements (c : consensus) (iteration : Z) (st : improver)
  : bool * improver :=
  match consensus_issues c with
  | [] => (false, st)
  | issues => (true, append_log (List.map (FixAttempt iteration) issues) st)
  end.

Record tools : Type := {
  gemini : bool;
  codex : bool
}.

(** The world a session runs in: what each process run of an iteration
    returns. *)
Record world : Type := {
  gemini_run : Z -> result completed;
  codex_run : Z -> result completed
}.

Definition run_iteration (w : world) (target_score : Q) (max_iterations : Z)
  (iteration : Z) (t : tools) (st : improver) : result consensus * improver :=
  let gemini_result :=
    if gemini t then run_gemini_review (gemini_run w iteration)
    else skipped "gemini" in
  let codex_result :=
    if codex t then run_codex_review (codex_run w iteration)
    else skipped "codex" in
  match generate_consensus_report gemini_result codex_result iteration with
  | Raise e => (Raise e, st)
  | Ok c =>
      let st1 := append_history c st in
      if Qle_bool target_score (average_score c) then (Ok c, st1)
      else if iteration <? max_iterations
           then (Ok c, snd (apply_improvements c iteration st1))
           else (Ok c, st1)
  end.

(** Why [run] left its loop. *)
Inductive stop : Type :=
| NoTools
| TargetReached
| LoopFinished
| Uncaught (e : exn).

(** [for iteration in range(iteration, iteration + n)]. *)
Fixpoint loop (w : world) (target_score : Q) (max_iterations : Z) (t : tools)
  (n : nat) (iteration : Z) (st : improver) : stop * improver :=
  match n with
  | O => (LoopFinished, st)
  | S n' =>
      match run_iteration w target_score max_iterations iteration t st with
      | (Raise e, st1) => (Uncaught e, st1)
      | (Ok c, st1) =>
          if Qle_bool target_score (average_score c) then (TargetReached, st1)
          else
            let st2 :=
              if iteration <? max_iterations
              then append_log [Slept iteration] st1 else st1 in
            loop w target_score max_iterations t n' (iteration + 1) st2
      end
  end.

Definition new_improver : improver := {| review_history := []; log := [] |}.

Definition run (w : world) (target_score : Q) (max_iterations : Z) (t : tools)
  : stop * improver :=
  if negb (gemini t) && negb (codex t) then (NoTools, new_improver)
  else loop w target_score max_iterations t (Z.to_nat max_iterations) 1
            new_improver.

(** *** [generate_final_report]

    What the final report states: the score of each iteration with
    whether it reaches the target, the final score, the improvement over
    the first iteration, and whether the target was reached.  Without a
    history there is no report. *)
Record final_report : Type := {
  progress : list (Q * bool);
  final_score : Q;
  improvement : Q;
  reached : bool
}.

Definition generate_final_report (target_score : Q) (st : improver)
  : option final_report :=
  match review_history st with
  | [] => None
  | first :: _ =>
      let last_score :=
        average_score (List.last (review_history st) first) in
      Some {| progress :=
                List.map (fun review =>
                            (average_score review,
                             Qle_bool target_score (average_score review)))
                         (review_history st);
              final_score := last_score;
              improvement := (last_score - average_score first)%Q;
              reached := Qle_bool target_score last_score |}
  end.

End Iterative.

(* ================================================================== *)
(** * utils/llm_utils.py *)
(* ================================================================== *)

Module LlmUtils.
Import Py.

(** A configuration file as the functions find it: absent, unreadable
    (opening or parsing raises), or parsed to a value. *)
Definition config_file : Type := option (result json).

(** Truth value of a value in a condition. *)
Definition truthy (x : json) : bool :=
  match x with
  | JNull => false
  | JBool b => b
  | JInt z => negb (z =? 0)
  | JFloat q => negb (Qeq_bool q 0)
  | JStr s => negb (String.eqb s "")
  | JArr l => match l with [] => false | _ => true end
  | JObj o => match o with [] => false | _ => true end
  end.

(** [x.lower()] and [x.strip()]: only a string has them. *)
Definition str_lower (x : json) : result string :=
  match x with
  | JStr s => Ok (lower s)
  | _ => Raise AttributeError
  end.

Definition str_strip (x : json) : result string :=
  match x with
  | JStr s => Ok (strip s)
  | _ => Raise AttributeError
  end.

Inductive llm_class : Type :=
| OllamaAugmentedLLM
| AnthropicAugmentedLLM
| OpenAIAugmentedLLM.

(** The second half of the [try] of [get_preferred_llm_class]: the
    secrets file. *)
Definition class_from_secrets (secrets : config_file) : result llm_class :=
  match secrets with
  | None => Ok OpenAIAugmentedLLM
  | Some (Raise e) => Raise e
  | Some (Ok config) =>
      anthropic_config <- attr_get config "anthropic" (JObj []) ;;
      anthropic_key <- attr_get anthropic_config "api_key" (JStr "") ;;
      has_key <-
        (if truthy anthropic_key then
           stripped <- str_strip anthropic_key ;;
           Ok (negb (String.eqb stripped "")
               && negb (py_eq anthropic_key (JStr "")))
         else Ok false) ;;
      if has_key then Ok AnthropicAugmentedLLM
      else
        ollama_config <- attr_get config "ollama" (JObj []) ;;
        if truthy ollama_config then Ok OllamaAugmentedLLM
        else Ok OpenAIAugmentedLLM
  end.

(** The body of the [try]. *)
Definition preferred_class (secrets main : config_file) : result llm_class :=
  match main with
  | None => class_from_secrets secrets
  | Some (Raise e) => Raise e
  | Some (Ok main_config) =>
      provider <- attr_get main_config "default_llm_provider" (JStr "") ;;
      default_provider <- str_lower provider ;;
      if String.eqb default_provider "ollama" then Ok OllamaAugmentedLLM
      else if String.eqb default_provider "anthropic" then Ok AnthropicAugmentedLLM
      else if String.eqb default_provider "openai" then Ok OpenAIAugmentedLLM
      else class_from_secrets secrets
  end.

Definition get_preferred_llm_class (secrets main : config_file) : llm_class :=
  match preferred_class secrets main with
  | Ok c => c
  | Raise _ => OpenAIAugmentedLLM
  end.

(** *** [get_default_models] *)

Record default_models : Type := {
  anthropic : json;
  openai : json;
  ollama : json
}.

Definition fallback_models : default_models :=
  {| anthropic := JStr "claude-sonnet-4-20250514";
     openai := JStr "o3-mini";
     ollama := JStr "qwen3-coder:30b" |}.

(** [x or {}] *)
Definition or_empty (x : json) : json := if truthy x then x else JObj [].

Definition get_default_models (config : config_file) : default_models :=
  match config with
  | Some (Ok config) =>
      match (a <- attr_get config "anthropic" JNull ;;
             let anthropic_config := or_empty a in
             o <- attr_get config "openai" JNull ;;
             let openai_config := or_empty o in
             l <- attr_get config "ollama" JNull ;;
             let ollama_config := or_empty l in
             anthropic_model <-
               attr_get anthropic_config "default_model"
                        (JStr "claude-sonnet-4-20250514") ;;
             openai_model <-
               attr_get openai_config "default_model" (JStr "o3-mini") ;;
             ollama_model <-
               attr_get ollama_config "default_model" (JStr "qwen3-coder:30b") ;;
             Ok {| anthropic := anthropic_model;
                   openai := openai_model;
                   ollama := ollama_model |}) with
      | Ok models => models
      | Raise _ => fallback_models
      end
  | _ => fallback_models
  end.

(** *** Document segmentation *)

Record segmentation_config : Type := {
  enabled : json;
  size_threshold_chars : json
}.

Definition default_segmentation : segmentation_config :=
  {| enabled := JBool true; size_threshold_chars := JInt 50000 |}.

Definition get_document_segmentation_config (config : config_file)
  : segmentation_config :=
  match config with
  | Some (Ok config) =>
      match (seg_config <- attr_get config "document_segmentation" (JObj []) ;;
             e <- attr_get seg_config "enabled" (JBool true) ;;
             t <- attr_get seg_config "size_threshold_chars" (JInt 50000) ;;
             Ok {| enabled := e; size_threshold_chars := t |}) with
      | Ok c => c
      | Raise _ => default_segmentation
      end
  | _ => default_segmentation
  end.

(** Digits in groups of three from the right, a comma between groups;
    [n] is the number of digits still to come. *)
Fixpoint group_digits (n : nat) (digits : string) : string :=
  match digits with
  | EmptyString => EmptyString
  | String c rest =>
      match n with
      | O => String c (group_digits O rest)
      | S m =>
          if (Nat.eqb (Nat.modulo m 3) 0 && negb (Nat.eqb m 0))%bool
          then String c (String "," (group_digits m rest))
          else String c (group_digits m rest)
      end
  end.

(** [format(z, ",")] of an int. *)
Definition format_int (z : Z) : string :=
  let digits := repr_int (Z.abs z) in
  (if z <? 0 then "-" else "") ++ group_digits (String.length digits) digits.

(** [format(x, ",")] of a number: a float as [repr] writes it, with the
    integer part grouped (same range as [repr_float]). *)
Definition format_number (x : json) : result string :=
  match x with
  | JInt z => Ok (format_int z)
  | JBool b => Ok (if b then "1" else "0")
  | JFloat q =>
      let a := Z.abs (Qnum q) in
      let d := Zpos (Qden q) in
      let frac := fraction_digits 17 (a mod d) d in
      Ok ((if Qnum q <? 0 then "-" else "")
          ++ format_int (a / d) ++ "."
          ++ (match frac with EmptyString => "0" | _ => frac end))
  | _ => Raise TypeError
  end.

Definition should_use_document_segmentation (document_content : string)
  (config : config_file) : result (bool * string) :=
  let seg_config := get_document_segmentation_config config in
  if negb (truthy (enabled seg_config)) then
    Ok (false, "Document segmentation disabled in configuration")
  else
    let doc_size := Z.of_nat (String.length document_content) in
    let threshold := size_threshold_chars seg_config in
    match num_of threshold with
    | None => Raise TypeError
    | Some t =>
        shown <- format_number threshold ;;
        if Qle_bool (inject_Z doc_size) t then
          Ok (false, "Document size (" ++ format_int doc_size
                     ++ " chars) below threshold (" ++ shown ++ " chars)")
        else
          Ok (true, "Document size (" ++ format_int doc_size
                    ++ " chars) exceeds threshold (" ++ shown ++ " chars)")
    end.

(** *** Servers of the agents *)

Record agent_config : Type := {
  concept_analysis : list string;
  algorithm_analysis : list string;
  code_planner : list string
}.

(** [if name not in names: names.append(name)] *)
Definition append_missing (name : string) (names : list string) : list string :=
  if List.existsb (String.eqb name) names then names
  else (names ++ [name])%list.

Definition get_adaptive_agent_config (use_segmentation : bool)
  (search_server_names : option (list string)) : agent_config :=
  let search_server_names :=
    match search_server_names with
    | None => []
    | Some names => names
    end in
  let server :=
    if use_segmentation then "document-segmentation" else "filesystem" in
  {| concept_analysis := [server];
     algorithm_analysis := append_missing server search_server_names;
     code_planner := append_missing server search_server_names |}.

End LlmUtils.

(* ================================================================== *)
(** * workflows/code_review_workflow_gemini.py *)
(* ================================================================== *)

Module Workflow.
Import Py.

(** The dict [review_code_file] returns for one file.  [review] is the
    text of the answer; [None] stands for a missing entry and for an
    answer without content alike (either way its use raises). *)
Record review : Type := {
  file : string;
  status : string;
  review_text : option string
}.

(** [review_code_file], given what reading the file and calling the model
    gave.  The client is set up before; if that raises there is no
    review at all. *)
Definition review_code_file (file_path : string) (read : result string)
  (answer : result (option string)) : review :=
  match read with
  | Raise _ => {| file := file_path; status := "error"; review_text := None |}
  | Ok _ =>
      match answer with
      | Ok content =>
          {| file := file_path; status := "success"; review_text := content |}
      | Raise _ =>
          {| file := file_path; status := "error"; review_text := None |}
      end
  end.

(** [k in x] for a string [k]. *)
Definition has_key (k : string) (x : json) : result bool :=
  match x with
  | JObj o => Ok (match lookup k o with Some _ => true | None => false end)
  | JArr l => Ok (List.existsb (py_eq (JStr k)) l)
  | JStr s => Ok (contains k s)
  | _ => Raise TypeError
  end.

(** [x[k]] for a string [k]. *)
Definition subscript (x : json) (k : string) : result json :=
  match x with
  | JObj o =>
      match lookup k o with
      | Some v => Ok v
      | None => Raise KeyError
      end
  | _ => Raise TypeError
  end.

(** The body of the [try] for one successful review, from the decoded
    value on: the scores and issues after it.  An exception leaves the
    lists as the statements before it made them. *)
Definition absorb (review_data : json) (acc : list json * list json)
  : list json * list json :=
  let (all_scores, all_issues) := acc in
  match has_key "overall_score" review_data with
  | Raise _ => acc
  | Ok has_score =>
      match (if has_score
             then x <- subscript review_data "overall_score" ;;
                  Ok (all_scores ++ [x])%list
             else Ok all_scores) with
      | Raise _ => acc
      | Ok all_scores1 =>
          match has_key "issues" review_data with
          | Raise _ => (all_scores1, all_issues)
          | Ok false => (all_scores1, all_issues)
          | Ok true =>
              match (x <- subscript review_data "issues" ;; iter x) with
              | Ok items => (all_scores1, (all_issues ++ items)%list)
              | Raise _ => (all_scores1, all_issues)
              end
          end
      end
  end.

(** One turn of the loop over the successful reviews. *)
Definition absorb_review (acc : list json * list json) (r : review)
  : list json * list json :=
  match review_text r with
  | None => acc
  | Some review_content =>
      let json_start := find "{" review_content in
      let json_end := rfind "}" review_content + 1 in
      if (0 <=? json_start) && (json_start <? json_end) then
        match loads (slice review_content json_start json_end) with
        | Ok review_data => absorb review_data acc
        | Raise _ => acc
        end
      else acc
  end.

Definition is_status (s : string) (r : review) : bool := String.eqb (status r) s.

(** [all_scores] and [all_issues] when the loop is over. *)
Definition collect (reviews : list review) : list json * list json :=
  List.fold_left absorb_review (List.filter (is_status "success") reviews)
                 ([], []).

(** [len([i for i in all_issues if i.get("severity") == sev])] *)
Fixpoint count_severity (sev : string) (all_issues : list json) : result nat :=
  match all_issues with
  | [] => Ok O
  | i :: rest =>
      x <- attr_get i "severity" JNull ;;
      n <- count_severity sev rest ;;
      Ok (if py_eq x (JStr sev) then S n else n)
  end.

Record summary : Type := {
  total_files : nat;
  reviewed_successfully : nat;
  review_failed : nat;
  average_score : Q;
  total_issues : nat;
  critical_issues : nat;
  high_issues : nat;
  medium_issues : nat;
  low_issues : nat
}.

Record report : Type := {
  directory : string;
  report_status : string;
  report_summary : summary;
  reviews : list review
}.

Definition _aggregate_reviews (reviews : list review) (directory_path : string)
  : result report :=
  let successful_reviews := List.filter (is_status "success") reviews in
  let failed_reviews := List.filter (is_status "error") reviews in
  let (all_scores, all_issues) := collect reviews in
  avg_score <- (match all_scores with
                | [] => Ok 0%Q
                | _ => mean all_scores
                end) ;;
  critical_count <- count_severity "critical" all_issues ;;
  high_count <- count_severity "high" all_issues ;;
  medium_count <- count_severity "medium" all_issues ;;
  low_count <- count_severity "low" all_issues ;;
  Ok {| directory := directory_path;
        report_status := "success";
        report_summary :=
          {| total_files := List.length reviews;
             reviewed_successfully := List.length successful_reviews;
             review_failed := List.length failed_reviews;
             average_score := round2 avg_score;
             total_issues := List.length all_issues;
             critical_issues := critical_count;
             high_issues := high_count;
             medium_issues := medium_count;
             low_issues := low_count |};
        reviews := reviews |}.

(** *** [review_directory] *)

Definition default_exclude_patterns : list string :=
  ["**/test_*.py"; "**/__pycache__/**"; "**/.*"].

(** What [review_directory] returns: the error dict for a missing
    directory, or the aggregated report. *)
Inductive directory_result : Type :=
| DirectoryNotFound (directory_path : string)
| Aggregated (r : report).

(** *** [_initialize_gemini_client]

    The API key read from the secrets file: [None] when the file cannot
    be opened or parsed or the look-up raises (the [try] only logs a
    warning). *)
Definition api_key_of (secrets : LlmUtils.config_file) : option json :=
  match secrets with
  | Some (Ok secrets) =>
      match (openai <- attr_get secrets "openai" (JObj []) ;;
             attr_get openai "api_key" (JStr "")) with
      | Ok api_key => Some api_key
      | Raise _ => None
      end
  | _ => None
  end.

(** The set-up of the client: ValueError without a key or with a blank
    one; [strip] is called on whatever the key is, outside the [try], so a
    key that is not a string raises AttributeError; then the constructor
    of the client runs, and what it raises is not caught either. *)
Definition _initialize_gemini_client (secrets : LlmUtils.config_file)
  (construct : result unit) : result unit :=
  match api_key_of secrets with
  | None => Raise ValueError
  | Some api_key =>
      if negb (LlmUtils.truthy api_key) then Raise ValueError
      else
        stripped <- LlmUtils.str_strip api_key ;;
        if String.eqb stripped "" then Raise ValueError else construct
  end.

(** The world of [review_directory]: whether the directory exists, the
    files [rglob] finds in it, [Path.match], the secrets file and what
    the constructor of the client does, and what reading a file and
    asking the model about it give. *)
Record world : Type := {
  directory_exists : bool;
  all_files : list string;
  path_match : string -> string -> bool;
  secrets : LlmUtils.config_file;
  construct : result unit;
  read_file : string -> result string;
  answer : string -> result (option string)
}.

(** The files left after the exclusion patterns. *)
Definition files_to_review (w : world) (exclude_patterns : list string)
  : list string :=
  List.filter
    (fun file_path =>
       negb (List.existsb (path_match w file_path) exclude_patterns))
    (all_files w).

Definition review_directory (w : world) (directory_path : string)
  (exclude_patterns : option (list string)) : result directory_result :=
  let exclude_patterns :=
    match exclude_patterns with
    | None => default_exclude_patterns
    | Some ps => ps
    end in
  if negb (directory_exists w) then Ok (DirectoryNotFound directory_path)
  else
    match files_to_review w exclude_patterns with
    | [] => r <- _aggregate_reviews [] directory_path ;; Ok (Aggregated r)
    | files =>
        _ <- _initialize_gemini_client (secrets w) (construct w) ;;
        r <- _aggregate_reviews
               (List.map (fun file_path =>
                            review_code_file file_path (read_file w file_path)
                                             (answer w file_path))
                         files)
               directory_path ;;
        Ok (Aggregated r)
    end.

End Workflow.

(* ================================================================== *)
(** * Vocabulary of the statements *)
(* ================================================================== *)

Module Spec.
Import Py.

(** An issue that carries the given file name and line number. *)
Definition located (o : dict) (f : string) (l : Z) : Prop :=
  lookup "file" o = Some (JStr f) /\ lookup "line" o = Some (JInt l).

(** The locality rule in the words of the specification. *)
Definition close_by (gf : string) (gl : Z) (cf : string) (cl : Z) : bool :=
  String.eqb gf cf && (Z.abs (gl - cl) <=? 5).

(** An issue on which the locality test cannot raise: a dict whose line
    (zero when absent) is a number. *)
Definition comparable (x : json) : Prop :=
  exists o, x = JObj o /\ num_of (get o "line" (JInt 0)) <> None.

(** The locality test between two issues as a plain boolean. *)
Definition matches (g c : json) : bool :=
  match g with
  | JObj o =>
      match Quick.issues_match (get o "file" (JStr "")) (get o "line" (JInt 0)) c with
      | Ok b => b
      | Raise _ => false
      end
  | _ => false
  end.

(** The consensus entry of a Gemini issue [o] matched with [c]. *)
Definition entry_of (o : dict) (c : json) : Quick.consensus_issue :=
  {| Quick.file := get o "file" (JStr ""); Quick.line := get o "line" (JInt 0);
     Quick.severity := get o "severity" (JStr "");
     Quick.gemini_issue := JObj o; Quick.codex_issue := c |}.

(** Sample issues. *)
Definition x10 : dict := [("file", JStr "x.py"); ("line", JInt 10)].
Definition x15 : dict := [("file", JStr "x.py"); ("line", JInt 15)].
Definition x16 : dict := [("file", JStr "x.py"); ("line", JInt 16)].
Definition y10 : dict := [("file", JStr "y.py"); ("line", JInt 10)].

Definition x12 : dict := [("file", JStr "x.py"); ("line", JInt 12)].
Definition x11 : dict := [("file", JStr "x.py"); ("line", JInt 11)].
Definition x40 : dict := [("file", JStr "x.py"); ("line", JInt 40)].

(** The [severity] entry of an issue ([None] when there is none). *)
Definition severity_of (i : json) : json :=
  match i with
  | JObj o => get o "severity" JNull
  | _ => JNull
  end.

Definition has_severity (sev : string) (i : json) : bool :=
  py_eq (severity_of i) (JStr sev).

(** The issue falls in one of the four severity buckets. *)
Definition bucketed (i : json) : bool :=
  has_severity "critical" i || has_severity "high" i
  || has_severity "medium" i || has_severity "low" i.

Definition is_dict (x : json) : Prop := exists o, x = JObj o.

Definition is_number (x : json) : Prop := num_of x <> None.

(** Sample per-file reviews: one answered with an upper-case severity next
    to a lower-case one, one that failed. *)
Definition sample_reviews : list Workflow.review :=
  [ {| Workflow.file := "a.py"; Workflow.status := "success";
       Workflow.review_text :=
         Some (dq "Here: {'overall_score': 7, 'issues': [{'severity': 'high'}, {'severity': 'HIGH'}]} done") |};
    {| Workflow.file := "b.py"; Workflow.status := "error";
       Workflow.review_text := None |} ].

(** The arithmetic mean of a list of rationals. *)
Definition mean_of (qs : list Q) : Q :=
  (List.fold_right Qplus 0 qs / inject_Z (Z.of_nat (List.length qs)))%Q.


(** The overall score a review's data carries: the number under
    ["overall_score"], zero when the key is absent. *)
Definition score_of (d : option json) : option Q :=
  match d with
  | Some (JObj o) => num_of (get o "overall_score" (JInt 0))
  | _ => None
  end.

(** Sample reviews of the iterative improver. *)
Definition scored (t : string) (q : Q) : Iterative.review_result :=
  Iterative.success t (JObj [("overall_score", JFloat q)]) "".

Definition scored_partial (t : string) (q : Q) : Iterative.review_result :=
  Iterative.partial t (JObj [("overall_score", JFloat q)]) "".

Definition scored_quick (q : Q) : Quick.review_result :=
  Quick.success (JObj [("overall_score", JFloat q)]).

(** The iteration an event of the quick loop belongs to. *)
Definition event_index (e : Quick.event) : Z :=
  match e with
  | Quick.Reviewed i _ _ => i
  | Quick.Scored i _ => i
  | Quick.FixAttempt i _ => i
  | Quick.Slept i => i
  end.

Definition is_scored (e : Quick.event) : bool :=
  match e with
  | Quick.Scored _ _ => true
  | _ => false
  end.

Definition is_fix (e : Quick.event) : bool :=
  match e with
  | Quick.FixAttempt _ _ => true
  | _ => false
  end.

(** The iteration's average meets the target. *)
Definition converged (target : Q) (c : Iterative.consensus) : Prop :=
  (target <= Iterative.average_score c)%Q.

(** The reviews the quick loop gets in an iteration. *)
Definition quick_reviews (w : Quick.world) (i : Z) : list Quick.review_result :=
  [fst (Quick.reviews w i); snd (Quick.reviews w i)].

(** Sample worlds: Gemini alone is installed and answers with the given
    text at every iteration. *)
Definition answer (text : string) : result completed :=
  Ok {| returncode := 0; stdout := text; stderr := "" |}.

Definition gemini_only (text : string) : Iterative.world :=
  {| Iterative.gemini_run := fun _ => answer text;
     Iterative.codex_run := fun _ => Raise OSError |}.

Definition gemini_only_tools : Iterative.tools :=
  {| Iterative.gemini := true; Iterative.codex := false |}.

Definition quick_gemini_only (text : string) : Quick.world :=
  {| Quick.has_gemini := true; Quick.has_codex := false;
     Quick.gemini_run := fun _ => answer text;
     Quick.codex_run := fun _ => Raise OSError |}.

Definition score_8 : string := dq "{'overall_score': 8.0}".

(** The report on one successful review with score 9 and one failed
    review. *)
Definition nine_and_failed : Iterative.consensus :=
  {| Iterative.iteration := 1;
     Iterative.gemini_status := "success";
     Iterative.codex_status := "failed";
     Iterative.scores := [("gemini", JFloat 9)];
     Iterative.consensus_issues := [];
     Iterative.average_score := (0 + 9) / 1 |}.

Definition score_9 : string := dq "{'overall_score': 9}".

(** A Codex run that exits with status zero and asks for a subscription. *)
Definition plus_required : completed :=
  {| returncode := 0;
     stdout := "To use this model, upgrade to Plus.";
     stderr := "" |}.

Fixpoint all_digits (s : string) : bool :=
  match s with
  | EmptyString => true
  | String c s' => isdigit c && all_digits s'
  end.

Definition is_lower_letter (c : ascii) : bool :=
  (97 <=? code c) && (code c <=? 122).

Fixpoint all_lower (s : string) : bool :=
  match s with
  | EmptyString => true
  | String c s' => is_lower_letter c && all_lower s'
  end.

(** The sum of a list of rationals. *)
Definition sum_of (qs : list Q) : Q := List.fold_right Qplus 0%Q qs.

(** The severities an issue mined from text can have. *)
Definition severities : list string := ["CRITICAL"; "HIGH"; "MEDIUM"; "LOW"].

(** The shape of an issue mined from text: a severity and a description,
    nothing else (no file, no line). *)
Definition mined (i : json) : Prop :=
  exists sev desc,
    i = JObj [("severity", JStr sev); ("description", JStr desc)]
    /\ In sev severities.

(** The dict [parse_text_review] builds. *)
Definition parsed (q : Q) (issues : list json) : json :=
  JObj [("overall_score", JFloat q);
        ("critical_issues", JArr issues);
        ("summary", JStr "Parsed from text output")].

(** The keyword occurs in the lower-cased texts of both issues. *)
Definition shared (k : string) (g c : json) : Prop :=
  contains k (lower (str g)) = true /\ contains k (lower (str c)) = true.

Definition issue_at (f : string) (l : Z) (text : string) : json :=
  JObj [("file", JStr f); ("line", JInt l); ("issue", JStr text);
        ("severity", JStr "LOW")].

Definition described (text : string) : json :=
  JObj [("severity", JStr "HIGH"); ("description", JStr text)].

(** The character occurs in the text. *)
Fixpoint has_char (c : ascii) (s : string) : bool :=
  match s with
  | EmptyString => false
  | String a s' => Ascii.eqb c a || has_char c s'
  end.

(** The text is white space only. *)
Fixpoint all_space (s : string) : bool :=
  match s with
  | EmptyString => true
  | String a s' => isspace a && all_space s'
  end.

(** A structured object as a reviewer writes it: braces around a body. *)
Definition object_text (body : string) : string := "{" ++ body ++ "}".

(** A fenced block holding [payload], with white space around it. *)
Definition fenced (ws1 payload ws2 : string) : string :=
  "```json" ++ ws1 ++ payload ++ ws2 ++ "```".

(** A process that returned [output] on its standard output. *)
Definition printed (rc : Z) (output : string) (err : string) : result completed :=
  Ok {| returncode := rc; stdout := output; stderr := err |}.

(** Sample payloads: one without and one with an issue object. *)
Definition flat_body : string := dq "'overall_score': 7.2, 'critical_issues': []".

Definition flat_data : dict :=
  [("overall_score", JFloat (36 # 5)); ("critical_issues", JArr [])].

Definition nested_body : string :=
  dq "'overall_score': 7.2, 'critical_issues': [{'file': 'a.py', 'line': 3, 'issue': 'unused import', 'severity': 'LOW'}]".

Definition nested_data : dict :=
  [("overall_score", JFloat (36 # 5));
   ("critical_issues",
    JArr [JObj [("file", JStr "a.py"); ("line", JInt 3);
                ("issue", JStr "unused import"); ("severity", JStr "LOW")]])].

Definition newline : string := String "010" "".

(** The characters the keywords are made of. *)
Definition plain_char (c : ascii) : bool :=
  is_lower_letter c || Ascii.eqb c "-" || Ascii.eqb c " ".

Fixpoint all_plain (s : string) : bool :=
  match s with
  | EmptyString => true
  | String c s' => plain_char c && all_plain s'
  end.

(** ** Vocabulary of the further properties *)

(** A review of the quick workflow as its caller needs it: data only on
    success, and then a dict whose issue list has a length. *)
Definition quick_well_formed (r : Quick.review_result) : Prop :=
  (Quick.is_success r = true ->
   exists o n, Quick.data r = Some (JObj o)
               /\ len (get o "top_issues" (JArr [])) = Ok n)
  /\ (Quick.is_success r = false ->
      Quick.data r = None
      /\ (Quick.status r = "failed" \/ Quick.status r = "skipped")).

(** Sample directory listings. *)
Definition has_model_and_utils (f : string) : bool :=
  String.eqb f "utils.py" || String.eqb f "model.py".

Definition no_file (f : string) : bool := false.

(** A process run that exits with status 2. *)
Definition exit_2 (out err : string) : completed :=
  {| returncode := 2; stdout := out; stderr := err |}.

Definition unlocated (text : string) : dict :=
  [("issue", JStr text); ("severity", JStr "HIGH")].

(** A value that has a length. *)
Definition sized (x : json) : Prop := exists n, len x = Ok n.

Definition is_reviewed (e : Quick.event) : bool :=
  match e with
  | Quick.Reviewed _ _ _ => true
  | _ => false
  end.

(** The iterations [first], [first + 1], ... ([count] of them). *)
Definition iterations (first : Z) (count : nat) : list Z :=
  List.map (fun j => first + Z.of_nat j) (List.seq 0 count).

(** The consensus issues of the reviews of an iteration of the quick
    loop, when both have data. *)
Definition quick_consensus (w : Quick.world) (i : Z)
  : result (list Quick.consensus_issue) :=
  gd <- Quick.the_data (fst (Quick.reviews w i)) ;;
  cd <- Quick.the_data (snd (Quick.reviews w i)) ;;
  Quick.find_consensus_issues gd cd.

(** Sample world: both tools are installed, agree on one issue and give
    a score below any target above 5, each in a fenced block. *)
Definition issue_and_score_5 : string :=
  fenced newline
    (dq "{'overall_score': 5, 'top_issues': [{'file': 'x.py', 'line': 10, 'severity': 'HIGH'}]}")
    newline.

Definition quick_both (text : string) : Quick.world :=
  {| Quick.has_gemini := true; Quick.has_codex := true;
     Quick.gemini_run := fun _ => answer text;
     Quick.codex_run := fun _ => answer text |}.

Definition is_dict_data (d : option json) : Prop :=
  exists o, d = Some (JObj o).

(** A review status that takes part in scores and consensus. *)
Definition counted (status : string) : bool :=
  String.eqb status "success" || String.eqb status "partial".

(** Sample world of the iterative workflow: both tools answer with the
    given text at every iteration. *)
Definition both_answer (text : string) : Iterative.world :=
  {| Iterative.gemini_run := fun _ => answer text;
     Iterative.codex_run := fun _ => answer text |}.

Definition both_tools : Iterative.tools :=
  {| Iterative.gemini := true; Iterative.codex := true |}.

(** Both tools report one issue about a hard-coded device and a score
    of 5. *)
Definition device_and_score_5 : string :=
  fenced newline
    (dq "{'overall_score': 5, 'critical_issues': [{'issue': 'cuda device is hard-coded'}]}")
    newline.

(** A review result of the iterative workflow as the consensus step
    needs it: data exactly when the status is success or partial; on
    success a dict decoded from the output, on partial what
    [parse_text_review] mines from the raw output. *)
Definition iterative_well_formed (t : string) (r : Iterative.review_result)
  : Prop :=
  Iterative.tool r = t
  /\ ((Iterative.status r = "success"
       /\ is_dict_data (Iterative.data r)
       /\ Iterative.raw_output r <> None /\ Iterative.error r = None)
      \/ (Iterative.status r = "partial"
          /\ (exists raw,
                Iterative.raw_output r = Some raw
                /\ Iterative.data r = Some (Iterative.parse_text_review raw))
          /\ Iterative.error r = None)
      \/ (Iterative.status r = "failed"
          /\ Iterative.data r = None /\ Iterative.error r <> None)
      \/ (Iterative.status r = "skipped"
          /\ Iterative.data r = None /\ Iterative.error r = None)).

(** A review that decoded to a dict whose overall score is not a number. *)
Definition score_not_a_number : string := dq "{'overall_score': 'high'}".

(** Sample issue lists: every pair shares a keyword. *)
Definition device_issues : list json :=
  [JObj [("issue", JStr "cuda device is hard-coded")];
   JObj [("issue", JStr "no gpu fallback")]].

Definition gpu_issues : list json :=
  [JObj [("issue", JStr "gpu device assumed")];
   JObj [("issue", JStr "hard-coded cuda index on gpu")]].

(** The exclusion patterns [review_directory] works with. *)
Definition effective_patterns (exclude_patterns : option (list string))
  : list string :=
  match exclude_patterns with
  | None => Workflow.default_exclude_patterns
  | Some ps => ps
  end.

(** A review that the aggregation passes over: not successful, without
    text, without an opening brace before a closing one, or with a text
    between the braces that does not decode. *)
Definition passed_over (r : Workflow.review) : Prop :=
  Workflow.status r <> "success"
  \/ Workflow.review_text r = None
  \/ exists text,
       Workflow.review_text r = Some text
       /\ (find "{" text < 0
           \/ rfind "}" text + 1 <= find "{" text
           \/ exists e,
                loads (slice text (find "{" text) (rfind "}" text + 1)) = Raise e).

(** Sample directory: two source files and a test file; the model answers
    for one, reading the other fails; the secrets file holds a key. *)
Definition key_file (key : json) : LlmUtils.config_file :=
  Some (Ok (JObj [("openai", JObj [("api_key", key)])])).

Definition sample_directory : Workflow.world :=
  {| Workflow.directory_exists := true;
     Workflow.all_files := ["a.py"; "test_a.py"; "b.py"];
     Workflow.path_match :=
       fun f p =>
         String.eqb p "*" || (String.eqb p "**/test_*.py" && startswith "test_" f);
     Workflow.secrets := key_file (JStr "AIza-key");
     Workflow.construct := Ok tt;
     Workflow.read_file :=
       fun f => if String.eqb f "b.py" then Raise OSError else Ok "pass";
     Workflow.answer := fun _ => Ok (Some (dq "{'overall_score': 7}")) |}.

Definition with_secrets (secrets : LlmUtils.config_file) (w : Workflow.world)
  : Workflow.world :=
  {| Workflow.directory_exists := Workflow.directory_exists w;
     Workflow.all_files := Workflow.all_files w;
     Workflow.path_match := Workflow.path_match w;
     Workflow.secrets := secrets;
     Workflow.construct := Workflow.construct w;
     Workflow.read_file := Workflow.read_file w;
     Workflow.answer := Workflow.answer w |}.

Definition missing_directory (w : Workflow.world) : Workflow.world :=
  {| Workflow.directory_exists := false;
     Workflow.all_files := Workflow.all_files w;
     Workflow.path_match := Workflow.path_match w;
     Workflow.secrets := Workflow.secrets w;
     Workflow.construct := Workflow.construct w;
     Workflow.read_file := Workflow.read_file w;
     Workflow.answer := Workflow.answer w |}.

Definition prose_review : Workflow.review :=
  {| Workflow.file := "c.py"; Workflow.status := "success";
     Workflow.review_text := Some "Looks fine, 9/10." |}.

(** The server an agent configuration is built around. *)
Definition server_of (use_segmentation : bool) : string :=
  if use_segmentation then "document-segmentation" else "filesystem".

(** Sample configuration files. *)
Definition provider_config (p : string) : LlmUtils.config_file :=
  Some (Ok (JObj [("default_llm_provider", JStr p)])).

Definition anthropic_secrets (key : string) : LlmUtils.config_file :=
  Some (Ok (JObj [("anthropic", JObj [("api_key", JStr key)]);
                  ("ollama", JObj [("base_url", JStr "http://localhost")])])).

Definition segmentation_file (enabled threshold : json) : LlmUtils.config_file :=
  Some (Ok (JObj [("document_segmentation",
                   JObj [("enabled", enabled);
                         ("size_threshold_chars", threshold)])])).

(** A text [float] accepts: digits, then possibly a point and digits; no
    sign and no exponent. *)
Definition numeral (s : string) : Prop :=
  exists d f,
    all_digits d = true /\ d <> "" /\ all_digits f = true
    /\ (s = d \/ (f <> "" /\ s = d ++ "." ++ f)).

(** A configuration section that is absent, null or empty, or a mapping. *)
Definition section_ok (o : dict) (k : string) : Prop :=
  LlmUtils.truthy (get o k JNull) = false \/ is_dict (get o k JNull).

(** The model a section names, [default] when the section is absent,
    null or empty or has no [default_model] entry. *)
Definition model_of (o : dict) (k : string) (default : string) : json :=
  match get o k JNull with
  | JObj section => get section "default_model" (JStr default)
  | _ => JStr default
  end.

Definition models_file : LlmUtils.config_file :=
  Some (Ok (JObj [("anthropic", JNull);
                  ("openai", JObj [("default_model", JStr "gpt-4o")])])).

Definition broken_models_file : LlmUtils.config_file :=
  Some (Ok (JObj [("anthropic", JStr "claude");
                  ("openai", JObj [("default_model", JStr "gpt-4o")])])).

(** ** Vocabulary of the revised statements *)

(** An issue as the prompts ask for it, as far as the locality test
    goes: an object whose file, when present, is a string and whose line,
    when present, is an integer. *)
Definition plain_issue (x : json) : Prop :=
  exists o f l,
    x = JObj o
    /\ get o "file" (JStr "") = JStr f
    /\ get o "line" (JInt 0) = JInt l.

(** The file and the line of an issue, with the defaults of the code. *)
Definition file_of (x : json) : string :=
  match x with
  | JObj o => match get o "file" (JStr "") with JStr f => f | _ => "" end
  | _ => ""
  end.

Definition line_of (x : json) : Z :=
  match x with
  | JObj o => match get o "line" (JInt 0) with JInt l => l | _ => 0 end
  | _ => 0
  end.

(** The locality rule of the specification between two issues. *)
Definition near (g c : json) : bool :=
  close_by (file_of g) (line_of g) (file_of c) (line_of c).

(** The matches [re.findall] reports, each with the position it starts
    at and its length: [findall] with the positions kept. *)
Fixpoint occurrences {A : Type} (m : string -> option (A * nat)) (s : string)
  (skip pos : nat) : list (nat * A * nat) :=
  match s with
  | EmptyString => []
  | String _ s' =>
      match skip with
      | S k => occurrences m s' k (S pos)
      | O =>
          match m s with
          | Some (a, n) => (pos, a, n) :: occurrences m s' (Nat.pred n) (S pos)
          | None => occurrences m s' 0 (S pos)
          end
      end
  end.

Definition start_of {A : Type} (o : nat * A * nat) : nat := fst (fst o).
Definition value_of {A : Type} (o : nat * A * nat) : A := snd (fst o).
Definition end_of {A : Type} (o : nat * A * nat) : nat := (fst (fst o) + snd o)%nat.

(** [occs] are the leftmost non-overlapping matches of the matcher [m] in
    [text]: each is a match of at least one character at its position,
    they come in order without overlap, and every position where [m]
    matches is the start of one of them or lies inside one. *)
Definition scan {A : Type} (m : string -> option (A * nat)) (text : string)
  (occs : list (nat * A * nat)) : Prop :=
  (forall o, In o occs ->
     (start_of o < end_of o)%nat
     /\ exists pre post,
          text = pre ++ post /\ String.length pre = start_of o
          /\ m post = Some (value_of o, snd o))
  /\ (forall before o after, occs = (before ++ o :: after)%list ->
        forall o', In o' after -> (end_of o <= start_of o')%nat)
  /\ (forall pre post, text = pre ++ post -> m post <> None ->
        exists o, In o occs
                  /\ (start_of o <= String.length pre < end_of o)%nat).

(** A severity word, in any letter case, followed by a colon or a
    white-space character, at the head of [s]. *)
Definition severity_here (s : string) : Prop :=
  exists w c rest,
    In w Iterative.severity_words
    /\ Iterative.skip_word w s = Some (String c rest)
    /\ Iterative.is_sep c = true.

(** The two reviews an iteration of the iterative improver obtains, and
    the report it computes from them. *)
Definition iterative_reviews (w : Iterative.world) (t : Iterative.tools) (i : Z)
  : Iterative.review_result * Iterative.review_result :=
  (if Iterative.gemini t
   then Iterative.run_gemini_review (Iterative.gemini_run w i)
   else Iterative.skipped "gemini",
   if Iterative.codex t
   then Iterative.run_codex_review (Iterative.codex_run w i)
   else Iterative.skipped "codex").

Definition report_at (w : Iterative.world) (t : Iterative.tools) (i : Z)
  : result Iterative.consensus :=
  Iterative.generate_consensus_report
    (fst (iterative_reviews w t i)) (snd (iterative_reviews w t i)) i.

(** The iteration has a report, and its average misses the target. *)
Definition below (target : Q) (r : result Iterative.consensus) : Prop :=
  exists c, r = Ok c /\ ~ converged target c.

(** The average an iteration of the quick loop computes from its two
    reviews: none when no review succeeded. *)
Definition average_at (qw : Quick.world) (j : Z) : result (option Q) :=
  match Quick.collect_scores (fst (Quick.reviews qw j))
                             (snd (Quick.reviews qw j)) with
  | Raise e => Raise e
  | Ok [] => Ok None
  | Ok scores => avg <- mean scores ;; Ok (Some avg)
  end.

(** The iteration of the quick loop has an average below the target, and
    its repair phase raises nothing. *)
Definition quick_below (target : Q) (m : Z) (qw : Quick.world) (j : Z) : Prop :=
  (exists avg, average_at qw j = Ok (Some avg) /\ ~ (target <= avg)%Q)
  /\ snd (Quick.fix_phase m j (fst (Quick.reviews qw j))
                          (snd (Quick.reviews qw j))) = Quick.Next.

(** Sample issue without a usable line. *)
Definition x_null : dict := [("file", JStr "x.py"); ("line", JNull)].

End Spec.

(* ================================================================== *)
(** * Facts *)
(* ================================================================== *)

Import Py.

(** ** Results and numbers *)

Lemma inject_Z_close (a b : Z) :
  Qle_bool (Qabs (inject_Z a - inject_Z b)) 5 = (Z.abs (a - b) <=? 5).
Proof.
  unfold Qle_bool, Qabs, Qminus, Qplus, Qopp, inject_Z; simpl.
  rewrite !Z.mul_1_r. reflexivity.
Qed.

Lemma get_lookup (o : dict) (k : string) (d v : json) :
  lookup k o = Some v -> get o k d = v.
Proof. unfold get; intros ->; reflexivity. Qed.

(** ** Searching and slicing strings *)

Module StringFacts.
Import Spec.

Lemma length_app (a b : string) :
  String.length (a ++ b) = (String.length a + String.length b)%nat.
Proof. induction a as [ | c a IH ]; cbn; [ reflexivity | now rewrite IH ]. Qed.

Lemma app_nil_r (a : string) : a ++ "" = a.
Proof. induction a as [ | c a IH ]; cbn; [ reflexivity | now rewrite IH ]. Qed.

Lemma app_assoc (a b c : string) : (a ++ b) ++ c = a ++ b ++ c.
Proof. induction a as [ | x a IH ]; cbn; [ reflexivity | now rewrite IH ]. Qed.

Lemma has_char_app (c : ascii) (a b : string) :
  has_char c (a ++ b) = has_char c a || has_char c b.
Proof.
  induction a as [ | x a IH ]; cbn; [ reflexivity | ].
  now rewrite IH, orb_assoc.
Qed.

Lemma startswith_app (sub rest : string) : startswith sub (sub ++ rest) = true.
Proof.
  induction sub as [ | c sub IH ]; cbn; [ reflexivity | ].
  now rewrite Ascii.eqb_refl, IH.
Qed.

(** An occurrence at the head is found there. *)
Lemma find_from_here (sub s : string) (i : Z) :
  startswith sub s = true -> find_from sub s i = i.
Proof.
  intros H. destruct s; cbn [find_from]; now rewrite H.
Qed.

(** A prefix without the first character of [sub] is passed over. *)
Lemma find_from_skip (c : ascii) (sub pre s : string) :
  has_char c pre = false ->
  forall i, find_from (String c sub) (pre ++ s) i
            = find_from (String c sub) s (i + Z.of_nat (String.length pre)).
Proof.
  induction pre as [ | a pre IH ]; cbn [has_char]; intros H i.
  - cbn. now rewrite Z.add_0_r.
  - apply orb_false_iff in H. destruct H as [Ha Hpre].
    cbn [append find_from startswith]. rewrite Ha. cbn [andb].
    rewrite (IH Hpre). f_equal. cbn [String.length]. lia.
Qed.

Lemma find_from_lower_bound (sub s : string) :
  forall i, find_from sub s i = -1 \/ i <= find_from sub s i.
Proof.
  induction s as [ | a s IH ]; intros i; cbn [find_from].
  - destruct (startswith sub ""); [ right; lia | now left ].
  - destruct (startswith sub (String a s)); [ right; lia | ].
    destruct (IH (i + 1)) as [H | H]; [ now left | right; lia ].
Qed.

(** The text has an occurrence of [sub] wherever [sub] is put into it. *)
Lemma find_from_found (sub pre post : string) :
  forall i, i <= find_from sub (pre ++ sub ++ post) i.
Proof.
  induction pre as [ | a pre IH ]; intros i.
  - cbn [append]. rewrite find_from_here; [ lia | apply startswith_app ].
  - cbn [append find_from].
    destruct (startswith sub (String a (pre ++ sub ++ post))); [ lia | ].
    specialize (IH (i + 1)). lia.
Qed.

Lemma contains_app (sub pre post : string) :
  contains sub (pre ++ sub ++ post) = true.
Proof.
  unfold contains, find. apply Z.leb_le. apply find_from_found.
Qed.

(** Without the character there is no last occurrence. *)
Lemma rfind_from_none (c : ascii) (s : string) :
  has_char c s = false -> forall i, rfind_from (String c "") s i = -1.
Proof.
  induction s as [ | a s IH ]; cbn [has_char]; intros H i; [ reflexivity | ].
  apply orb_false_iff in H. destruct H as [Ha Hs].
  cbn [rfind_from startswith]. rewrite (IH Hs), Ha. reflexivity.
Qed.

(** The last occurrence of a character that does not occur after it. *)
Lemma rfind_from_last (c : ascii) (pre post : string) :
  has_char c post = false ->
  forall i, 0 <= i ->
  rfind_from (String c "") (pre ++ String c post) i
  = i + Z.of_nat (String.length pre).
Proof.
  intros Hpost. induction pre as [ | a pre IH ]; intros i Hi.
  - cbn [append rfind_from startswith String.length].
    rewrite (rfind_from_none c post Hpost), Ascii.eqb_refl. cbn. lia.
  - cbn [append rfind_from]. rewrite (IH (i + 1)) by lia.
    cbn [String.length].
    destruct (0 <=? i + 1 + Z.of_nat (String.length pre)) eqn:H.
    + lia.
    + apply Z.leb_gt in H. lia.
Qed.

Lemma substring_head (a b : string) :
  substring 0 (String.length a) (a ++ b) = a.
Proof. induction a as [ | c a IH ]; cbn; [ now destruct b | now rewrite IH ]. Qed.

Lemma substring_app (pre a b : string) :
  substring (String.length pre) (String.length a) (pre ++ a ++ b) = a.
Proof.
  induction pre as [ | c pre IH ]; cbn [String.length append substring].
  - apply substring_head.
  - exact IH.
Qed.

Lemma clip_inside (n i : Z) : 0 <= i <= n -> clip n i = i.
Proof.
  intros H. unfold clip. destruct (i <? 0) eqn:Hi; [ apply Z.ltb_lt in Hi | ]; lia.
Qed.

(** The slice that covers exactly the middle of three parts. *)
Lemma slice_middle (pre a b : string) :
  slice (pre ++ a ++ b) (Z.of_nat (String.length pre))
        (Z.of_nat (String.length pre) + Z.of_nat (String.length a)) = a.
Proof.
  unfold slice. rewrite !length_app.
  rewrite !clip_inside by lia.
  replace (Z.to_nat (Z.of_nat (String.length pre) + Z.of_nat (String.length a)
                     - Z.of_nat (String.length pre)))
    with (String.length a) by lia.
  rewrite Nat2Z.id. apply substring_app.
Qed.

Lemma drop_app (a b : string) : drop (String.length a) (a ++ b) = b.
Proof. induction a as [ | c a IH ]; cbn; [ reflexivity | exact IH ]. Qed.

Lemma lstrip_space (ws s : string) :
  all_space ws = true -> lstrip (ws ++ s) = lstrip s.
Proof.
  induction ws as [ | c ws IH ]; cbn [all_space append lstrip]; [ reflexivity | ].
  intros H. apply andb_true_iff in H. destruct H as [Hc Hws].
  rewrite Hc. now apply IH.
Qed.

Lemma rstrip_space (ws : string) : all_space ws = true -> rstrip ws = "".
Proof.
  induction ws as [ | c ws IH ]; cbn [all_space rstrip]; [ reflexivity | ].
  intros H. apply andb_true_iff in H. destruct H as [Hc Hws].
  now rewrite (IH Hws), Hc.
Qed.

Lemma rstrip_keep (s ws : string) (z : ascii) :
  isspace z = false -> all_space ws = true ->
  rstrip (s ++ String z ws) = s ++ String z "".
Proof.
  intros Hz Hws. induction s as [ | c s IH ]; cbn [append rstrip].
  - now rewrite (rstrip_space ws Hws), Hz.
  - rewrite IH. now destruct s.
Qed.

(** White space around an object is stripped, the object is kept. *)
Lemma strip_object (ws1 body ws2 : string) :
  all_space ws1 = true -> all_space ws2 = true ->
  strip (ws1 ++ object_text body ++ ws2) = object_text body.
Proof.
  intros H1 H2. unfold strip, object_text.
  rewrite (lstrip_space ws1 _ H1). cbn [append lstrip isspace].
  change (isspace "{") with false. cbv iota.
  change (String "{" ((body ++ "}") ++ ws2))
    with (String "{" (body ++ "}") ++ ws2).
  replace (String "{" (body ++ "}") ++ ws2)
    with ((String "{" body) ++ String "}" ws2).
  - now rewrite rstrip_keep.
  - cbn [append]. now rewrite app_assoc.
Qed.

Lemma startswith_inv (sub s : string) :
  startswith sub s = true -> exists post, s = sub ++ post.
Proof.
  revert s; induction sub as [ | c sub IH ]; intros s H.
  - now exists s.
  - destruct s as [ | a s ]; [ discriminate | ]. cbn [startswith] in H.
    apply andb_true_iff in H. destruct H as [Hc Hs].
    apply Ascii.eqb_eq in Hc. subst a.
    destruct (IH s Hs) as [post ->]. now exists post.
Qed.

Lemma find_from_inv (sub s : string) :
  forall i, find_from sub s i <> -1 -> exists pre post, s = pre ++ sub ++ post.
Proof.
  induction s as [ | a s IH ]; intros i H; cbn [find_from] in H.
  - destruct (startswith sub "") eqn:Hs; [ | now destruct H ].
    destruct (startswith_inv _ _ Hs) as [post Hpost]. now exists "", post.
  - destruct (startswith sub (String a s)) eqn:Hs.
    + destruct (startswith_inv _ _ Hs) as [post Hpost]. now exists "", post.
    + destruct (IH _ H) as (pre & post & ->). now exists (String a pre), post.
Qed.

(** A text that contains [sub] has it between two parts, and conversely
    ([contains_app]). *)
Lemma contains_inv (sub s : string) :
  contains sub s = true -> exists pre post, s = pre ++ sub ++ post.
Proof.
  unfold contains, find. intros H. apply Z.leb_le in H.
  apply (find_from_inv sub s 0). lia.
Qed.

Lemma map_string_app (f : ascii -> ascii) (a b : string) :
  map_string f (a ++ b) = map_string f a ++ map_string f b.
Proof. induction a as [ | c a IH ]; cbn; [ reflexivity | now rewrite IH ]. Qed.

Lemma map_string_app_inv (f : ascii -> ascii) (x y : string) :
  forall s, map_string f s = x ++ y ->
  exists a b, s = a ++ b /\ map_string f a = x /\ map_string f b = y.
Proof.
  induction x as [ | c x IH ]; intros s H.
  - now exists "", s.
  - destruct s as [ | a s ]; [ discriminate | ]. cbn in H.
    injection H as Hc Hs. destruct (IH s Hs) as (a' & b & -> & Ha & Hb).
    exists (String a a'), b. cbn. now rewrite Hc, Ha.
Qed.

End StringFacts.

(** ** The locality matcher of the quick workflow *)

Module QuickFacts.
Import Quick Spec.

Lemma same_problem_located (gf cf : string) (gl cl : Z) :
  same_problem (JStr gf) (JInt gl) (JStr cf) (JInt cl) = Ok (close_by gf gl cf cl).
Proof.
  unfold same_problem, close_by.
  change (py_eq (JStr gf) (JStr cf)) with (String.eqb gf cf).
  destruct (String.eqb gf cf); [ | reflexivity ].
  cbn [num_of andb]. now rewrite inject_Z_close.
Qed.

Lemma issues_match_located (go co : dict) (gf cf : string) (gl cl : Z) :
  located go gf gl -> located co cf cl ->
  issues_match (get go "file" (JStr "")) (get go "line" (JInt 0)) (JObj co)
  = Ok (close_by gf gl cf cl).
Proof.
  intros [Hgf Hgl] [Hcf Hcl]; unfold issues_match; simpl.
  rewrite (get_lookup _ _ _ _ Hgf), (get_lookup _ _ _ _ Hgl),
          (get_lookup _ _ _ _ Hcf), (get_lookup _ _ _ _ Hcl).
  apply same_problem_located.
Qed.

(** C3.  Two issues that both carry a file and a line are declared the same
    problem by the locality test exactly when the file names are the same
    string and the lines differ by at most five; on a single pair the
    consensus list has one entry in that case and none otherwise. *)
Theorem C3_locality_match_iff (go co : dict) (gf cf : string) (gl cl : Z) :
  located go gf gl -> located co cf cl ->
  exists b,
    issues_match (get go "file" (JStr "")) (get go "line" (JInt 0)) (JObj co) = Ok b
    /\ (b = true <-> gf = cf /\ Z.abs (gl - cl) <= 5)
    /\ exists l, consensus_loop [JObj go] [JObj co] = Ok l
                 /\ List.length l = (if b then 1%nat else 0%nat).
Proof.
  intros Hg Hc. exists (close_by gf gl cf cl).
  pose proof (issues_match_located _ _ _ _ _ _ Hg Hc) as Hm.
  split; [ exact Hm | split ].
  - unfold close_by. rewrite andb_true_iff, String.eqb_eq, Z.leb_le. tauto.
  - cbn [consensus_loop first_match attr_get bind]. rewrite Hm.
    cbn [bind]. destruct (close_by gf gl cf cl); eexists; split; reflexivity.
Qed.

Lemma C3_locality_match_iff_witness :
  located x10 "x.py" 10 /\ located x15 "x.py" 15 /\
  exists b,
    issues_match (get x10 "file" (JStr "")) (get x10 "line" (JInt 0)) (JObj x15) = Ok b
    /\ (b = true <-> "x.py" = "x.py" /\ Z.abs (10 - 15) <= 5)
    /\ exists l, consensus_loop [JObj x10] [JObj x15] = Ok l
                 /\ List.length l = (if b then 1%nat else 0%nat).
Proof.
  assert (H10 : located x10 "x.py" 10) by (split; reflexivity).
  assert (H15 : located x15 "x.py" 15) by (split; reflexivity).
  split; [ exact H10 | split; [ exact H15 | ] ].
  exact (C3_locality_match_iff x10 x15 "x.py" "x.py" 10 15 H10 H15).
Defined.

(** The three examples of the specification. *)
Example locality_delta_5 : matches (JObj x10) (JObj x15) = true.
Proof. reflexivity. Qed.

Example locality_delta_6 : matches (JObj x10) (JObj x16) = false.
Proof. reflexivity. Qed.

Example locality_other_file : matches (JObj x10) (JObj y10) = false.
Proof. reflexivity. Qed.

(** *** First match per Gemini issue *)

Lemma issues_match_total (g_file g_line c : json) :
  num_of g_line <> None -> comparable c ->
  exists b, issues_match g_file g_line c = Ok b.
Proof.
  intros Hg (oc & -> & Hc). unfold issues_match, same_problem; cbn [attr_get bind].
  destruct (py_eq g_file (get oc "file" (JStr ""))); [ | now eexists ].
  destruct (num_of g_line); [ | congruence ].
  destruct (num_of (get oc "line" (JInt 0))); [ | congruence ].
  now eexists.
Qed.

Lemma first_match_find (o : dict) (cs : list json) :
  num_of (get o "line" (JInt 0)) <> None -> Forall comparable cs ->
  first_match (JObj o) (get o "file" (JStr "")) (get o "line" (JInt 0))
              (get o "severity" (JStr "")) cs
  = Ok (option_map (entry_of o) (List.find (matches (JObj o)) cs)).
Proof.
  intros Hg Hcs. induction Hcs as [ | c cs Hc _ IH ]; [ reflexivity | ].
  cbn [first_match List.find]. unfold matches at 1.
  destruct (issues_match_total (get o "file" (JStr "")) _ c Hg Hc) as [b ->].
  cbn [bind]. destruct b; [ reflexivity | exact IH ].
Qed.

Lemma find_some_existsb {A : Type} (f : A -> bool) (l : list A) :
  List.existsb f l = match List.find f l with Some _ => true | None => false end.
Proof.
  induction l as [ | a l IH ]; [ reflexivity | ].
  cbn. destruct (f a); [ reflexivity | exact IH ].
Qed.

Lemma consensus_loop_filter (gs cs : list json) :
  Forall comparable gs -> Forall comparable cs ->
  exists l,
    consensus_loop gs cs = Ok l
    /\ List.map gemini_issue l
       = List.filter (fun g => List.existsb (matches g) cs) gs
    /\ Forall (fun e => List.find (matches (gemini_issue e)) cs
                        = Some (codex_issue e)) l.
Proof.
  intros Hgs Hcs. induction Hgs as [ | g gs (o & -> & Hg) _ (l & IHl & IHm & IHf) ].
  - exists []. repeat split. constructor.
  - cbn [consensus_loop attr_get bind List.filter].
    rewrite (first_match_find o cs Hg Hcs), IHl; cbn [bind].
    rewrite find_some_existsb.
    destruct (List.find (matches (JObj o)) cs) as [ c | ] eqn:Hfind; cbn [option_map].
    + exists (entry_of o c :: l). repeat split.
      * cbn. now rewrite IHm.
      * constructor; [ exact Hfind | exact IHf ].
    + exists l. now repeat split.
Qed.

Lemma plain_comparable (x : json) : plain_issue x -> comparable x.
Proof.
  intros (o & f & l & -> & _ & Hl). exists o. split; [ reflexivity | ].
  rewrite Hl. discriminate.
Qed.

Lemma matches_near (g c : json) :
  plain_issue g -> plain_issue c -> matches g c = near g c.
Proof.
  intros (og & gf & gl & -> & Hgf & Hgl) (oc & cf & cl & -> & Hcf & Hcl).
  unfold matches, near, file_of, line_of, issues_match. cbn [attr_get bind].
  rewrite Hgf, Hgl, Hcf, Hcl. now rewrite same_problem_located.
Qed.

Lemma existsb_ext_in {A : Type} (f g : A -> bool) (l : list A) :
  (forall a, In a l -> f a = g a) -> List.existsb f l = List.existsb g l.
Proof.
  induction l as [ | a l IH ]; intros H; [ reflexivity | ]. cbn [List.existsb].
  rewrite (H a (or_introl eq_refl)), IH; [ reflexivity | ].
  intros b Hb. apply H. now right.
Qed.

Lemma find_ext_in {A : Type} (f g : A -> bool) (l : list A) :
  (forall a, In a l -> f a = g a) -> List.find f l = List.find g l.
Proof.
  induction l as [ | a l IH ]; intros H; [ reflexivity | ]. cbn [List.find].
  rewrite (H a (or_introl eq_refl)), IH; [ reflexivity | ].
  intros b Hb. apply H. now right.
Qed.

(** A pair of issues in the same file, one of which has a line that is
    not a number, makes the test raise. *)
Lemma issues_match_type_error (og oc : dict) (f : string) :
  get og "file" (JStr "") = JStr f ->
  get oc "file" (JStr "") = JStr f ->
  num_of (get og "line" (JInt 0)) = None
  \/ num_of (get oc "line" (JInt 0)) = None ->
  issues_match (get og "file" (JStr "")) (get og "line" (JInt 0)) (JObj oc)
  = Raise TypeError.
Proof.
  intros Hg Hc Hbad. unfold issues_match, same_problem. cbn [attr_get bind].
  rewrite Hg, Hc. change (py_eq (JStr f) (JStr f)) with (String.eqb f f).
  rewrite String.eqb_refl.
  destruct Hbad as [ -> | Hbad ]; [ reflexivity | ].
  rewrite Hbad. now destruct (num_of (get og "line" (JInt 0))).
Qed.


Lemma comparable_located (o : dict) (f : string) (l : Z) :
  located o f l -> comparable (JObj o).
Proof.
  intros [_ Hl]. exists o; split; [ reflexivity | ].
  rewrite (get_lookup _ _ _ _ Hl). discriminate.
Qed.

Lemma plain_located (o : dict) (f : string) (l : Z) :
  located o f l -> plain_issue (JObj o).
Proof.
  intros [Hf Hl]. exists o, f, l. split; [ reflexivity | ].
  now rewrite (get_lookup _ _ _ _ Hf), (get_lookup _ _ _ _ Hl).
Qed.



End QuickFacts.

(** ** The aggregation step of the Gemini workflow *)

Module WorkflowFacts.
Import Workflow Spec.

Lemma py_eq_str (x : json) (s : string) : py_eq x (JStr s) = true -> x = JStr s.
Proof.
  destruct x; cbn; try discriminate.
  intros H; apply String.eqb_eq in H; now subst.
Qed.

Lemma review_code_file_status (path : string) (read : result string)
  (answer : result (option string)) :
  status (review_code_file path read answer) = "success"
  \/ status (review_code_file path read answer) = "error".
Proof. destruct read, answer; cbn; auto. Qed.

Lemma partition_by_status (rs : list review) :
  Forall (fun r => status r = "success" \/ status r = "error") rs ->
  List.length rs
  = (List.length (List.filter (is_status "success") rs)
     + List.length (List.filter (is_status "error") rs))%nat.
Proof.
  induction 1 as [ | r rs Hr _ IH ]; [ reflexivity | ].
  assert (Hs : (is_status "success" r = true /\ is_status "error" r = false)
               \/ (is_status "success" r = false /\ is_status "error" r = true))
    by (unfold is_status; destruct Hr as [-> | ->]; [ left | right ];
        split; reflexivity).
  cbn [List.filter].
  destruct Hs as [[-> ->] | [-> ->]]; cbn [List.length]; lia.
Qed.

Lemma count_severity_filter (sev : string) (issues : list json) :
  Forall is_dict issues ->
  count_severity sev issues
  = Ok (List.length (List.filter (has_severity sev) issues)).
Proof.
  induction 1 as [ | i issues [o ->] _ IH ]; [ reflexivity | ].
  cbn [count_severity attr_get bind List.filter]. rewrite IH; cbn [bind].
  change (has_severity sev (JObj o))
    with (py_eq (get o "severity" JNull) (JStr sev)).
  now destruct (py_eq (get o "severity" JNull) (JStr sev)).
Qed.

Lemma count_severity_dicts (sev : string) (issues : list json) (n : nat) :
  count_severity sev issues = Ok n -> Forall is_dict issues.
Proof.
  revert n; induction issues as [ | i issues IH ]; intros n H; [ constructor | ].
  cbn [count_severity] in H. destruct i; try discriminate.
  cbn [attr_get bind] in H.
  destruct (count_severity sev issues) as [ m | ] eqn:Hm; [ | discriminate ].
  constructor; [ now eexists | now apply (IH m) ].
Qed.

(** An issue is in at most one bucket. *)
Lemma one_bucket (i : json) :
  ((if has_severity "critical" i then 1 else 0)
   + (if has_severity "high" i then 1 else 0)
   + (if has_severity "medium" i then 1 else 0)
   + (if has_severity "low" i then 1 else 0)
   = if bucketed i then 1 else 0)%nat.
Proof.
  unfold bucketed, has_severity.
  destruct (py_eq (severity_of i) (JStr "critical")) eqn:H1;
    [ apply py_eq_str in H1; rewrite H1; reflexivity | ].
  destruct (py_eq (severity_of i) (JStr "high")) eqn:H2;
    [ apply py_eq_str in H2; rewrite H2; reflexivity | ].
  destruct (py_eq (severity_of i) (JStr "medium")) eqn:H3;
    [ apply py_eq_str in H3; rewrite H3; reflexivity | ].
  now destruct (py_eq (severity_of i) (JStr "low")).
Qed.

Lemma buckets_sum (issues : list json) :
  (List.length (List.filter (has_severity "critical") issues)
   + List.length (List.filter (has_severity "high") issues)
   + List.length (List.filter (has_severity "medium") issues)
   + List.length (List.filter (has_severity "low") issues)
   = List.length (List.filter bucketed issues))%nat.
Proof.
  induction issues as [ | i issues IH ]; [ reflexivity | ].
  cbn [List.filter]. pose proof (one_bucket i) as Hi.
  destruct (has_severity "critical" i), (has_severity "high" i),
    (has_severity "medium" i), (has_severity "low" i), (bucketed i);
    cbn [List.length] in *; lia.
Qed.

Lemma filter_length_lt {A : Type} (f : A -> bool) (l : list A) :
  Exists (fun a => f a = false) l ->
  (List.length (List.filter f l) < List.length l)%nat.
Proof.
  induction 1 as [ a l Ha | a l _ IH ]; cbn [List.filter List.length].
  - rewrite Ha. pose proof (List.filter_length_le f l). lia.
  - destruct (f a); cbn [List.length]; lia.
Qed.

Lemma mean_total (xs : list json) :
  Forall is_number xs -> exists q, mean xs = Ok q.
Proof.
  intros H. unfold mean, sum.
  assert (Hs : forall acc, exists q, sum_from acc xs = Ok q).
  { induction H as [ | x xs Hx _ IH ]; intros acc; [ now eexists | ].
    cbn [sum_from]. unfold is_number in Hx.
    destruct (num_of x); [ apply IH | congruence ]. }
  destruct (Hs 0%Q) as [q ->]. now eexists.
Qed.



(** The sample: two issues, only the lower-case ["high"] is counted. *)
Example upper_case_severity_not_counted :
  exists rep,
    _aggregate_reviews sample_reviews "d" = Ok rep
    /\ total_issues (report_summary rep) = 2%nat
    /\ high_issues (report_summary rep) = 1%nat
    /\ critical_issues (report_summary rep) = 0%nat.
Proof. eexists; split; [ vm_compute; reflexivity | repeat split ]. Qed.

(** Conversely a report is returned only on dict issues. *)
Lemma aggregate_needs_dicts (rs : list review) (d : string) (rep : report) :
  _aggregate_reviews rs d = Ok rep -> Forall is_dict (snd (collect rs)).
Proof.
  unfold _aggregate_reviews. destruct (collect rs) as [sc iss]; cbn [snd].
  destruct (match sc with [] => Ok 0%Q | _ => mean sc end); [ | discriminate ].
  cbn [bind].
  destruct (count_severity "critical" iss) as [ n | ] eqn:H; [ | discriminate ].
  intros _. now apply (count_severity_dicts "critical" iss n).
Qed.

End WorkflowFacts.

(** ** Scores and their average *)

Module ScoreFacts.
Import Spec.

Lemma sum_from_spec (xs : list json) (acc s : Q) :
  sum_from acc xs = Ok s ->
  exists qs, List.map num_of xs = List.map Some qs
             /\ (s == acc + List.fold_right Qplus 0 qs)%Q.
Proof.
  revert acc; induction xs as [ | x xs IH ]; intros acc H; cbn [sum_from] in H.
  - injection H as <-. exists []. split; [ reflexivity | cbn; ring ].
  - destruct (num_of x) as [ q | ] eqn:Hq; [ | discriminate ].
    destruct (IH _ H) as (qs & Hm & Hs). exists (q :: qs). split.
    + cbn [List.map]. now rewrite Hq, Hm.
    + rewrite Hs. cbn [List.fold_right]. ring.
Qed.

Lemma mean_spec (xs : list json) (q : Q) :
  mean xs = Ok q ->
  exists qs, List.map num_of xs = List.map Some qs /\ (q == mean_of qs)%Q.
Proof.
  unfold mean, sum. destruct (sum_from 0 xs) as [ s | ] eqn:Hs; [ | discriminate ].
  cbn [bind]. intros H; injection H as <-.
  destruct (sum_from_spec _ _ _ Hs) as (qs & Hm & Hq).
  exists qs. split; [ exact Hm | ]. unfold mean_of.
  assert (Hl : List.length xs = List.length qs)
    by (rewrite <- (List.length_map num_of), Hm; apply List.length_map).
  rewrite Hl, Hq. now rewrite Qplus_0_l.
Qed.

Lemma map_some_nil {A : Type} (qs : list A) :
  @nil (option A) = List.map Some qs -> qs = [].
Proof. destruct qs; [ reflexivity | discriminate ]. Qed.

End ScoreFacts.

(** ** The iterative improver *)

Module IterativeFacts.
Import Iterative Spec ScoreFacts.

Lemma data_get_score (r : review_result) (x : json) :
  data_get r "overall_score" (JInt 0) = Ok x -> score_of (data r) = num_of x.
Proof.
  unfold data_get, score_of. destruct (data r) as [ [ ] | ]; try discriminate.
  cbn [attr_get]. now intros [= <-].
Qed.

Lemma collect_scores_spec (g c : review_result) (scores : list (string * json)) :
  collect_scores g c = Ok scores ->
  List.map (fun r => score_of (data r)) (List.filter counts [g; c])
  = List.map num_of (List.map snd scores).
Proof.
  unfold collect_scores. cbn [List.filter].
  destruct (counts g), (counts c);
    repeat match goal with
      | |- context [data_get ?r ?k ?d] =>
          let x := fresh "x" in let H := fresh "H" in
          destruct (data_get r k d) as [ x | ] eqn:H;
          [ apply data_get_score in H | discriminate ]
      end;
    cbn [bind app]; intros [= <-]; cbn [List.map snd]; congruence.
Qed.

Lemma report_average (g c : review_result) (i : Z) (rep : consensus) :
  generate_consensus_report g c i = Ok rep ->
  exists sc, collect_scores g c = Ok sc
             /\ average (List.map snd sc) = Ok (average_score rep)
             /\ scores rep = sc.
Proof.
  unfold generate_consensus_report.
  destruct (collect_scores g c) as [ sc | ]; [ | discriminate ]. cbn [bind].
  destruct (average (List.map snd sc)) as [ avg | ] eqn:Havg; [ | discriminate ].
  cbn [bind].
  destruct (find_consensus g c); [ | discriminate ]. cbn [bind].
  intros [= <-]. exists sc. repeat split. exact Havg.
Qed.

Lemma report_mean (g c : review_result) (i : Z) (rep : consensus) :
  generate_consensus_report g c i = Ok rep ->
  exists qs,
    List.map (fun r => score_of (data r)) (List.filter counts [g; c])
    = List.map Some qs
    /\ (qs = [] -> average_score rep = 0%Q)
    /\ (qs <> [] -> (average_score rep == mean_of qs)%Q).
Proof.
  intros H. destruct (report_average _ _ _ _ H) as (sc & Hsc & Havg & _).
  rewrite (collect_scores_spec _ _ _ Hsc).
  destruct (List.map snd sc) as [ | x xs ] eqn:Hxs.
  - exists []. cbn in Havg. injection Havg as <-.
    split; [ reflexivity | split; [ reflexivity | congruence ] ].
  - cbn [average] in Havg. destruct (mean_spec _ _ Havg) as (qs & Hm & Hq).
    exists qs. split; [ exact Hm | split; [ | intros _; exact Hq ] ].
    intros ->. discriminate.
Qed.

(** *** One iteration and the loop *)

Lemma apply_improvements_spec (c : consensus) (i : Z) (st : improver) :
  review_history (snd (apply_improvements c i st)) = review_history st
  /\ forall j issue, In (FixAttempt j issue) (log (snd (apply_improvements c i st))) ->
       In (FixAttempt j issue) (log st) \/ j = i.
Proof.
  unfold apply_improvements. destruct (consensus_issues c) as [ | k ks ]; cbn [snd].
  - split; [ reflexivity | intros j issue H; now left ].
  - split; [ reflexivity | ]. cbn [append_log log].
    intros j issue H. apply in_app_or in H. destruct H as [H | H]; [ now left | right ].
    apply in_map_iff in H. destruct H as (x & Hx & _). now injection Hx.
Qed.

Lemma report_iteration (g c : review_result) (i : Z) (rep : consensus) :
  generate_consensus_report g c i = Ok rep -> iteration rep = i.
Proof.
  unfold generate_consensus_report.
  destruct (collect_scores g c); [ | discriminate ]. cbn [bind].
  destruct (average _); [ | discriminate ]. cbn [bind].
  destruct (find_consensus g c); [ | discriminate ]. cbn [bind].
  now intros [= <-].
Qed.

(** What one call of [run_iteration] does to the state. *)
Lemma run_iteration_spec (w : world) (target : Q) (m i : Z) (t : tools)
  (st st' : improver) (r : result consensus) :
  run_iteration w target m i t st = (r, st') ->
  match r with
  | Raise _ => st' = st
  | Ok c =>
      iteration c = i
      /\ review_history st' = (review_history st ++ [c])%list
      /\ (Qle_bool target (average_score c) = true -> log st' = log st)
      /\ (forall j issue, In (FixAttempt j issue) (log st') ->
          In (FixAttempt j issue) (log st) \/ j = i)
  end.
Proof.
  unfold run_iteration.
  destruct (generate_consensus_report _ _ i) as [ c | e ] eqn:Hrep.
  - pose proof (report_iteration _ _ _ _ Hrep) as Hi.
    destruct (Qle_bool target (average_score c)) eqn:Hle.
    + intros [= <- <-]. cbn [append_history review_history log].
      repeat split; auto.
    + destruct (i <? m).
      * intros [= <- <-].
        destruct (apply_improvements_spec c i (append_history c st)) as [Hh Hl].
        split; [ exact Hi | ]. split; [ now rewrite Hh | ].
        split; [ congruence | exact Hl ].
      * intros [= <- <-]. cbn [append_history review_history log].
        split; [ exact Hi | ]. split; [ reflexivity | ].
        split; [ congruence | auto ].
  - now intros [= <- <-].
Qed.

(** The loop does not change its verdict on an iteration: it converges on
    the consensus [run_iteration] returned, never after a repair. *)
Lemma loop_spec (w : world) (target : Q) (m : Z) (t : tools) (n : nat) :
  forall (i : Z) (st st' : improver) (s : stop),
  (forall c, In c (review_history st) -> ~ converged target c) ->
  (forall j issue, In (FixAttempt j issue) (log st) -> j < i) ->
  loop w target m t n i st = (s, st') ->
  match s with
  | TargetReached =>
      exists hist c,
        review_history st' = (hist ++ [c])%list
        /\ converged target c
        /\ (forall c', In c' hist -> ~ converged target c')
        /\ (forall j issue, In (FixAttempt j issue) (log st') -> j < iteration c)
  | _ => forall c, In c (review_history st') -> ~ converged target c
  end.
Proof.
  induction n as [ | n IH ]; intros i st st' s Hhist Hlog; cbn [loop].
  - now intros [= <- <-].
  - destruct (run_iteration w target m i t st) as [[ c | e ] st1] eqn:Hrun;
      pose proof (run_iteration_spec _ _ _ _ _ _ _ _ Hrun) as Hspec; cbn in Hspec.
    + destruct Hspec as (Hi & Hh & Hsame & Hfix).
      destruct (Qle_bool target (average_score c)) eqn:Hle.
      * intros [= <- <-]. exists (review_history st), c.
        repeat split; [ exact Hh | now apply Qle_bool_iff | exact Hhist | ].
        intros j issue Hin. rewrite (Hsame eq_refl) in Hin.
        rewrite Hi. now apply (Hlog j issue).
      * assert (Hnc : ~ converged target c).
        { unfold converged. rewrite <- Qle_bool_iff. congruence. }
        apply IH.
        -- intros c' Hin.
           assert (Hin' : In c' (review_history st1)).
           { now destruct (i <? m). }
           rewrite Hh in Hin'. apply in_app_or in Hin'.
           destruct Hin' as [Hin' | [<- | []]]; [ now apply Hhist | exact Hnc ].
        -- intros j issue Hin.
           assert (Hin' : In (FixAttempt j issue) (log st1)).
           { destruct (i <? m); [ | exact Hin ]. cbn [append_log log] in Hin.
             apply in_app_or in Hin. destruct Hin as [Hin | [Hin | []]];
               [ exact Hin | discriminate ]. }
           destruct (Hfix j issue Hin') as [H | ->]; [ | lia ].
           specialize (Hlog j issue H). lia.
    + subst st1. now intros [= <- <-].
Qed.

End IterativeFacts.

(** ** The loop of the quick workflow *)

Module QuickLoopFacts.
Import Quick Spec ScoreFacts.

Lemma quick_data_get_score (r : review_result) (x : json) :
  data_get r "overall_score" (JInt 0) = Ok x -> score_of (data r) = num_of x.
Proof.
  unfold data_get, score_of. destruct (data r) as [ [ ] | ]; try discriminate.
  cbn [attr_get]. now intros [= <-].
Qed.

Lemma quick_collect_scores_spec (g c : review_result) (scores : list json) :
  collect_scores g c = Ok scores ->
  List.map (fun r => score_of (data r)) (List.filter is_success [g; c])
  = List.map num_of scores.
Proof.
  unfold collect_scores. cbn [List.filter].
  destruct (is_success g), (is_success c);
    repeat match goal with
      | |- context [data_get ?r ?k ?d] =>
          let x := fresh "x" in let H := fresh "H" in
          destruct (data_get r k d) as [ x | ] eqn:H;
          [ apply quick_data_get_score in H | discriminate ]
      end;
    cbn [bind app]; intros [= <-]; cbn [List.map]; congruence.
Qed.

Lemma apply_fixes_events (i : Z) (l : list consensus_issue) (e : event) :
  In e (fst (apply_fixes i l)) -> is_fix e = true /\ event_index e = i.
Proof.
  induction l as [ | issue l IH ]; cbn [apply_fixes]; [ intros [] | ].
  destruct (file issue); cbn [fst In];
    try (intros [<- | []]; now split).
  destruct (apply_fixes i l) as [evs o]; cbn [fst In] in *.
  intros [<- | H]; [ now split | now apply IH ].
Qed.

Lemma fix_phase_events (m i : Z) (g c : review_result) (e : event) :
  In e (fst (fix_phase m i g c)) -> is_scored e = false /\ event_index e = i.
Proof.
  unfold fix_phase.
  assert (Hp : In e (if i <? m then [Slept i] else []) ->
               is_scored e = false /\ event_index e = i)
    by (destruct (i <? m); [ intros [<- | []]; now split | intros [] ]).
  destruct (is_success g && is_success c); [ | exact Hp ].
  destruct (bind _ _) as [ [ | issue l ] | ]; try (intros []).
  pose proof (apply_fixes_events i (issue :: l) e) as Hf.
  destruct (apply_fixes i (issue :: l)) as [fixes [ err | ]]; cbn [fst] in *.
  - intros H. destruct (Hf H) as [Hfix Hi]. split; [ | exact Hi ].
    now destruct e.
  - intros H. apply in_app_or in H. destruct H as [H | H]; [ | now apply Hp ].
    destruct (Hf H) as [Hfix Hi]. split; [ | exact Hi ]. now destruct e.
Qed.

Lemma fix_phase_flow (m i : Z) (g c : review_result) :
  snd (fix_phase m i g c) <> Break TargetReached.
Proof.
  unfold fix_phase. destruct (is_success g && is_success c); [ | discriminate ].
  destruct (bind _ _) as [ [ | issue l ] | ]; try discriminate.
  destruct (apply_fixes i (issue :: l)) as [fixes [ err | ]]; discriminate.
Qed.

(** One turn of the loop: it ends with [TargetReached] exactly when the
    average it computed is at least the target, the average is the mean of
    the scores of the successful reviews, and a turn that ends so makes no
    repair call. *)
Lemma iteration_body_spec (target : Q) (m i : Z) (g c : review_result)
  (evs : list event) (f : flow) :
  iteration_body target m i g c = (evs, f) ->
  (f = Break TargetReached <->
   exists avg, In (Scored i avg) evs /\ (target <= avg)%Q)
  /\ (f = Break TargetReached -> forall e, In e evs -> is_fix e = false)
  /\ (forall e, In e evs -> event_index e = i)
  /\ (forall j avg, In (Scored j avg) evs ->
      exists qs, qs <> []
        /\ List.map (fun r => score_of (data r)) (List.filter is_success [g; c])
           = List.map Some qs
        /\ (avg == mean_of qs)%Q).
Proof.
  unfold iteration_body.
  destruct (collect_scores g c) as [ [ | x xs ] | ] eqn:Hsc.
  - intros [= <- <-]. repeat split; try discriminate.
    + intros (avg & [H | []] & _); discriminate.
    + intros e [<- | []]; reflexivity.
    + intros j avg [H | []]; discriminate.
  - pose proof (quick_collect_scores_spec _ _ _ Hsc) as Hmap.
    destruct (mean (x :: xs)) as [ avg | ] eqn:Hmean.
    + destruct (mean_spec _ _ Hmean) as (qs & Hqs & Havg).
      assert (Hne : qs <> []) by (intros ->; discriminate).
      rewrite Hqs in Hmap.
      destruct (Qle_bool target avg) eqn:Hle.
      * intros [= <- <-]. apply Qle_bool_iff in Hle. repeat split.
        -- intros _. exists avg. split; [ right; left; reflexivity | exact Hle ].
        -- intros _ e [<- | [<- | []]]; reflexivity.
        -- intros e [<- | [<- | []]]; reflexivity.
        -- intros j a [H | [H | []]]; [ discriminate | ].
           injection H as _ <-. now exists qs.
      * pose proof (fix_phase_events m i g c) as Hfix.
        pose proof (fix_phase_flow m i g c) as Hflow.
        destruct (fix_phase m i g c) as [fixes f']; cbn [fst snd] in Hfix, Hflow.
        intros [= <- <-]. repeat split.
        -- intros ->. now exfalso.
        -- intros (a & Hin & Ha). exfalso.
           destruct Hin as [H | [H | H]]; [ discriminate | | ].
           ++ injection H as <-. apply Qle_bool_iff in Ha. congruence.
           ++ destruct (Hfix _ H) as [Hs _]. discriminate.
        -- intros ->. now exfalso.
        -- intros e [<- | [<- | H]]; [ reflexivity | reflexivity | ].
           now destruct (Hfix _ H).
        -- intros j a [H | [H | H]]; [ discriminate | | ].
           ++ injection H as _ <-. now exists qs.
           ++ destruct (Hfix _ H) as [Hs _]. discriminate.
    + intros [= <- <-]. repeat split; try discriminate.
      * intros (a & [H | []] & _); discriminate.
      * intros e' [<- | []]; reflexivity.
      * intros j a [H | []]; discriminate.
  - intros [= <- <-]. repeat split; try discriminate.
    + intros (a & [H | []] & _); discriminate.
    + intros e' [<- | []]; reflexivity.
    + intros j a [H | []]; discriminate.
Qed.

(** The whole loop, started at iteration [i] for [n] turns. *)
Lemma quick_loop_spec (w : world) (target : Q) (m : Z) (n : nat) :
  forall (i : Z) (evs : list event) (s : stop),
  loop w target m n i = (evs, s) ->
  (forall e, In e evs -> i <= event_index e)
  /\ (s = TargetReached <->
      exists j avg, In (Scored j avg) evs /\ (target <= avg)%Q)
  /\ (forall j avg, In (Scored j avg) evs -> (target <= avg)%Q ->
      forall e, In e evs ->
        event_index e <= j /\ (event_index e = j -> is_fix e = false)).
Proof.
  induction n as [ | n IH ]; intros i evs s; cbn [loop].
  - intros [= <- <-]. split; [ | split ].
    + intros e [].
    + split; [ discriminate | intros (j & avg & [] & _) ].
    + intros j avg [].
  - destruct (reviews w i) as [g c].
    destruct (iteration_body target m i g c) as [evs1 f] eqn:Hbody.
    destruct (iteration_body_spec _ _ _ _ _ _ _ Hbody) as (Hconv & Hnofix & Hidx & _).
    destruct f as [ s1 | ].
    + intros [= <- <-]. split; [ | split ].
      * intros e He. rewrite (Hidx e He). lia.
      * split.
        -- intros ->. destruct Hconv as [Hc _].
           destruct (Hc eq_refl) as (avg & Hin & Hle). now exists i, avg.
        -- intros (j & avg & Hin & Hle). destruct Hconv as [_ Hc].
           assert (Hc' : Break s1 = Break TargetReached).
           { apply Hc. exists avg. split; [ | exact Hle ].
             pose proof (Hidx _ Hin) as Hj. cbn in Hj. now subst j. }
           now injection Hc'.
      * intros j avg Hin Hle e He.
        pose proof (Hidx _ Hin) as Hj. cbn in Hj. subst j.
        split; [ rewrite (Hidx e He); lia | intros _ ].
        apply Hnofix; [ | exact He ].
        apply Hconv. exists avg. now split.
    + destruct (loop w target m n (i + 1)) as [evs2 s2] eqn:Hloop.
      destruct (IH _ _ _ Hloop) as (Hge & Hiff & Hfix).
      assert (Hnot : forall j avg, In (Scored j avg) evs1 -> ~ (target <= avg)%Q).
      { intros j avg Hin Hle. destruct Hconv as [_ Hc].
        assert (Hc' : Next = Break TargetReached); [ | discriminate ].
        apply Hc. exists avg. split; [ | exact Hle ].
        pose proof (Hidx _ Hin) as Hj. cbn in Hj. now subst j. }
      intros [= <- <-]. split; [ | split ].
      * intros e He. apply in_app_or in He. destruct He as [He | He].
        -- rewrite (Hidx e He). lia.
        -- specialize (Hge e He). lia.
      * rewrite Hiff. split; intros (j & avg & Hin & Hle); exists j, avg.
        -- split; [ apply in_or_app; now right | exact Hle ].
        -- apply in_app_or in Hin. destruct Hin as [Hin | Hin];
             [ now destruct (Hnot j avg Hin) | now split ].
      * intros j avg Hin Hle e He.
        apply in_app_or in Hin. destruct Hin as [Hin | Hin];
          [ now destruct (Hnot j avg Hin) | ].
        apply in_app_or in He. destruct He as [He | He].
        -- pose proof (Hidx e He) as H1. pose proof (Hge _ Hin) as H2.
           cbn in H2. split; lia.
        -- now apply (Hfix j avg Hin Hle e He).
Qed.

(** Every average the loop computes is the mean of the scores of that
    iteration's successful reviews, of which there is at least one. *)
Lemma loop_scores (w : world) (target : Q) (m : Z) (n : nat) :
  forall (i : Z) (evs : list event) (s : stop),
  loop w target m n i = (evs, s) ->
  forall j avg, In (Scored j avg) evs ->
  exists qs, qs <> []
    /\ List.map (fun r => score_of (data r))
                (List.filter is_success (quick_reviews w j))
       = List.map Some qs
    /\ (avg == mean_of qs)%Q.
Proof.
  induction n as [ | n IH ]; intros i evs s; cbn [loop].
  - intros [= <- <-] j avg [].
  - unfold quick_reviews in *.
    destruct (reviews w i) as [g c] eqn:Hrev.
    destruct (iteration_body target m i g c) as [evs1 f] eqn:Hbody.
    destruct (iteration_body_spec _ _ _ _ _ _ _ Hbody) as (_ & _ & Hidx & Hsc).
    assert (H1 : forall j avg, In (Scored j avg) evs1 ->
                 exists qs, qs <> []
                   /\ List.map (fun r => score_of (data r))
                        (List.filter is_success
                           [fst (reviews w j); snd (reviews w j)])
                      = List.map Some qs
                   /\ (avg == mean_of qs)%Q).
    { intros j avg Hin. pose proof (Hidx _ Hin) as Hj. cbn in Hj. subst j.
      rewrite Hrev. cbn [fst snd]. exact (Hsc _ _ Hin). }
    destruct f as [ s1 | ].
    + intros [= <- <-]. exact H1.
    + destruct (loop w target m n (i + 1)) as [evs2 s2] eqn:Hloop.
      intros [= <- <-] j avg Hin. apply in_app_or in Hin.
      destruct Hin as [Hin | Hin]; [ now apply H1 | exact (IH _ _ _ Hloop j avg Hin) ].
Qed.

End QuickLoopFacts.

(** ** The convergence controller *)

Module ControllerFacts.
Import Spec.

Lemma last_of_snoc {A : Type} (hist hist0 rest : list A) (c c0 : A) :
  (hist ++ c :: rest = hist0 ++ [c0])%list ->
  (rest = [] /\ hist = hist0 /\ c = c0) \/ In c hist0.
Proof.
  destruct (List.exists_last (l := c :: rest)) as (rest' & x & Hx); [ discriminate | ].
  intros H. rewrite Hx, List.app_assoc in H.
  apply List.app_inj_tail in H. destruct H as [H <-].
  destruct rest' as [ | y rest' ].
  - left. injection Hx as -> ->. rewrite List.app_nil_r in H. auto.
  - right. rewrite <- H. apply List.in_or_app. right.
    injection Hx as <- _. now left.
Qed.

Lemma iterative_run_spec (w : Iterative.world) (target : Q) (m : Z)
  (t : Iterative.tools) :
  let r := Iterative.run w target m t in
  (fst r = Iterative.TargetReached <->
   exists c, In c (Iterative.review_history (snd r)) /\ converged target c)
  /\ (forall hist c rest,
        Iterative.review_history (snd r) = (hist ++ c :: rest)%list ->
        converged target c ->
        rest = []
        /\ (forall c', In c' hist -> ~ converged target c')
        /\ forall issue,
             ~ In (Iterative.FixAttempt (Iterative.iteration c) issue)
                  (Iterative.log (snd r))).
Proof.
  unfold Iterative.run.
  destruct (negb (Iterative.gemini t) && negb (Iterative.codex t)).
  - cbn. split.
    + split; [ discriminate | intros (c & [] & _) ].
    + intros hist c rest H. now destruct hist.
  - destruct (Iterative.loop w target m t (Z.to_nat m) 1 Iterative.new_improver)
      as [s st] eqn:Hloop.
    assert (Hs := IterativeFacts.loop_spec w target m t _ _ _ _ s
                    (fun c (H : In c (Iterative.review_history Iterative.new_improver)) =>
                       match H return ~ converged target c with end)
                    (fun j issue
                       (H : In (Iterative.FixAttempt j issue)
                               (Iterative.log Iterative.new_improver)) =>
                       match H return j < 1 with end) Hloop).
    cbn [fst snd].
    assert (Hcases :
      (s = Iterative.TargetReached /\
       exists hist c,
         Iterative.review_history st = (hist ++ [c])%list
         /\ converged target c
         /\ (forall c', In c' hist -> ~ converged target c')
         /\ (forall j issue, In (Iterative.FixAttempt j issue) (Iterative.log st) ->
             j < Iterative.iteration c))
      \/ (s <> Iterative.TargetReached /\
          forall c, In c (Iterative.review_history st) -> ~ converged target c)).
    { destruct s; [ right | left | right | right ]; split;
        try discriminate; try exact Hs; reflexivity. }
    clear Hs Hloop.
    destruct Hcases as [(-> & hist0 & c0 & Hh & Hc & Hn & Hf) | (Hne & Hn)].
    + split.
      * split; [ intros _ | reflexivity ]. exists c0. split; [ | exact Hc ].
        rewrite Hh. apply List.in_or_app. right. now left.
      * intros hist c rest Heq Hconv. rewrite Hh in Heq.
        destruct (last_of_snoc _ _ _ _ _ (eq_sym Heq)) as [(-> & -> & ->) | Hin].
        -- split; [ reflexivity | split; [ exact Hn | ] ].
           intros issue Hin. specialize (Hf _ _ Hin). lia.
        -- now destruct (Hn c Hin).
    + split.
      * split; [ intros ->; now destruct Hne | ].
        intros (c & Hin & Hc). now destruct (Hn c Hin).
      * intros hist c rest Heq Hconv. exfalso. apply (Hn c); [ | exact Hconv ].
        rewrite Heq. apply List.in_or_app. right. now left.
Qed.

(** *** The loop follows the reviews of its iterations *)

Lemma iterations_cons (i : Z) (k : nat) :
  iterations i (S k) = i :: iterations (i + 1) k.
Proof.
  unfold iterations. cbn [List.seq List.map]. f_equal; [ lia | ].
  rewrite <- List.seq_shift, List.map_map.
  apply List.map_ext. intros j. lia.
Qed.

Lemma run_iteration_report (w : Iterative.world) (target : Q) (m i : Z)
  (t : Iterative.tools) (st : Iterative.improver) :
  fst (Iterative.run_iteration w target m i t st) = report_at w t i.
Proof.
  unfold Iterative.run_iteration, report_at, iterative_reviews. cbn [fst snd].
  destruct (Iterative.generate_consensus_report _ _ i) as [ c | e ]; [ | reflexivity ].
  destruct (Qle_bool target (Iterative.average_score c)); [ reflexivity | ].
  now destruct (i <? m).
Qed.

Lemma pause_history (i m : Z) (st : Iterative.improver) :
  Iterative.review_history
    (if i <? m then Iterative.append_log [Iterative.Slept i] st else st)
  = Iterative.review_history st.
Proof. now destruct (i <? m). Qed.

(** The history is the list of the reports computed from the reviews of
    the iterations run, in order. *)
Lemma iterative_loop_reports (w : Iterative.world) (target : Q) (m : Z)
  (t : Iterative.tools) (n : nat) :
  forall (i : Z) (st st' : Iterative.improver) (s : Iterative.stop),
  Iterative.loop w target m t n i st = (s, st') ->
  exists new,
    Iterative.review_history st' = (Iterative.review_history st ++ new)%list
    /\ List.map Ok new
       = List.map (report_at w t) (iterations i (List.length new)).
Proof.
  induction n as [ | n IH ]; intros i st st' s; cbn [Iterative.loop].
  - intros [= <- <-]. exists []. now rewrite List.app_nil_r.
  - pose proof (run_iteration_report w target m i t st) as Hrep.
    destruct (Iterative.run_iteration w target m i t st) as [[ c | e ] st1] eqn:Hrun;
      pose proof (IterativeFacts.run_iteration_spec _ _ _ _ _ _ _ _ Hrun) as Hspec;
      cbn [fst] in Hrep; cbn in Hspec.
    + destruct Hspec as (_ & Hh & _).
      destruct (Qle_bool target (Iterative.average_score c)).
      * intros [= <- <-]. exists [c]. split; [ exact Hh | ].
        cbn [List.length List.map]. rewrite iterations_cons. cbn [List.map].
        now rewrite Hrep.
      * intros Hloop. destruct (IH _ _ _ _ Hloop) as (new & Hnew & Hmap).
        rewrite pause_history, Hh, <- List.app_assoc in Hnew.
        exists (c :: new). split; [ exact Hnew | ].
        cbn [List.length List.map]. rewrite iterations_cons. cbn [List.map].
        now rewrite Hrep, Hmap.
    + subst st1. intros [= <- <-]. exists []. now rewrite List.app_nil_r.
Qed.

(** The loop stops as converged at the first iteration whose report meets
    the target, when every earlier iteration has a report below it. *)
Lemma iterative_loop_live (w : Iterative.world) (target : Q) (m : Z)
  (t : Iterative.tools) (d : nat) :
  forall (n : nat) (i : Z) (st : Iterative.improver) (c : Iterative.consensus),
  (d < n)%nat ->
  (forall j, i <= j < i + Z.of_nat d -> below target (report_at w t j)) ->
  report_at w t (i + Z.of_nat d) = Ok c -> converged target c ->
  exists st' hist,
    Iterative.loop w target m t n i st = (Iterative.TargetReached, st')
    /\ Iterative.review_history st' = (Iterative.review_history st ++ hist ++ [c])%list
    /\ List.length hist = d.
Proof.
  induction d as [ | d IH ]; intros n i st c Hn Hbelow Hrep Hconv;
    (destruct n as [ | n ]; [ lia | ]); cbn [Iterative.loop];
    pose proof (run_iteration_report w target m i t st) as Hfst;
    destruct (Iterative.run_iteration w target m i t st) as [r st1] eqn:Hrun;
    pose proof (IterativeFacts.run_iteration_spec _ _ _ _ _ _ _ _ Hrun) as Hspec;
    cbn [fst] in Hfst; subst r.
  - rewrite Z.add_0_r in Hrep. rewrite Hrep in *. cbn in Hspec.
    destruct Hspec as (_ & Hh & _).
    assert (Hle : Qle_bool target (Iterative.average_score c) = true)
      by now apply Qle_bool_iff.
    rewrite Hle. exists st1, []. now repeat split.
  - destruct (Hbelow i ltac:(lia)) as (c0 & Hc0 & Hnc). rewrite Hc0 in *.
    cbn in Hspec. destruct Hspec as (_ & Hh & _).
    assert (Hle : Qle_bool target (Iterative.average_score c0) = false).
    { destruct (Qle_bool target (Iterative.average_score c0)) eqn:E; [ | reflexivity ].
      apply Qle_bool_iff in E. now destruct Hnc. }
    rewrite Hle.
    destruct (IH n (i + 1)
                (if i <? m then Iterative.append_log [Iterative.Slept i] st1 else st1)
                c ltac:(lia)) as (st' & hist & Hloop & Hhist & Hlen).
    + intros j Hj. apply Hbelow. lia.
    + replace (i + 1 + Z.of_nat d) with (i + Z.of_nat (S d)) by lia. exact Hrep.
    + exact Hconv.
    + exists st', (c0 :: hist). split; [ exact Hloop | ].
      rewrite Hhist, pause_history, Hh, <- List.app_assoc.
      split; [ reflexivity | cbn [List.length]; now rewrite Hlen ].
Qed.

(** The average the quick loop logs for an iteration is the one computed
    from the reviews of that iteration. *)
Lemma body_average (qw : Quick.world) (target : Q) (m i : Z)
  (evs : list Quick.event) (f : Quick.flow) :
  Quick.iteration_body target m i (fst (Quick.reviews qw i))
                       (snd (Quick.reviews qw i)) = (evs, f) ->
  forall j avg, In (Quick.Scored j avg) evs ->
    j = i /\ average_at qw i = Ok (Some avg).
Proof.
  unfold Quick.iteration_body, average_at.
  destruct (Quick.collect_scores _ _) as [ [ | x xs ] | e ].
  - intros [= <- <-] j avg [H | []]. discriminate.
  - destruct (mean (x :: xs)) as [ a | e ].
    + destruct (Qle_bool target a).
      * intros [= <- <-] j avg [H | [[= <- <-] | []]]; [ discriminate | now split ].
      * pose proof (QuickLoopFacts.fix_phase_events m i (fst (Quick.reviews qw i))
                      (snd (Quick.reviews qw i))) as Hfix.
        destruct (Quick.fix_phase m i _ _) as [fixes f']. cbn [fst] in Hfix.
        intros [= <- <-] j avg [H | [[= <- <-] | H]];
          [ discriminate | now split | ].
        destruct (Hfix _ H) as (Hsc & _). discriminate.
    + intros [= <- <-] j avg [H | []]. discriminate.
  - intros [= <- <-] j avg [H | []]. discriminate.
Qed.

Lemma quick_loop_averages (qw : Quick.world) (target : Q) (m : Z) (n : nat) :
  forall (i : Z) (evs : list Quick.event) (s : Quick.stop),
  Quick.loop qw target m n i = (evs, s) ->
  forall j avg, In (Quick.Scored j avg) evs -> average_at qw j = Ok (Some avg).
Proof.
  induction n as [ | n IH ]; intros i evs s; cbn [Quick.loop].
  - intros [= <- <-] j avg [].
  - pose proof (body_average qw target m i) as Hbody.
    destruct (Quick.reviews qw i) as [g c]. cbn [fst snd] in Hbody.
    destruct (Quick.iteration_body target m i g c) as [evs1 f].
    specialize (Hbody _ _ eq_refl).
    assert (Hhere : forall j avg, In (Quick.Scored j avg) evs1 ->
              average_at qw j = Ok (Some avg)).
    { intros j avg H. destruct (Hbody _ _ H) as (-> & Havg). exact Havg. }
    destruct f as [ s1 | ].
    + intros [= <- <-]. exact Hhere.
    + destruct (Quick.loop qw target m n (i + 1)) as [evs2 s2] eqn:Hloop.
      intros [= <- <-] j avg Hin. apply in_app_or in Hin.
      destruct Hin as [Hin | Hin]; [ now apply Hhere | ].
      exact (IH _ _ _ Hloop _ _ Hin).
Qed.

(** The quick loop stops as converged at the first iteration whose
    average meets the target, when every earlier iteration has an average
    below it and a repair phase that raises nothing. *)
Lemma quick_loop_live (qw : Quick.world) (target : Q) (m : Z) (d : nat) :
  forall (n : nat) (i : Z) (avg : Q),
  (d < n)%nat ->
  (forall j, i <= j < i + Z.of_nat d -> quick_below target m qw j) ->
  average_at qw (i + Z.of_nat d) = Ok (Some avg) -> (target <= avg)%Q ->
  snd (Quick.loop qw target m n i) = Quick.TargetReached
  /\ In (Quick.Scored (i + Z.of_nat d) avg) (fst (Quick.loop qw target m n i)).
Proof.
  induction d as [ | d IH ]; intros n i avg Hn Hbelow Havg Hle;
    (destruct n as [ | n ]; [ lia | ]); cbn [Quick.loop].
  - rewrite Z.add_0_r in *. unfold average_at in Havg.
    destruct (Quick.reviews qw i) as [g c]. cbn [fst snd] in Havg.
    unfold Quick.iteration_body.
    destruct (Quick.collect_scores g c) as [ [ | x xs ] | e ]; try discriminate.
    destruct (mean (x :: xs)) as [ a | e ]; [ | discriminate ].
    cbn [bind] in Havg. injection Havg as ->.
    apply Qle_bool_iff in Hle. rewrite Hle. cbn [fst snd].
    split; [ reflexivity | right; now left ].
  - destruct (Hbelow i ltac:(lia)) as ((a & Ha & Hna) & Hpass).
    unfold average_at in Ha.
    destruct (IH n (i + 1) avg ltac:(lia)) as (Hstop & Hin).
    { intros j Hj. apply Hbelow. lia. }
    { replace (i + 1 + Z.of_nat d) with (i + Z.of_nat (S d)) by lia. exact Havg. }
    { exact Hle. }
    replace (i + 1 + Z.of_nat d) with (i + Z.of_nat (S d)) in Hin by lia.
    destruct (Quick.reviews qw i) as [g c]. cbn [fst snd] in Ha, Hpass.
    unfold Quick.iteration_body.
    destruct (Quick.collect_scores g c) as [ [ | x xs ] | e ]; try discriminate.
    destruct (mean (x :: xs)) as [ a0 | e ]; [ | discriminate ].
    cbn [bind] in Ha. injection Ha as ->.
    assert (Hf : Qle_bool target a = false).
    { destruct (Qle_bool target a) eqn:E; [ | reflexivity ].
      apply Qle_bool_iff in E. now destruct Hna. }
    rewrite Hf. destruct (Quick.fix_phase m i g c) as [fixes f]. cbn [snd] in Hpass.
    subst f. destruct (Quick.loop qw target m n (i + 1)) as [evs2 s2].
    cbn [fst snd] in *. split; [ exact Hstop | ].
    right. right. apply in_or_app. now right.
Qed.

(** C1.  In both scripts the loop follows the reviews of its iterations
    and stops as converged exactly when an iteration's average score is
    at least the target score (equality included, the test being [>=]).
    The history of the iterative improver holds the reports computed from
    the reviews of iterations 1, 2, ... in order, and the quick loop logs
    the average computed from the reviews of each iteration.  The loop
    stops as converged at the first iteration whose average meets the
    target, every earlier one having missed it; that iteration is the last
    one and no repair call is made for it. *)
Theorem C1_converged_iff_target_met (w : Iterative.world) (qw : Quick.world)
  (target : Q) (m : Z) (t : Iterative.tools) :
  (fst (Iterative.run w target m t) = Iterative.TargetReached <->
   exists c, In c (Iterative.review_history (snd (Iterative.run w target m t)))
             /\ converged target c)
  /\ (forall hist c rest,
        Iterative.review_history (snd (Iterative.run w target m t))
        = (hist ++ c :: rest)%list ->
        converged target c ->
        rest = []
        /\ (forall c', In c' hist -> ~ converged target c')
        /\ forall issue,
             ~ In (Iterative.FixAttempt (Iterative.iteration c) issue)
                  (Iterative.log (snd (Iterative.run w target m t))))
  /\ List.map Ok (Iterative.review_history (snd (Iterative.run w target m t)))
     = List.map (report_at w t)
         (iterations 1
            (List.length
               (Iterative.review_history (snd (Iterative.run w target m t)))))
  /\ (forall k c,
        Iterative.gemini t = true \/ Iterative.codex t = true ->
        1 <= k <= m ->
        (forall j, 1 <= j < k -> below target (report_at w t j)) ->
        report_at w t k = Ok c -> converged target c ->
        fst (Iterative.run w target m t) = Iterative.TargetReached
        /\ exists hist,
             Iterative.review_history (snd (Iterative.run w target m t))
             = (hist ++ [c])%list
             /\ Z.of_nat (List.length hist) = k - 1)
  /\ (snd (Quick.main qw target m) = Quick.TargetReached <->
      exists j avg, In (Quick.Scored j avg) (fst (Quick.main qw target m))
                    /\ (target <= avg)%Q)
  /\ (forall j avg, In (Quick.Scored j avg) (fst (Quick.main qw target m)) ->
      (target <= avg)%Q ->
      forall e, In e (fst (Quick.main qw target m)) ->
        event_index e <= j /\ (event_index e = j -> is_fix e = false))
  /\ (forall j avg, In (Quick.Scored j avg) (fst (Quick.main qw target m)) ->
      average_at qw j = Ok (Some avg))
  /\ (forall k avg,
        1 <= k <= m ->
        (forall j, 1 <= j < k -> quick_below target m qw j) ->
        average_at qw k = Ok (Some avg) -> (target <= avg)%Q ->
        snd (Quick.main qw target m) = Quick.TargetReached
        /\ In (Quick.Scored k avg) (fst (Quick.main qw target m))).
Proof.
  destruct (iterative_run_spec w target m t) as [H1 H2].
  split; [ exact H1 | split; [ exact H2 | ] ].
  split; [ | split ].
  - unfold Iterative.run.
    destruct (negb (Iterative.gemini t) && negb (Iterative.codex t)); [ reflexivity | ].
    destruct (Iterative.loop w target m t (Z.to_nat m) 1 Iterative.new_improver)
      as [s st] eqn:Hloop.
    destruct (iterative_loop_reports _ _ _ _ _ _ _ _ _ Hloop) as (new & Hnew & Hmap).
    cbn [snd]. cbn [Iterative.new_improver Iterative.review_history List.app] in Hnew.
    now rewrite Hnew.
  - intros k c Htools Hk Hbelow Hrep Hconv. unfold Iterative.run.
    assert (Hno : negb (Iterative.gemini t) && negb (Iterative.codex t) = false).
    { destruct Htools as [ -> | -> ]; [ reflexivity | ].
      now destruct (Iterative.gemini t). }
    rewrite Hno.
    destruct (iterative_loop_live w target m t (Z.to_nat (k - 1)) (Z.to_nat m) 1
                Iterative.new_improver c) as (st' & hist & Hloop & Hhist & Hlen).
    + lia.
    + intros j Hj. apply Hbelow. lia.
    + replace (1 + Z.of_nat (Z.to_nat (k - 1))) with k by lia. exact Hrep.
    + exact Hconv.
    + rewrite Hloop. cbn [fst snd]. split; [ reflexivity | ].
      exists hist. split; [ exact Hhist | lia ].
  - unfold Quick.main.
    destruct (Quick.loop qw target m (Z.to_nat m) 1) as [evs s] eqn:Hloop.
    destruct (QuickLoopFacts.quick_loop_spec _ _ _ _ _ _ _ Hloop) as (_ & H3 & H4).
    cbn [fst snd].
    split; [ exact H3 | split; [ exact H4 | split ] ].
    + exact (quick_loop_averages _ _ _ _ _ _ _ Hloop).
    + intros k avg Hk Hbelow Havg Hle.
      destruct (quick_loop_live qw target m (Z.to_nat (k - 1)) (Z.to_nat m) 1 avg)
        as (Hstop & Hin).
      * lia.
      * intros j Hj. apply Hbelow. lia.
      * replace (1 + Z.of_nat (Z.to_nat (k - 1))) with k by lia. exact Havg.
      * exact Hle.
      * rewrite Hloop in Hstop, Hin. cbn [fst snd] in Hstop, Hin.
        replace (1 + Z.of_nat (Z.to_nat (k - 1))) with k in Hin by lia.
        now split.
Qed.

(** The example of the specification: target 8.0 and an average of 8.0 in
    iteration 1 end the session there, converged and without a repair. *)
Example converges_at_equal_score :
  Iterative.run (gemini_only score_8) 8 5 gemini_only_tools
  = (Iterative.TargetReached,
     {| Iterative.review_history :=
          [ {| Iterative.iteration := 1;
               Iterative.gemini_status := "success";
               Iterative.codex_status := "skipped";
               Iterative.scores := [("gemini", JFloat 8)];
               Iterative.consensus_issues := [];
               Iterative.average_score := (0 + 8) / 1 |} ];
        Iterative.log := [] |})
  /\ snd (Quick.main (quick_gemini_only score_8) 8 3) = Quick.TargetReached.
Proof. split; vm_compute; reflexivity. Qed.


(** The session of the specification: target 8.0, and reviews that give
    the average 8.0 in iteration 1.  Both loops stop there as converged,
    with one report and no repair. *)
Lemma C1_converged_iff_target_met_witness :
  (fst (Iterative.run (gemini_only score_8) 8 5 gemini_only_tools)
   = Iterative.TargetReached
   /\ exists c,
        Iterative.review_history
          (snd (Iterative.run (gemini_only score_8) 8 5 gemini_only_tools)) = [c]
        /\ report_at (gemini_only score_8) gemini_only_tools 1 = Ok c
        /\ forall issue,
             ~ In (Iterative.FixAttempt 1 issue)
                  (Iterative.log
                     (snd (Iterative.run (gemini_only score_8) 8 5
                                         gemini_only_tools))))
  /\ snd (Quick.main (quick_gemini_only score_8) 8 5) = Quick.TargetReached
  /\ forall e, In e (fst (Quick.main (quick_gemini_only score_8) 8 5)) ->
       event_index e <= 1 /\ (event_index e = 1 -> is_fix e = false).
Proof.
  destruct (C1_converged_iff_target_met (gemini_only score_8)
              (quick_gemini_only score_8) 8 5 gemini_only_tools)
    as (_ & Hlast & _ & Hlive & _ & Hnofix & _ & Hqlive).
  destruct (report_at (gemini_only score_8) gemini_only_tools 1) as [ c | e ] eqn:Hrep;
    [ | vm_compute in Hrep; discriminate ].
  assert (Hconv : converged 8 c).
  { vm_compute in Hrep. injection Hrep as <-. unfold converged.
    cbn [Iterative.average_score]. apply Qle_bool_iff. vm_compute. reflexivity. }
  destruct (Hlive 1 c) as (Hstop & hist & Hhist & Hlen);
    [ now left | lia | intros j Hj; lia | exact Hrep | exact Hconv | ].
  destruct hist as [ | c0 hist ]; [ | cbn [List.length] in Hlen; lia ].
  cbn [List.app] in Hhist.
  split.
  - split; [ exact Hstop | ]. exists c. split; [ exact Hhist | ].
    split; [ reflexivity | ].
    destruct (Hlast [] c [] Hhist Hconv) as (_ & _ & Hnone).
    assert (Hi : Iterative.iteration c = 1)
      by (vm_compute in Hrep; injection Hrep as <-; reflexivity).
    rewrite Hi in Hnone. exact Hnone.
  - destruct (Hqlive 1 8%Q) as (Hqstop & Hqin).
    + lia.
    + intros j Hj. lia.
    + vm_compute. reflexivity.
    + apply Qle_refl.
    + split; [ exact Hqstop | ].
      intros e He. exact (Hnofix 1 8%Q Hqin (Qle_refl 8) e He).
Defined.


(** The example of the specification: a success at 9 and a failure give
    9, not 4.5. *)
Example nine_not_four_and_a_half :
  Iterative.generate_consensus_report
    (scored "gemini" 9) (Iterative.failed "codex" Iterative.Timeout) 1
  = Ok nine_and_failed
  /\ (Iterative.average_score nine_and_failed == 9)%Q
  /\ ~ (Iterative.average_score nine_and_failed == 45 # 10)%Q.
Proof. split; [ reflexivity | split; [ reflexivity | discriminate ] ]. Qed.

(** A partial (text-parsed) review counts like a successful one. *)
Example partial_counts :
  exists rep,
    Iterative.generate_consensus_report
      (scored "gemini" 9) (scored_partial "codex" 6) 1 = Ok rep
    /\ (Iterative.average_score rep == 15 # 2)%Q.
Proof. eexists; split; reflexivity. Qed.

End ControllerFacts.

(** ** The review adapters *)

Module AdapterFacts.
Import Spec.

(** C9 (as amended).  A Codex run whose combined output has the
    subscription marker never yields a review that counts, whatever the
    exit status: the iterative improver returns status ["failed"] with the
    error "Requires Plus", the quick workflow returns status ["skipped"];
    in both the review has no data and its score is left out. *)
Theorem C9_entitlement_denied (p : completed) :
  contains "upgrade to Plus" (stdout p ++ stderr p) = true ->
  Iterative.run_codex_review (Ok p)
  = Iterative.failed "codex" Iterative.RequiresPlus
  /\ Iterative.status (Iterative.run_codex_review (Ok p)) = "failed"
  /\ Iterative.counts (Iterative.run_codex_review (Ok p)) = false
  /\ Quick.run_codex_review (Ok p) = Quick.skipped
  /\ Quick.status (Quick.run_codex_review (Ok p)) = "skipped"
  /\ Quick.is_success (Quick.run_codex_review (Ok p)) = false.
Proof.
  intros H. unfold Iterative.run_codex_review, Quick.run_codex_review.
  unfold Iterative.plus_marker, Quick.plus_marker. rewrite H.
  repeat split.
Qed.

Lemma C9_entitlement_denied_witness :
  contains "upgrade to Plus" (stdout plus_required ++ stderr plus_required) = true
  /\ Iterative.run_codex_review (Ok plus_required)
     = Iterative.failed "codex" Iterative.RequiresPlus
  /\ Iterative.status (Iterative.run_codex_review (Ok plus_required)) = "failed"
  /\ Iterative.counts (Iterative.run_codex_review (Ok plus_required)) = false
  /\ Quick.run_codex_review (Ok plus_required) = Quick.skipped
  /\ Quick.status (Quick.run_codex_review (Ok plus_required)) = "skipped"
  /\ Quick.is_success (Quick.run_codex_review (Ok plus_required)) = false.
Proof.
  split; [ reflexivity | ].
  apply (C9_entitlement_denied plus_required). reflexivity.
Defined.

(** C9 as stated fails in the quick workflow: the run is classified as
    skipped, not as failed. *)
Lemma C9_quick_classifies_as_skipped :
  returncode plus_required = 0
  /\ contains "upgrade to Plus" (stdout plus_required ++ stderr plus_required) = true
  /\ Quick.status (Quick.run_codex_review (Ok plus_required)) = "skipped"
  /\ Quick.status (Quick.run_codex_review (Ok plus_required)) <> "failed".
Proof. repeat split; discriminate. Qed.

(** *** Where the candidate text is cut *)

Lemma space_no_backtick (ws : string) :
  all_space ws = true -> has_char "`" ws = false.
Proof.
  induction ws as [ | c ws IH ]; cbn [all_space has_char]; [ reflexivity | ].
  intros H. apply andb_true_iff in H. destruct H as [Hc Hws].
  rewrite (IH Hws), orb_false_r.
  destruct (Ascii.eqb "`" c) eqn:E; [ | reflexivity ].
  apply Ascii.eqb_eq in E. subst c. discriminate.
Qed.

(** The interior of the first fenced block. *)
Lemma fenced_json_object (pre body post ws1 ws2 : string) :
  has_char "`" pre = false -> has_char "`" body = false ->
  all_space ws1 = true -> all_space ws2 = true ->
  let output := pre ++ fenced ws1 (object_text body) ws2 ++ post in
  contains "```json" output = true
  /\ Iterative.fenced_json output = object_text body.
Proof.
  intros Hpre Hbody H1 H2 output.
  set (inner := ws1 ++ object_text body ++ ws2).
  set (whole := (pre ++ "```json") ++ inner ++ ("```" ++ post)).
  assert (Hout : output = whole).
  { subst output inner whole. unfold fenced.
    now rewrite !StringFacts.app_assoc. }
  clearbody output. subst output.
  assert (Hinner : has_char "`" inner = false).
  { subst inner. unfold object_text.
    rewrite !StringFacts.has_char_app, Hbody.
    now rewrite (space_no_backtick ws1 H1), (space_no_backtick ws2 H2). }
  assert (Hfind : find "```json" whole = Z.of_nat (String.length pre)).
  { subst whole. rewrite StringFacts.app_assoc. unfold find.
    rewrite (StringFacts.find_from_skip "`" "``json" pre _ Hpre).
    rewrite StringFacts.find_from_here; [ lia | ].
    apply (StringFacts.startswith_app "```json"). }
  split.
  - unfold contains. rewrite Hfind. apply Z.leb_le. lia.
  - unfold Iterative.fenced_json, Iterative.fence, Iterative.fence_end.
    rewrite Hfind. unfold find_at.
    set (start := Z.of_nat (String.length pre) + 7).
    assert (Hstart : start = Z.of_nat (String.length (pre ++ "```json"))).
    { subst start. rewrite StringFacts.length_app. cbn [String.length]. lia. }
    assert (Hlen : (Z.of_nat (String.length whole) <? start) = false).
    { apply Z.ltb_ge. subst whole. rewrite Hstart, !StringFacts.length_app. lia. }
    rewrite Hlen, Hstart, Nat2Z.id.
    assert (Hdrop : drop (String.length (pre ++ "```json")) whole
                    = inner ++ "```" ++ post)
      by apply StringFacts.drop_app.
    rewrite Hdrop.
    rewrite (StringFacts.find_from_skip "`" "``" inner _ Hinner).
    rewrite StringFacts.find_from_here
      by apply (StringFacts.startswith_app "```").
    subst whole. rewrite StringFacts.slice_middle.
    subst inner. now apply StringFacts.strip_object.
Qed.

Lemma object_text_parts (pre body post : string) :
  pre ++ object_text body ++ post = pre ++ String "{" (body ++ String "}" post).
Proof.
  unfold object_text. cbn [append]. now rewrite StringFacts.app_assoc.
Qed.

Lemma object_text_close (pre body post : string) :
  pre ++ object_text body ++ post = (pre ++ String "{" body) ++ String "}" post.
Proof.
  rewrite object_text_parts, StringFacts.app_assoc. reflexivity.
Qed.

Lemma object_text_length (body : string) :
  Z.of_nat (String.length (object_text body)) = Z.of_nat (String.length body) + 2.
Proof.
  unfold object_text. cbn [append String.length].
  rewrite StringFacts.length_app. cbn [String.length]. lia.
Qed.

Lemma last_closing_brace (pre body post : string) :
  has_char "}" post = false ->
  rfind "}" (pre ++ object_text body ++ post)
  = Z.of_nat (String.length pre) + Z.of_nat (String.length body) + 1.
Proof.
  intros Hpost. rewrite object_text_close. unfold rfind.
  rewrite (StringFacts.rfind_from_last "}" _ post Hpost) by lia.
  rewrite StringFacts.length_app. cbn [String.length]. lia.
Qed.

Lemma object_slice (pre body post : string) (i j : Z) :
  i = Z.of_nat (String.length pre) ->
  j = Z.of_nat (String.length pre) + Z.of_nat (String.length body) + 1 ->
  slice (pre ++ object_text body ++ post) i (j + 1) = object_text body.
Proof.
  intros -> ->.
  replace (Z.of_nat (String.length pre) + Z.of_nat (String.length body) + 1 + 1)
    with (Z.of_nat (String.length pre)
          + Z.of_nat (String.length (object_text body)))
    by (rewrite object_text_length; lia).
  apply StringFacts.slice_middle.
Qed.

Lemma has_opening_brace (pre body post : string) :
  contains "{" (pre ++ object_text body ++ post) = true.
Proof.
  rewrite object_text_parts.
  apply (StringFacts.contains_app "{" pre (body ++ String "}" post)).
Qed.

(** The span from the first opening brace to the last closing brace. *)
Lemma first_brace_span (pre body post : string) :
  has_char "{" pre = false -> has_char "}" post = false ->
  let output := pre ++ object_text body ++ post in
  slice output (find "{" output) (rfind "}" output + 1) = object_text body.
Proof.
  intros Hpre Hpost output. subst output.
  apply object_slice; [ | now apply last_closing_brace ].
  rewrite object_text_parts. unfold find.
  rewrite (StringFacts.find_from_skip "{" "" pre _ Hpre).
  rewrite StringFacts.find_from_here; [ lia | reflexivity ].
Qed.

(** The span from the last opening brace to the last closing brace. *)
Lemma last_brace_span (pre body post : string) :
  has_char "{" body = false -> has_char "{" post = false ->
  has_char "}" post = false ->
  let output := pre ++ object_text body ++ post in
  slice output (rfind "{" output) (rfind "}" output + 1) = object_text body.
Proof.
  intros Hbody Hpost1 Hpost2 output. subst output.
  apply object_slice; [ | now apply last_closing_brace ].
  rewrite object_text_parts. unfold rfind.
  rewrite (StringFacts.rfind_from_last "{" pre); [ lia | | lia ].
  rewrite StringFacts.has_char_app, Hbody. cbn [has_char orb].
  exact Hpost1.
Qed.

Lemma decode_success (t json_str output : string) (o : dict) :
  loads json_str = Ok (JObj o) ->
  Iterative.decode t json_str output = Iterative.success t (JObj o) output.
Proof. unfold Iterative.decode. now intros ->. Qed.




(** The search of the Codex adapter starts at the last opening brace,
    although its comment announces the last complete object: on a bare
    payload that has an issue object the span starts at the issue, not at
    the payload, does not decode, and the review falls back to text
    mining (score 5, no issue, where the payload has 7.2 and one issue);
    the Gemini adapter recovers the same output. *)
Example codex_nested_object_not_recovered :
  let output := object_text nested_body in
  Iterative.codex_json_str output
  = dq "{'file': 'a.py', 'line': 3, 'issue': 'unused import', 'severity': 'LOW'}]}"
  /\ Iterative.run_codex_review (printed 0 output "")
     = Iterative.partial "codex" (parsed 5 []) output
  /\ Iterative.run_gemini_review (printed 0 output "")
     = Iterative.success "gemini" (JObj nested_data) output.
Proof. cbv zeta. split; [ | split ]; vm_compute; reflexivity. Qed.

End AdapterFacts.

(** ** The text fallback of the iterative improver *)

Module TextFacts.
Import Iterative Spec.

(** *** Numbers read from digits *)

Lemma span_digits_digits (s : string) : all_digits (fst (span_digits s)) = true.
Proof.
  induction s as [ | c s IH ]; [ reflexivity | ].
  cbn [span_digits]. destruct (isdigit c) eqn:Hc; [ | reflexivity ].
  destruct (span_digits s) as [d r]. cbn [fst all_digits] in *.
  now rewrite Hc, IH.
Qed.

Lemma span_fraction_digits (s : string) : all_digits (fst (span_fraction s)) = true.
Proof.
  unfold span_fraction. destruct s as [ | c r ]; [ reflexivity | ].
  destruct (Ascii.eqb c ".") eqn:Hc.
  - apply Ascii.eqb_eq in Hc. subst c.
    pose proof (span_digits_digits r) as H.
    destruct (span_digits r) as [[ | d ds ] r']; [ reflexivity | exact H ].
  - destruct c as [[] [] [] [] [] [] [] []]; try reflexivity; discriminate.
Qed.

Lemma digits_value_nonneg (s : string) :
  forall acc, 0 <= acc -> all_digits s = true -> 0 <= digits_value acc s.
Proof.
  induction s as [ | c s IH ]; intros acc Hacc H; cbn [digits_value]; [ exact Hacc | ].
  cbn [all_digits] in H. apply andb_true_iff in H. destruct H as [Hc Hs].
  apply IH; [ | exact Hs ]. unfold isdigit in Hc.
  apply andb_true_iff in Hc. destruct Hc as [H1 _]. apply Z.leb_le in H1. lia.
Qed.

Lemma scale10_nonneg (m e : Z) : 0 <= m -> (0 <= scale10 m e)%Q.
Proof.
  intros Hm. unfold scale10. destruct (0 <=? e) eqn:He.
  - apply Z.leb_le in He. unfold Qle, inject_Z; cbn.
    pose proof (Z.pow_nonneg 10 e). nia.
  - rewrite Qred_correct. unfold Qle; cbn. lia.
Qed.

Lemma float_nonneg (s : string) : (0 <= float_of_decimal s)%Q.
Proof.
  unfold float_of_decimal.
  pose proof (span_digits_digits s) as Hd.
  destruct (span_digits s) as [ds r]. cbn [fst] in Hd.
  pose proof (span_fraction_digits r) as Hf.
  destruct (span_fraction r) as [fs r']. cbn [fst] in Hf.
  unfold decimal_value. apply scale10_nonneg.
  apply digits_value_nonneg; [ | exact Hf ].
  apply digits_value_nonneg; [ lia | exact Hd ].
Qed.

(** *** Sums and means *)

Lemma fold_left_sum (l : list Q) (a : Q) :
  (List.fold_left Qplus l a == a + sum_of l)%Q.
Proof.
  revert a; induction l as [ | q l IH ]; intros a; cbn [List.fold_left sum_of List.fold_right].
  - ring.
  - rewrite IH. unfold sum_of. ring.
Qed.

Lemma sum_of_nonneg (l : list Q) :
  Forall (fun q => 0 <= q)%Q l -> (0 <= sum_of l)%Q.
Proof.
  induction 1 as [ | q l Hq _ IH ]; cbn [sum_of List.fold_right]; [ apply Qle_refl | ].
  apply (Qplus_le_compat 0 q 0 _ Hq IH).
Qed.

Lemma inject_length_succ {A : Type} (a : A) (l : list A) :
  (inject_Z (Z.of_nat (List.length (a :: l)))
   == 1 + inject_Z (Z.of_nat (List.length l)))%Q.
Proof.
  cbn [List.length]. rewrite Nat2Z.inj_succ, <- Z.add_1_l, inject_Z_plus.
  reflexivity.
Qed.

Lemma sum_of_bounded (b : Q) (l : list Q) :
  Forall (fun q => q <= b)%Q l ->
  (sum_of l <= b * inject_Z (Z.of_nat (List.length l)))%Q.
Proof.
  induction 1 as [ | q l Hq _ IH ].
  - cbn. rewrite Qmult_0_r. apply Qle_refl.
  - rewrite inject_length_succ. cbn [sum_of List.fold_right].
    rewrite Qmult_plus_distr_r, Qmult_1_r.
    now apply Qplus_le_compat.
Qed.

Lemma length_pos {A : Type} (a : A) (l : list A) :
  (0 < inject_Z (Z.of_nat (List.length (a :: l))))%Q.
Proof.
  change 0%Q with (inject_Z 0). rewrite <- Zlt_Qlt. cbn [List.length]. lia.
Qed.

(** The average of the matched scores, by cases. *)
Lemma avg_score_cons (s : string) (l : list string) :
  (avg_score (s :: l) == mean_of (List.map float_of_decimal (s :: l)))%Q.
Proof.
  unfold avg_score, mean_of. rewrite fold_left_sum, Qplus_0_l.
  rewrite List.length_map. reflexivity.
Qed.

Lemma avg_score_nonneg (l : list string) : (0 <= avg_score l)%Q.
Proof.
  destruct l as [ | s l ]; [ discriminate | ].
  rewrite avg_score_cons. unfold mean_of.
  apply Qle_shift_div_l.
  - rewrite List.length_map. apply length_pos.
  - rewrite Qmult_0_l. apply sum_of_nonneg.
    apply Forall_forall. intros q Hq. apply in_map_iff in Hq.
    destruct Hq as (x & <- & _). apply float_nonneg.
Qed.

Lemma avg_score_bounded (b : Q) (l : list string) :
  (5 <= b)%Q ->
  Forall (fun s => float_of_decimal s <= b)%Q l -> (avg_score l <= b)%Q.
Proof.
  intros Hb H. destruct l as [ | s l ]; [ exact Hb | ].
  rewrite avg_score_cons. unfold mean_of.
  apply Qle_shift_div_r.
  - rewrite List.length_map. apply length_pos.
  - apply sum_of_bounded. apply Forall_forall. intros q Hq.
    apply in_map_iff in Hq. destruct Hq as (x & <- & Hx).
    rewrite Forall_forall in H. now apply H.
Qed.

(** *** The searches *)

(** Every match [findall] reports is a match of the pattern at some
    position of the text. *)
Lemma findall_sound {A : Type} (m : string -> option (A * nat)) (a : A)
  (s : string) :
  forall skip, In a (findall m s skip) ->
  exists pre post n, s = pre ++ post /\ m post = Some (a, n).
Proof.
  induction s as [ | c s IH ]; intros skip H; cbn [findall] in H; [ destruct H | ].
  assert (Hrest : forall k, In a (findall m s k) ->
            exists pre post n, String c s = pre ++ post /\ m post = Some (a, n)).
  { intros k Hk. destruct (IH k Hk) as (pre & post & n & -> & Hm).
    now exists (String c pre), post, n. }
  destruct skip as [ | k ]; [ | now apply (Hrest k) ].
  destruct (m (String c s)) as [[a0 n] | ] eqn:Hm; [ | now apply (Hrest O) ].
  destruct H as [<- | H]; [ | now apply (Hrest (Nat.pred n)) ].
  now exists "", (String c s), n.
Qed.

Lemma skip_seps_shorter (r : string) :
  (String.length (skip_seps r) <? String.length r)%nat = true ->
  exists c r', r = String c r' /\ is_sep c = true.
Proof.
  destruct r as [ | c r' ]; cbn [skip_seps]; [ discriminate | ].
  destruct (is_sep c) eqn:Hc; [ intros _; now exists c, r' | ].
  rewrite Nat.ltb_irrefl. discriminate.
Qed.

Lemma match_severity_in_spec (words : list string) (s sv desc : string) (n : nat) :
  match_severity_in words s = Some ((sv, desc), n) ->
  exists w rest,
    In w words /\ skip_word w s = Some rest
    /\ (exists c rest', rest = String c rest' /\ is_sep c = true)
    /\ sv = substring 0 (String.length w) s
    /\ desc = line_rest (skip_seps rest).
Proof.
  induction words as [ | w words IH ]; cbn [match_severity_in]; [ discriminate | ].
  assert (Hnext : match_severity_in words s = Some ((sv, desc), n) ->
            exists w0 rest,
              In w0 (w :: words) /\ skip_word w0 s = Some rest
              /\ (exists c rest', rest = String c rest' /\ is_sep c = true)
              /\ sv = substring 0 (String.length w0) s
              /\ desc = line_rest (skip_seps rest)).
  { intros H. destruct (IH H) as (w0 & rest & Hin & Hrest).
    exists w0, rest. split; [ now right | exact Hrest ]. }
  destruct (skip_word w s) as [ r | ] eqn:Hw; [ | exact Hnext ].
  destruct (String.length (skip_seps r) <? String.length r)%nat eqn:Hlen;
    [ | exact Hnext ].
  intros [= <- <- _]. exists w, r.
  split; [ now left | ]. split; [ exact Hw | ].
  split; [ now apply skip_seps_shorter | split; reflexivity ].
Qed.

(** *** Letter case of the matched keyword *)

Lemma upper_of_matched (a b : ascii) :
  Ascii.eqb a (lower_char b) = true -> is_lower_letter a = true ->
  upper_char b = upper_char a.
Proof.
  intros H Ha. apply Ascii.eqb_eq in H. subst a.
  destruct b as [[] [] [] [] [] [] [] []];
    solve [ reflexivity | vm_compute in Ha; discriminate ].
Qed.

Lemma skip_word_upper (w : string) :
  forall s rest, all_lower w = true -> skip_word w s = Some rest ->
  upper (substring 0 (String.length w) s) = upper w.
Proof.
  induction w as [ | a w IH ]; intros s rest Hw H.
  - now destruct s.
  - destruct s as [ | b s ]; cbn [skip_word] in H; [ discriminate | ].
    cbn [all_lower] in Hw. apply andb_true_iff in Hw. destruct Hw as [Ha Hw].
    destruct (Ascii.eqb a (lower_char b)) eqn:Hab; [ | discriminate ].
    cbn [String.length substring]. unfold upper in *. cbn [map_string].
    now rewrite (upper_of_matched a b Hab Ha), (IH s rest Hw H).
Qed.

Lemma severity_words_upper (w : string) :
  In w severity_words -> all_lower w = true /\ In (upper w) severities.
Proof.
  intros [<- | [<- | [<- | [<- | []]]]]; (split; [ reflexivity | cbn; tauto ]).
Qed.

Lemma text_issue_shape (s sv desc : string) (n : nat) :
  match_severity s = Some ((sv, desc), n) ->
  exists sev,
    text_issue (sv, desc)
    = JObj [("severity", JStr sev); ("description", JStr (strip desc))]
    /\ In sev severities.
Proof.
  intros H. destruct (match_severity_in_spec _ _ _ _ _ H)
    as (w & rest & Hin & Hw & _ & -> & _).
  destruct (severity_words_upper w Hin) as [Hlow Hup].
  exists (upper w). split; [ | exact Hup ].
  unfold text_issue; cbn [fst snd]. now rewrite (skip_word_upper w s rest Hlow Hw).
Qed.

Lemma Forall_firstn_keep {A : Type} (P : A -> Prop) (n : nat) (l : list A) :
  Forall P l -> Forall P (List.firstn n l).
Proof.
  intros H. revert n. induction H as [ | a l Ha _ IH ]; intros [ | n ];
    cbn [List.firstn]; constructor; auto.
Qed.

Lemma mined_matches (text : string) :
  Forall mined (List.map text_issue (severity_matches text)).
Proof.
  apply Forall_forall. intros i Hi. apply in_map_iff in Hi.
  destruct Hi as ([sv desc] & <- & Hin).
  destruct (findall_sound _ _ _ _ Hin) as (pre & post & n & _ & Hm).
  destruct (text_issue_shape _ _ _ _ Hm) as (sev & -> & Hsev).
  now exists sev, (strip desc).
Qed.

(** C5 (as amended).  On every text the fallback parser returns a result
    (it is a total function: nothing in it can raise).  The overall score
    is never negative, is 5 when no score is found, and is at most 10
    when every score found is at most 10; the scores found are not clamped
    to the scale. *)
Theorem C5_parse_text_review_total (text : string) :
  exists q issues,
    parse_text_review text = parsed q issues
    /\ (0 <= q)%Q
    /\ (score_texts text = [] -> q = 5%Q)
    /\ (Forall (fun s => float_of_decimal s <= 10)%Q (score_texts text) ->
        (q <= 10)%Q).
Proof.
  exists (avg_score (score_texts text)),
         (List.firstn 5 (List.map text_issue (severity_matches text))).
  split; [ reflexivity | split; [ apply avg_score_nonneg | split ] ].
  - now intros ->.
  - apply avg_score_bounded. discriminate.
Qed.

(** C5 as stated fails: a reported score of 99 out of 10 is taken as it
    is. *)
Lemma C5_score_above_ten :
  parse_text_review "score: 99/10" = parsed 99 []
  /\ ~ (99 <= 10)%Q.
Proof. split; [ reflexivity | intros H; now apply H ]. Qed.

(** *** [re.findall]: the leftmost non-overlapping matches *)

Lemma occurrences_values {A : Type} (m : string -> option (A * nat)) (s : string) :
  forall skip pos,
    List.map value_of (occurrences m s skip pos) = findall m s skip.
Proof.
  induction s as [ | c s IH ]; intros skip pos; [ reflexivity | ].
  cbn [occurrences findall]. destruct skip as [ | k ]; [ | apply IH ].
  destruct (m (String c s)) as [[a n] | ]; [ | apply IH ].
  cbn [List.map]. unfold value_of at 1. cbn [fst snd]. now rewrite IH.
Qed.

Lemma occurrences_after {A : Type} (m : string -> option (A * nat)) (s : string) :
  forall skip pos o, In o (occurrences m s skip pos) ->
    (pos + skip <= start_of o)%nat.
Proof.
  induction s as [ | c s IH ]; intros skip pos o H; [ destruct H | ].
  cbn [occurrences] in H. destruct skip as [ | k ].
  - destruct (m (String c s)) as [[a n] | ].
    + destruct H as [ <- | H ]; [ unfold start_of; cbn [fst]; lia | ].
      specialize (IH _ _ _ H). lia.
    + specialize (IH _ _ _ H). lia.
  - specialize (IH _ _ _ H). lia.
Qed.

Lemma occurrences_sound {A : Type} (m : string -> option (A * nat)) (s : string) :
  (forall t a n, m t = Some (a, n) -> (1 <= n)%nat) ->
  forall skip pos o, In o (occurrences m s skip pos) ->
    (start_of o < end_of o)%nat
    /\ exists pre post,
         s = pre ++ post /\ (pos + String.length pre = start_of o)%nat
         /\ m post = Some (value_of o, snd o).
Proof.
  intros Hpos. induction s as [ | c s IH ]; intros skip pos o H; [ destruct H | ].
  cbn [occurrences] in H.
  assert (Hrest : forall k, In o (occurrences m s k (S pos)) ->
            (start_of o < end_of o)%nat
            /\ exists pre post,
                 String c s = pre ++ post
                 /\ (pos + String.length pre = start_of o)%nat
                 /\ m post = Some (value_of o, snd o)).
  { intros k Hk. destruct (IH _ _ _ Hk) as (Hlt & pre & post & -> & Hp & Hm).
    split; [ exact Hlt | ]. exists (String c pre), post.
    split; [ reflexivity | split; [ cbn [String.length]; lia | exact Hm ] ]. }
  destruct skip as [ | k ]; [ | now apply (Hrest k) ].
  destruct (m (String c s)) as [[a n] | ] eqn:Hm; [ | now apply (Hrest O) ].
  destruct H as [ <- | H ]; [ | now apply (Hrest (Nat.pred n)) ].
  unfold start_of, end_of, value_of. cbn [fst snd].
  pose proof (Hpos _ _ _ Hm). split; [ lia | ].
  exists "", (String c s). split; [ reflexivity | split; [ cbn; lia | exact Hm ] ].
Qed.

Lemma occurrences_ordered {A : Type} (m : string -> option (A * nat)) (s : string) :
  forall skip pos before o after,
    occurrences m s skip pos = (before ++ o :: after)%list ->
    forall o', In o' after -> (end_of o <= start_of o')%nat.
Proof.
  induction s as [ | c s IH ]; intros skip pos before o after H o' Ho';
    [ now destruct before | ].
  cbn [occurrences] in H. destruct skip as [ | k ]; [ | exact (IH _ _ _ _ _ H o' Ho') ].
  destruct (m (String c s)) as [[a n] | ]; [ | exact (IH _ _ _ _ _ H o' Ho') ].
  destruct before as [ | b before ]; cbn [List.app] in H.
  - injection H as <- Hafter.
    assert (Hin : In o' (occurrences m s (Nat.pred n) (S pos)))
      by (rewrite Hafter; exact Ho').
    pose proof (occurrences_after _ _ _ _ _ Hin).
    unfold end_of. cbn [fst snd]. lia.
  - injection H as _ Hrest. exact (IH _ _ _ _ _ Hrest o' Ho').
Qed.

Lemma occurrences_complete {A : Type} (m : string -> option (A * nat)) (s : string) :
  forall skip pos pre post,
    s = pre ++ post -> m post <> None -> post <> "" ->
    (skip <= String.length pre)%nat ->
    exists o, In o (occurrences m s skip pos)
              /\ (start_of o <= pos + String.length pre)%nat
              /\ (pos + String.length pre < Nat.max (end_of o) (S (start_of o)))%nat.
Proof.
  induction s as [ | c s IH ]; intros skip pos pre post Hs Hm Hne Hskip.
  - destruct pre; [ | discriminate ]. cbn in Hs. now subst post.
  - assert (Htail : forall k pre',
              pre = String c pre' -> (k <= String.length pre')%nat ->
              exists o, In o (occurrences m s k (S pos))
                /\ (start_of o <= pos + String.length pre)%nat
                /\ (pos + String.length pre
                    < Nat.max (end_of o) (S (start_of o)))%nat).
    { intros k pre' -> Hk. injection Hs as Hs.
      destruct (IH k (S pos) pre' post Hs Hm Hne Hk) as (o & Hin & Hlo & Hhi).
      exists o. cbn [String.length]. split; [ exact Hin | split; lia ]. }
    cbn [occurrences]. destruct skip as [ | k ].
    + destruct (m (String c s)) as [[a n] | ] eqn:Hhere.
      * destruct (Nat.ltb (String.length pre) (Nat.max n 1)) eqn:Hin.
        -- apply Nat.ltb_lt in Hin. exists (pos, a, n).
           split; [ now left | ]. unfold start_of, end_of. cbn [fst snd].
           split; lia.
        -- apply Nat.ltb_ge in Hin. destruct pre as [ | c' pre' ];
             [ cbn in Hin; lia | ].
           injection Hs as -> Hs'.
           destruct (Htail (Nat.pred n) pre' eq_refl) as (o & Ho & Hlo & Hhi);
             [ cbn [String.length] in Hin; lia | ].
           exists o. split; [ now right | split; assumption ].
      * destruct pre as [ | c' pre' ].
        -- cbn in Hs. subst post. now destruct Hm.
        -- injection Hs as -> Hs'.
           destruct (Htail O pre' eq_refl) as (o & Ho & Hlo & Hhi); [ lia | ].
           exists o. split; [ exact Ho | split; assumption ].
    + destruct pre as [ | c' pre' ]; [ cbn in Hskip; lia | ].
      injection Hs as -> Hs'.
      destruct (Htail k pre' eq_refl) as (o & Ho & Hlo & Hhi);
        [ cbn [String.length] in Hskip; lia | ].
      exists o. split; [ exact Ho | split; assumption ].
Qed.

(** The matches [findall] reports are the leftmost non-overlapping ones,
    for a matcher that matches no empty text. *)
Lemma findall_scan {A : Type} (m : string -> option (A * nat)) (text : string) :
  (forall t a n, m t = Some (a, n) -> (1 <= n)%nat) ->
  m "" = None ->
  scan m text (occurrences m text 0 0)
  /\ findall m text 0 = List.map value_of (occurrences m text 0 0).
Proof.
  intros Hpos Hempty. split; [ | symmetry; apply occurrences_values ].
  split; [ | split ].
  - intros o Ho. destruct (occurrences_sound m text Hpos _ _ _ Ho)
      as (Hlt & pre & post & Ht & Hp & Hm).
    split; [ exact Hlt | ]. now exists pre, post.
  - intros before o after H. exact (occurrences_ordered m text _ _ _ _ _ H).
  - intros pre post Ht Hm.
    assert (Hne : post <> "") by (intros ->; now destruct Hm).
    destruct (occurrences_complete m text 0 0 pre post Ht Hm Hne (Nat.le_0_l _))
      as (o & Ho & Hlo & Hhi).
    exists o. split; [ exact Ho | ].
    destruct (occurrences_sound m text Hpos _ _ _ Ho) as (Hlt & _).
    cbn [Nat.add] in *. lia.
Qed.

Lemma skip_word_shorter (w s r : string) :
  w <> "" -> skip_word w s = Some r -> (String.length r < String.length s)%nat.
Proof.
  revert s. induction w as [ | a w IH ]; intros s Hne; [ now destruct Hne | ].
  destruct s as [ | b s ]; cbn [skip_word]; [ discriminate | ].
  destruct (Ascii.eqb a (lower_char b)); [ | discriminate ].
  destruct w as [ | a' w ].
  - cbn [skip_word]. intros [= <-]. cbn [String.length]. lia.
  - intros H. specialize (IH s ltac:(discriminate) H). cbn [String.length]. lia.
Qed.

Lemma skip_seps_length (r : string) :
  (String.length (skip_seps r) <= String.length r)%nat.
Proof.
  induction r as [ | c r IH ]; cbn [skip_seps]; [ lia | ].
  destruct (is_sep c); cbn [String.length]; lia.
Qed.

Lemma match_score_length (t s : string) (n : nat) :
  match_score t = Some (s, n) -> (1 <= n)%nat.
Proof.
  unfold match_score.
  destruct (skip_word "score" t); [ | discriminate ].
  destruct (_ <? _)%nat; [ | discriminate ].
  destruct (span_digits _) as [[ | c d ] r2]; [ discriminate | ].
  destruct (span_fraction r2) as [f r3].
  destruct (startswith "/10" r3); [ | discriminate ].
  intros [= _ <-]. lia.
Qed.

Lemma match_severity_in_length (words : list string) (t : string)
  (a : string * string) (n : nat) :
  Forall (fun w => w <> "") words ->
  match_severity_in words t = Some (a, n) -> (1 <= n)%nat.
Proof.
  induction 1 as [ | w words Hw _ IH ]; cbn [match_severity_in]; [ discriminate | ].
  destruct (skip_word w t) as [ r | ] eqn:Hr; [ | exact IH ].
  destruct (String.length (skip_seps r) <? String.length r)%nat; [ | exact IH ].
  intros [= _ <-]. unfold consumed.
  pose proof (skip_word_shorter _ _ _ Hw Hr). pose proof (skip_seps_length r). lia.
Qed.

(** The severity matcher succeeds exactly where a severity word followed
    by a separator stands. *)
Lemma match_severity_here (t : string) :
  match_severity t <> None <-> severity_here t.
Proof.
  unfold match_severity, severity_here. split.
  - destruct (match_severity_in severity_words t) as [[[sv desc] n] | ] eqn:Hm;
      [ intros _ | intros H; now destruct H ].
    destruct (match_severity_in_spec _ _ _ _ _ Hm)
      as (w & rest & Hw & Hs & (c & rest' & -> & Hc) & _).
    now exists w, c, rest'.
  - intros (w & c & rest & Hw & Hs & Hc).
    assert (Hgen : forall words, In w words -> match_severity_in words t <> None).
    { induction words as [ | w0 words IH ]; intros Hin; [ destruct Hin | ].
      cbn [match_severity_in].
      destruct (skip_word w0 t) as [ r | ] eqn:Hr.
      - destruct (String.length (skip_seps r) <? String.length r)%nat eqn:Hlen;
          [ discriminate | ].
        destruct Hin as [ -> | Hin ]; [ | now apply IH ].
        rewrite Hs in Hr. injection Hr as <-.
        cbn [skip_seps] in Hlen. rewrite Hc in Hlen.
        pose proof (skip_seps_length rest). cbn [String.length] in Hlen.
        apply Nat.ltb_ge in Hlen. lia.
      - destruct Hin as [ -> | Hin ]; [ congruence | now apply IH ]. }
    now apply Hgen.
Qed.



(** The fallback at work on a review in free text. *)
Example text_review :
  parse_text_review
    ("Overall Score: 7/10" ++ String "010"
     ("score 8.5/10" ++ String "010"
      ("HIGH: no error handling  " ++ String "010" "medium - too long")))
  = parsed (avg_score ["7"; "8.5"])
      [JObj [("severity", JStr "HIGH"); ("description", JStr "no error handling")];
       JObj [("severity", JStr "MEDIUM"); ("description", JStr "- too long")]]
  /\ (avg_score ["7"; "8.5"] == 31 # 4)%Q.
Proof. split; reflexivity. Qed.

End TextFacts.

(** ** The keyword matcher of the iterative improver *)

Module KeywordFacts.
Import Iterative Spec.

Lemma first_keyword_spec (g_desc c_desc : string) (kws : list string) :
  match first_keyword kws g_desc c_desc with
  | Some k =>
      exists before after,
        kws = (before ++ k :: after)%list
        /\ contains k g_desc = true /\ contains k c_desc = true
        /\ forall k', In k' before ->
             ~ (contains k' g_desc = true /\ contains k' c_desc = true)
  | None =>
      forall k, In k kws ->
        ~ (contains k g_desc = true /\ contains k c_desc = true)
  end.
Proof.
  induction kws as [ | k kws IH ]; cbn [first_keyword]; [ intros k [] | ].
  destruct (contains k g_desc && contains k c_desc) eqn:Hk.
  - apply andb_true_iff in Hk. exists [], kws.
    split; [ reflexivity | ]. split; [ tauto | ]. split; [ tauto | intros k' [] ].
  - assert (Hnot : ~ (contains k g_desc = true /\ contains k c_desc = true)).
    { intros [H1 H2]. rewrite H1, H2 in Hk. discriminate. }
    destruct (first_keyword kws g_desc c_desc) as [ k0 | ].
    + destruct IH as (before & after & -> & Hg & Hc & Hfirst).
      exists (k :: before), after. split; [ reflexivity | ].
      split; [ exact Hg | ]. split; [ exact Hc | ].
      intros k' [<- | Hin]; [ exact Hnot | now apply Hfirst ].
    + intros k' [<- | Hin]; [ exact Hnot | now apply IH ].
Qed.

(** *** What [str] of an issue shows of its entries *)

Lemma concat_map_app (f : ascii -> string) (a b : string) :
  concat_map f (a ++ b) = concat_map f a ++ concat_map f b.
Proof.
  induction a as [ | c a IH ]; cbn [append concat_map]; [ reflexivity | ].
  now rewrite IH, StringFacts.app_assoc.
Qed.

(** A character that lower-cases to a keyword character is written as it
    is by [repr]. *)
Lemma repr_char_plain (q b : ascii) :
  q = quote \/ q = "'"%char ->
  plain_char (lower_char b) = true -> repr_char q b = String b "".
Proof.
  intros [-> | ->] H;
    destruct b as [[] [] [] [] [] [] [] []];
    solve [ reflexivity | vm_compute in H; discriminate ].
Qed.

Lemma repr_plain (q : ascii) (d : string) :
  q = quote \/ q = "'"%char ->
  all_plain (lower d) = true -> concat_map (repr_char q) d = d.
Proof.
  intros Hq. induction d as [ | b d IH ]; [ reflexivity | ].
  unfold lower. cbn [map_string all_plain concat_map]. intros H.
  apply andb_true_iff in H. destruct H as [Hb Hd].
  rewrite (repr_char_plain q b Hq Hb), (IH Hd). reflexivity.
Qed.

(** A keyword in the lower-cased text of a string is in the lower-cased
    [repr] of the string. *)
Lemma keyword_in_repr_str (k d : string) :
  all_plain k = true -> contains k (lower d) = true ->
  exists pre post, lower (repr_str d) = pre ++ k ++ post.
Proof.
  intros Hk H. destruct (StringFacts.contains_inv _ _ H) as (x & y & Hxy).
  unfold lower in Hxy.
  destruct (StringFacts.map_string_app_inv _ _ _ _ Hxy) as (d1 & r & -> & Hd1 & Hr).
  destruct (StringFacts.map_string_app_inv _ _ _ _ Hr) as (d2 & d3 & -> & Hd2 & Hd3).
  unfold repr_str.
  set (q := if contains "'" (d1 ++ d2 ++ d3)
               && negb (contains (String quote "") (d1 ++ d2 ++ d3))
            then quote else "'"%char).
  assert (Hq : q = quote \/ q = "'"%char) by (subst q; destruct (_ && _); auto).
  rewrite !concat_map_app.
  rewrite (repr_plain q d2 Hq) by (unfold lower; now rewrite Hd2).
  exists (lower (String q (concat_map (repr_char q) d1))),
         (lower (concat_map (repr_char q) d3 ++ String q "")).
  unfold lower. cbn [map_string append].
  rewrite !StringFacts.map_string_app, Hd2. cbn [map_string append].
  now rewrite !StringFacts.app_assoc.
Qed.

(** [repr] of a dict shows the [repr] of each of its values. *)
Lemma repr_shows_value (o : dict) (key : string) (v : json) :
  In (key, v) o -> exists pre post, repr (JObj o) = pre ++ repr v ++ post.
Proof.
  intros Hin. cbn [repr].
  set (items := fix items (o : list (string * json)) : string :=
         match o with
         | [] => ""
         | (k, v) :: o' =>
             repr_str k ++ ": " ++ repr v
             ++ match o' with [] => "" | _ => ", " ++ items o' end
         end).
  assert (H : exists pre post, items o = pre ++ repr v ++ post).
  { induction o as [ | [k0 v0] o IH ]; [ destruct Hin | ].
    destruct Hin as [Heq | Hin].
    - injection Heq as -> ->. cbn [items].
      exists (repr_str key ++ ": "),
             (match o with [] => "" | _ => ", " ++ items o end).
      now rewrite !StringFacts.app_assoc.
    - destruct (IH Hin) as (pre & post & Hpp). cbn [items].
      destruct o as [ | kv o ]; [ destruct Hin | ].
      rewrite Hpp.
      exists (repr_str k0 ++ ": " ++ repr v0 ++ ", " ++ pre), post.
      now rewrite !StringFacts.app_assoc. }
  destruct H as (pre & post & ->).
  exists ("{" ++ pre), (post ++ "}"). cbn [append].
  now rewrite !StringFacts.app_assoc.
Qed.

(** A keyword in the lower-cased text of a string entry of an issue is in
    the text the matcher compares. *)
Lemma keyword_in_entry (o : dict) (key d k : string) :
  In (key, JStr d) o -> all_plain k = true -> contains k (lower d) = true ->
  contains k (lower (str (JObj o))) = true.
Proof.
  intros Hin Hk Hd.
  destruct (repr_shows_value o key (JStr d) Hin) as (pre & post & Hrepr).
  destruct (keyword_in_repr_str k d Hk Hd) as (x & y & Hxy).
  cbn [str]. rewrite Hrepr. cbn [repr] in *.
  unfold lower in *. rewrite !StringFacts.map_string_app, Hxy.
  replace (map_string lower_char pre ++ (x ++ k ++ y) ++ map_string lower_char post)
    with ((map_string lower_char pre ++ x) ++ k ++ (y ++ map_string lower_char post))
    by (now rewrite !StringFacts.app_assoc).
  apply StringFacts.contains_app.
Qed.

Lemma keywords_plain (k : string) : In k common_keywords -> all_plain k = true.
Proof.
  intros H. repeat (destruct H as [<- | H]; [ reflexivity | ]). destruct H.
Qed.

Lemma pair_entries_spec (g c : json) :
  (pair_entries g c <> [] <-> exists k, In k common_keywords /\ shared k g c)
  /\ (List.length (pair_entries g c) <= 1)%nat
  /\ (forall e, In e (pair_entries g c) ->
      gemini_finding e = g /\ codex_finding e = c /\ priority e = "HIGH"
      /\ exists before after,
           common_keywords = (before ++ keyword e :: after)%list
           /\ shared (keyword e) g c
           /\ forall k, In k before -> ~ shared k g c).
Proof.
  unfold pair_entries, shared.
  pose proof (first_keyword_spec (lower (str g)) (lower (str c)) common_keywords) as H.
  destruct (first_keyword common_keywords (lower (str g)) (lower (str c))) as [ k | ].
  - destruct H as (before & after & Hkws & Hg & Hc & Hfirst).
    split; [ | split; [ cbn; lia | ] ].
    + split; [ intros _ | discriminate ]. exists k. split; [ | tauto ].
      rewrite Hkws. apply in_or_app. right. now left.
    + intros e [<- | []]. cbn [gemini_finding codex_finding priority keyword].
      repeat split. now exists before, after.
  - split; [ | split; [ cbn; lia | ] ].
    + split; [ congruence | ]. intros (k & Hin & Hk). now destruct (H k Hin).
    + intros e [].
Qed.

Lemma keyword_consensus_pairs (gs cs : list json) (e : keyword_match) :
  In e (keyword_consensus gs cs) <->
  exists g c, In g gs /\ In c cs /\ In e (pair_entries g c).
Proof.
  unfold keyword_consensus. rewrite in_flat_map. split.
  - intros (g & Hg & He). apply in_flat_map in He.
    destruct He as (c & Hc & He). now exists g, c.
  - intros (g & c & Hg & Hc & He). exists g. split; [ exact Hg | ].
    apply in_flat_map. now exists c.
Qed.

(** C4 (as amended).  The texts compared are the lower-cased [str] of the
    whole issues.  A pair of issues gets a consensus entry exactly when
    some keyword of the vocabulary is a substring of both texts; it gets
    at most one entry, which records the first such keyword in the order
    of the vocabulary; and the consensus list holds the entries of all
    pairs.  The text of an issue dict shows every string entry of it, so
    a keyword found in a lower-cased string entry (such as the
    description) of both issues always makes them match. *)
Theorem C4_keyword_match (g c : json) (gs cs : list json) :
  (pair_entries g c <> [] <-> exists k, In k common_keywords /\ shared k g c)
  /\ (List.length (pair_entries g c) <= 1)%nat
  /\ (forall e, In e (pair_entries g c) ->
      gemini_finding e = g /\ codex_finding e = c /\ priority e = "HIGH"
      /\ exists before after,
           common_keywords = (before ++ keyword e :: after)%list
           /\ shared (keyword e) g c
           /\ forall k, In k before -> ~ shared k g c)
  /\ (forall e, In e (keyword_consensus gs cs) <->
      exists g' c', In g' gs /\ In c' cs /\ In e (pair_entries g' c'))
  /\ (forall k og oc kg dg kc dc,
      g = JObj og -> c = JObj oc -> In k common_keywords ->
      In (kg, JStr dg) og -> In (kc, JStr dc) oc ->
      contains k (lower dg) = true -> contains k (lower dc) = true ->
      pair_entries g c <> []).
Proof.
  destruct (pair_entries_spec g c) as (Hiff & Hlen & Hentry).
  split; [ exact Hiff | split; [ exact Hlen | split; [ exact Hentry | split ] ] ].
  - intros e. apply keyword_consensus_pairs.
  - intros k og oc kg dg kc dc -> -> Hk Hg Hc Hdg Hdc.
    apply Hiff. exists k. split; [ exact Hk | ].
    pose proof (keywords_plain k Hk) as Hplain.
    split; [ exact (keyword_in_entry og kg dg k Hg Hplain Hdg)
           | exact (keyword_in_entry oc kc dc k Hc Hplain Hdc) ].
Qed.

(** The example of the specification: the two descriptions share
    ["device"]. *)
Example device_matches :
  pair_entries (described "hard-coded device string")
               (described "GPU device not configurable")
  = [ {| keyword := "device";
         gemini_finding := described "hard-coded device string";
         codex_finding := described "GPU device not configurable";
         priority := "HIGH" |} ].
Proof. reflexivity. Qed.

Example no_shared_keyword :
  pair_entries (described "loop never ends") (described "loop never terminates") = [].
Proof. reflexivity. Qed.

(** C4 as stated fails: the descriptions below have no keyword of the
    vocabulary, yet the issues match on ["mode"], found in the file name
    ["model.py"] that [str] of the issue includes. *)
Lemma C4_match_without_shared_description_keyword :
  Forall (fun k => contains k (lower "unused import") = false) common_keywords
  /\ Forall (fun k => contains k (lower "missing docstring") = false) common_keywords
  /\ pair_entries (issue_at "model.py" 10 "unused import")
                  (issue_at "model.py" 88 "missing docstring")
     = [ {| keyword := "mode";
            gemini_finding := issue_at "model.py" 10 "unused import";
            codex_finding := issue_at "model.py" 88 "missing docstring";
            priority := "HIGH" |} ].
Proof.
  split; [ repeat constructor | split; [ repeat constructor | reflexivity ] ].
Qed.

End KeywordFacts.

(* ================================================================== *)
(** * Further properties of the code *)
(* ================================================================== *)

(** ** The quick workflow: files, reviews, consensus *)

Module QuickMore.
Import Quick Spec.

(** X1.  [get_core_files] returns at most eight names.  When a priority
    file exists the result is the existing priority files in priority
    order and the other files of the directory play no part; otherwise it
    is the first five top-level Python files.  It is empty only when
    there is neither. *)
Theorem X1_get_core_files (file_exists : string -> bool) (top : list string) :
  let core := get_core_files file_exists top in
  (List.length core <= 8)%nat
  /\ (List.existsb file_exists priority_files = true ->
      core = List.filter file_exists priority_files
      /\ forall f, In f core -> In f priority_files /\ file_exists f = true)
  /\ (List.existsb file_exists priority_files = false ->
      core = List.firstn 5 top)
  /\ (core = [] <-> List.existsb file_exists priority_files = false /\ top = []).
Proof.
  intros core. subst core. unfold get_core_files.
  pose proof (List.filter_length_le file_exists priority_files) as Hlen.
  assert (Hex : List.existsb file_exists priority_files = true
                <-> List.filter file_exists priority_files <> []).
  { rewrite List.existsb_exists. split.
    - intros (f & Hin & Hf) Hnil.
      assert (H : In f (List.filter file_exists priority_files))
        by (apply List.filter_In; auto).
      rewrite Hnil in H. destruct H.
    - intros Hne. destruct (List.filter file_exists priority_files) as [ | f l ] eqn:E;
        [ congruence | ].
      assert (H : In f (List.filter file_exists priority_files))
        by (rewrite E; now left).
      apply List.filter_In in H. now exists f. }
  destruct (List.filter file_exists priority_files) as [ | f l ] eqn:E.
  - assert (Hno : List.existsb file_exists priority_files = false).
    { destruct (List.existsb file_exists priority_files); [ | reflexivity ].
      destruct Hex as [H _]. now destruct (H eq_refl). }
    split; [ | split; [ | split ] ].
    + pose proof (List.firstn_le_length 5 top). lia.
    + rewrite Hno. discriminate.
    + reflexivity.
    + split.
      * intros H. split; [ exact Hno | ]. now destruct top.
      * now intros [_ ->].
  - assert (Hyes : List.existsb file_exists priority_files = true)
      by (apply Hex; discriminate).
    split; [ exact Hlen | split; [ | split ] ].
    + intros _. split; [ reflexivity | ].
      intros g Hg. rewrite <- E in Hg. now apply List.filter_In in Hg.
    + rewrite Hyes. discriminate.
    + split; [ discriminate | ]. rewrite Hyes. now intros [H _].
Qed.

Example core_files_by_priority :
  get_core_files has_model_and_utils ["zoo.py"; "utils.py"; "model.py"]
  = ["model.py"; "utils.py"]
  /\ get_core_files no_file ["a.py"; "b.py"; "c.py"; "d.py"; "e.py"; "f.py"]
     = ["a.py"; "b.py"; "c.py"; "d.py"; "e.py"].
Proof. split; reflexivity. Qed.

(** *** The shape of a review *)

Lemma report_data_dict (d : json) :
  report_data d = Ok tt ->
  exists o n, d = JObj o /\ len (get o "top_issues" (JArr [])) = Ok n.
Proof.
  unfold report_data. destruct d; try discriminate. cbn [attr_get bind].
  destruct (len (get o "top_issues" (JArr []))) as [ n | ] eqn:Hn; [ | discriminate ].
  intros _. now exists o, n.
Qed.

Lemma decoded_dict (loaded : result json) (d : json) :
  (x <- loaded ;; _ <- report_data x ;; Ok x) = Ok d ->
  exists o n, d = JObj o /\ len (get o "top_issues" (JArr [])) = Ok n.
Proof.
  destruct loaded as [ x | ]; [ | discriminate ]. cbn [bind].
  destruct (report_data x) as [ [] | ] eqn:Hx; [ | discriminate ].
  cbn [bind]. intros [= <-]. now apply report_data_dict.
Qed.

Lemma quick_failed_well_formed : quick_well_formed failed.
Proof. split; [ discriminate | intros _; split; [ reflexivity | now left ] ]. Qed.

Lemma quick_skipped_well_formed : quick_well_formed skipped.
Proof. split; [ discriminate | intros _; split; [ reflexivity | now right ] ]. Qed.

Lemma quick_success_well_formed (d : json) :
  (exists o n, d = JObj o /\ len (get o "top_issues" (JArr [])) = Ok n) ->
  quick_well_formed (success d).
Proof.
  intros (o & n & -> & Hn). split; [ intros _; now exists o, n | discriminate ].
Qed.

Lemma run_gemini_review_well_formed (run : result completed) :
  quick_well_formed (run_gemini_review run).
Proof.
  unfold run_gemini_review. destruct run as [ p | ];
    [ | apply quick_failed_well_formed ].
  destruct (returncode p =? 0); [ | apply quick_failed_well_formed ].
  destruct (gemini_decode (stdout p)) as [ d | ] eqn:Hd;
    [ | apply quick_failed_well_formed ].
  apply quick_success_well_formed. unfold gemini_decode in Hd.
  now apply decoded_dict in Hd.
Qed.

Lemma run_codex_review_well_formed (run : result completed) :
  quick_well_formed (run_codex_review run).
Proof.
  unfold run_codex_review. destruct run as [ p | ];
    [ | apply quick_failed_well_formed ].
  destruct (contains plus_marker (stdout p ++ stderr p));
    [ apply quick_skipped_well_formed | ].
  destruct (codex_decode (stdout p ++ stderr p)) as [ d | ] eqn:Hd;
    [ | apply quick_failed_well_formed ].
  apply quick_success_well_formed. unfold codex_decode in Hd.
  destruct (if contains fence (stdout p ++ stderr p) then _ else _)
    as [ json_str | ]; [ | discriminate ].
  cbn [bind] in Hd. now apply decoded_dict in Hd.
Qed.

Lemma collect_scores_total (g c : review_result) :
  quick_well_formed g -> quick_well_formed c ->
  exists scores, collect_scores g c = Ok scores /\ (List.length scores <= 2)%nat.
Proof.
  intros [Hg _] [Hc _]. unfold collect_scores, data_get.
  destruct (is_success g).
  - destruct (Hg eq_refl) as (og & ng & -> & _). cbn [attr_get bind].
    destruct (is_success c).
    + destruct (Hc eq_refl) as (oc & nc & -> & _). cbn [attr_get bind].
      eexists; split; [ reflexivity | cbn; lia ].
    + eexists; split; [ reflexivity | cbn; lia ].
  - cbn [bind]. destruct (is_success c).
    + destruct (Hc eq_refl) as (oc & nc & -> & _). cbn [attr_get bind].
      eexists; split; [ reflexivity | cbn; lia ].
    + eexists; split; [ reflexivity | cbn; lia ].
Qed.

(** X2.  Whatever the processes return, the two reviews of an iteration
    are well formed: a review has data only with status ["success"], the
    data is then a dict whose issue list has a length, and any other
    review has status ["failed"] or ["skipped"].  So collecting the
    scores in [main] never raises. *)
Theorem X2_quick_reviews_well_formed (w : world) (iteration : Z) :
  quick_well_formed (fst (reviews w iteration))
  /\ quick_well_formed (snd (reviews w iteration))
  /\ exists scores,
       collect_scores (fst (reviews w iteration)) (snd (reviews w iteration))
       = Ok scores
       /\ (List.length scores <= 2)%nat.
Proof.
  assert (Hg : quick_well_formed (fst (reviews w iteration))).
  { unfold reviews; cbn [fst]. destruct (has_gemini w);
      [ apply run_gemini_review_well_formed | apply quick_skipped_well_formed ]. }
  assert (Hc : quick_well_formed (snd (reviews w iteration))).
  { unfold reviews; cbn [snd]. destruct (has_codex w);
      [ apply run_codex_review_well_formed | apply quick_skipped_well_formed ]. }
  split; [ exact Hg | split; [ exact Hc | now apply collect_scores_total ] ].
Qed.



(** *** Edges of the locality consensus *)

Lemma consensus_loop_no_codex (gs : list json) :
  Forall is_dict gs -> consensus_loop gs [] = Ok [].
Proof.
  induction 1 as [ | g gs [o ->] _ IH ]; [ reflexivity | ].
  cbn [consensus_loop attr_get bind first_match]. now rewrite IH.
Qed.

Lemma iter_sized (x : json) : sized x -> exists l, iter x = Ok l.
Proof. intros [n Hn]. destruct x; try discriminate; now eexists. Qed.



(** X5.  An issue without a line counts as being at line 0, an issue
    without a file as being in the file with the empty name.  So two
    issues that name neither file nor line are reported as one consensus
    issue, and an issue with a file and no line matches the issues of
    that file up to line 5. *)
Theorem X5_missing_location (og oc : dict) (f : string) (l : Z) :
  lookup "line" og = None ->
  (lookup "file" og = None -> lookup "file" oc = None ->
   lookup "line" oc = None ->
   matches (JObj og) (JObj oc) = true
   /\ consensus_loop [JObj og] [JObj oc] = Ok [entry_of og (JObj oc)]
   /\ file (entry_of og (JObj oc)) = JStr ""
   /\ line (entry_of og (JObj oc)) = JInt 0)
  /\ (lookup "file" og = Some (JStr f) -> located oc f l ->
      matches (JObj og) (JObj oc) = (Z.abs l <=? 5)).
Proof.
  intros Hgl. split.
  - intros Hgf Hcf Hcl.
    assert (Hm : issues_match (get og "file" (JStr "")) (get og "line" (JInt 0))
                              (JObj oc) = Ok true).
    { unfold issues_match, get. cbn [attr_get bind].
      unfold get. rewrite Hgl, Hgf, Hcf, Hcl. reflexivity. }
    split; [ unfold matches; now rewrite Hm | ].
    split; [ | unfold entry_of, get; cbn [file line]; now rewrite Hgl, Hgf ].
    cbn [consensus_loop attr_get bind first_match]. rewrite Hm. reflexivity.
  - intros Hgf [Hcf Hcl]. unfold matches, issues_match. cbn [attr_get bind].
    unfold get. rewrite Hgl, Hgf, Hcf, Hcl.
    rewrite QuickFacts.same_problem_located. unfold close_by.
    rewrite String.eqb_refl. cbn [andb].
    replace (0 - l) with (- l) by lia. now rewrite Z.abs_opp.
Qed.

Lemma X5_missing_location_witness :
  (matches (JObj (unlocated "slow loop")) (JObj (unlocated "no tests")) = true
   /\ consensus_loop [JObj (unlocated "slow loop")] [JObj (unlocated "no tests")]
      = Ok [entry_of (unlocated "slow loop") (JObj (unlocated "no tests"))]
   /\ file (entry_of (unlocated "slow loop") (JObj (unlocated "no tests"))) = JStr ""
   /\ line (entry_of (unlocated "slow loop") (JObj (unlocated "no tests"))) = JInt 0)
  /\ matches (JObj [("file", JStr "x.py")]) (JObj x10) = (Z.abs 10 <=? 5).
Proof.
  split.
  - destruct (X5_missing_location (unlocated "slow loop") (unlocated "no tests")
                "" 0 eq_refl) as [H _].
    apply H; reflexivity.
  - destruct (X5_missing_location [("file", JStr "x.py")] x10 "x.py" 10 eq_refl)
      as [_ H].
    apply H; [ reflexivity | split; reflexivity ].
Defined.

End QuickMore.

(** ** The loop of the quick workflow: budget, pauses, repairs *)

Module QuickLoopMore.
Import Quick Spec.

Lemma iterations_succ (i : Z) (k : nat) :
  iterations i (S k) = i :: iterations (i + 1) k.
Proof.
  unfold iterations. cbn [List.seq List.map]. f_equal; [ lia | ].
  rewrite <- List.seq_shift, List.map_map.
  apply List.map_ext. intros j. lia.
Qed.

Lemma apply_fixes_from (i : Z) (l : list consensus_issue) (e : event) :
  In e (fst (apply_fixes i l)) -> exists issue, e = FixAttempt i issue /\ In issue l.
Proof.
  induction l as [ | issue l IH ]; cbn [apply_fixes]; [ intros [] | ].
  assert (Hhead : e = FixAttempt i issue ->
                  exists x, e = FixAttempt i x /\ In x (issue :: l))
    by (intros ->; exists issue; split; [ reflexivity | now left ]).
  destruct (file issue); cbn [fst In];
    try (intros [H | []]; now apply Hhead).
  destruct (apply_fixes i l) as [evs o]; cbn [fst In] in *.
  intros [H | H]; [ now apply Hhead | ].
  destruct (IH H) as (x & Hx & Hin). exists x. split; [ exact Hx | now right ].
Qed.

(** The events of the fix phase: repair calls for consensus issues of two
    successful reviews, and a pause before a further iteration. *)
Lemma fix_phase_kinds (m i : Z) (g c : review_result) (e : event) :
  In e (fst (fix_phase m i g c)) ->
  (e = Slept i /\ i < m)
  \/ (exists issue l,
        e = FixAttempt i issue
        /\ is_success g = true /\ is_success c = true
        /\ (gd <- the_data g ;; cd <- the_data c ;; find_consensus_issues gd cd)
           = Ok l
        /\ In issue l).
Proof.
  unfold fix_phase.
  assert (Hp : In e (if i <? m then [Slept i] else []) -> e = Slept i /\ i < m).
  { destruct (i <? m) eqn:Him; [ | intros [] ].
    apply Z.ltb_lt in Him. intros [<- | []]. now split. }
  destruct (is_success g) eqn:Hg; cbn [andb]; [ | intros H; left; now apply Hp ].
  destruct (is_success c) eqn:Hc; [ | intros H; left; now apply Hp ].
  destruct (bind _ _) as [ l | ] eqn:Hl; [ | intros [] ].
  destruct l as [ | issue l ]; [ intros [] | ].
  pose proof (apply_fixes_from i (issue :: l) e) as Hf.
  destruct (apply_fixes i (issue :: l)) as [fixes [ err | ]]; cbn [fst] in *.
  - intros H. right. destruct (Hf H) as (x & -> & Hx). now exists x, (issue :: l).
  - intros H. apply in_app_or in H. destruct H as [H | H]; [ right | left; now apply Hp ].
    destruct (Hf H) as (x & -> & Hx). now exists x, (issue :: l).
Qed.

(** The events of one turn: the review first, then no further review. *)
Lemma iteration_body_events (target : Q) (m i : Z) (g c : review_result)
  (evs : list event) (f : flow) :
  iteration_body target m i g c = (evs, f) ->
  exists rest,
    evs = Reviewed i g c :: rest
    /\ forall e, In e rest ->
         (exists avg, e = Scored i avg)
         \/ In e (fst (fix_phase m i g c)).
Proof.
  unfold iteration_body.
  destruct (collect_scores g c) as [ [ | x xs ] | err ].
  - intros [= <- <-]. exists []. split; [ reflexivity | intros e [] ].
  - destruct (mean (x :: xs)) as [ avg | err ].
    + destruct (Qle_bool target avg).
      * intros [= <- <-]. exists [Scored i avg]. split; [ reflexivity | ].
        intros e [<- | []]. left. now exists avg.
      * destruct (fix_phase m i g c) as [fixes f']. cbn [fst].
        intros [= <- <-]. exists (Scored i avg :: fixes). split; [ reflexivity | ].
        intros e [<- | H]; [ left; now exists avg | now right ].
    + intros [= <- <-]. exists []. split; [ reflexivity | intros e [] ].
  - intros [= <- <-]. exists []. split; [ reflexivity | intros e [] ].
Qed.

Lemma body_break_not_finished (target : Q) (m i : Z) (g c : review_result)
  (evs : list event) (s : stop) :
  iteration_body target m i g c = (evs, Break s) -> s <> LoopFinished.
Proof.
  unfold iteration_body.
  destruct (collect_scores g c) as [ [ | x xs ] | err ]; try (intros [= <- <-]; discriminate).
  destruct (mean (x :: xs)) as [ avg | err ]; try (intros [= <- <-]; discriminate).
  destruct (Qle_bool target avg); try (intros [= <- <-]; discriminate).
  unfold fix_phase.
  destruct (is_success g && is_success c); [ | discriminate ].
  destruct (bind _ _) as [ [ | issue l ] | err ]; try discriminate.
  - destruct (apply_fixes i (issue :: l)) as [fixes [ err | ]]; [ | discriminate ].
    intros [= <- <-]. discriminate.
  - intros [= <- <-]. discriminate.
Qed.

Lemma filter_none {A : Type} (f : A -> bool) (l : list A) :
  (forall x, In x l -> f x = false) -> List.filter f l = [].
Proof.
  induction l as [ | x l IH ]; [ reflexivity | ]. intros H. cbn [List.filter].
  rewrite (H x (or_introl eq_refl)). apply IH. intros y Hy. apply H. now right.
Qed.

Lemma body_reviewed_once (target : Q) (m i : Z) (g c : review_result)
  (evs : list event) (f : flow) :
  iteration_body target m i g c = (evs, f) ->
  List.map event_index (List.filter is_reviewed evs) = [i].
Proof.
  intros H. destruct (iteration_body_events _ _ _ _ _ _ _ H) as (rest & -> & Hrest).
  cbn [List.filter is_reviewed List.map event_index]. f_equal.
  assert (Hnone : List.filter is_reviewed rest = []).
  { apply filter_none. intros e He.
    destruct (Hrest e He) as [[avg ->] | Hfix]; [ reflexivity | ].
    destruct (fix_phase_kinds _ _ _ _ _ Hfix) as [[-> _] | (x & l & -> & _)];
      reflexivity. }
  now rewrite Hnone.
Qed.

Lemma quick_loop_budget (w : world) (target : Q) (m : Z) (n : nat) :
  forall (i : Z) (evs : list event) (s : stop),
  loop w target m n i = (evs, s) ->
  exists k,
    (k <= n)%nat
    /\ List.map event_index (List.filter is_reviewed evs) = iterations i k
    /\ (s = LoopFinished -> k = n)
    /\ (s <> LoopFinished -> (1 <= k)%nat)
    /\ (forall e, In e evs -> i <= event_index e < i + Z.of_nat k).
Proof.
  induction n as [ | n IH ]; intros i evs s; cbn [loop].
  - intros [= <- <-]. exists O. split; [ lia | split; [ reflexivity | ] ].
    split; [ reflexivity | split; [ congruence | intros e [] ] ].
  - destruct (reviews w i) as [g c].
    destruct (iteration_body target m i g c) as [evs1 f] eqn:Hbody.
    pose proof (body_reviewed_once _ _ _ _ _ _ _ Hbody) as Honce.
    destruct (QuickLoopFacts.iteration_body_spec _ _ _ _ _ _ _ Hbody)
      as (_ & _ & Hidx & _).
    destruct f as [ s1 | ].
    + intros [= <- <-]. exists 1%nat.
      split; [ lia | split; [ rewrite Honce, iterations_succ; reflexivity | ] ].
      split; [ | split; [ lia | intros e He; rewrite (Hidx e He); lia ] ].
      intros ->. exfalso. now apply (body_break_not_finished _ _ _ _ _ _ _ Hbody).
    + destruct (loop w target m n (i + 1)) as [evs2 s2] eqn:Hloop.
      destruct (IH _ _ _ Hloop) as (k & Hk & Hrev & Hfin & Hnot & Hrange).
      intros [= <- <-]. exists (S k).
      split; [ lia | split ].
      * rewrite List.filter_app, List.map_app, Honce, Hrev, iterations_succ.
        reflexivity.
      * split; [ intros Hs; now rewrite (Hfin Hs) | split; [ lia | ] ].
        intros e He. apply in_app_or in He. destruct He as [He | He].
        -- rewrite (Hidx e He). lia.
        -- specialize (Hrange e He). lia.
Qed.

Lemma quick_loop_repairs (w : world) (target : Q) (m : Z) (n : nat) :
  forall (i : Z) (evs : list event) (s : stop),
  loop w target m n i = (evs, s) ->
  (forall j, In (Slept j) evs -> j < m)
  /\ (forall j issue, In (FixAttempt j issue) evs ->
        is_success (fst (reviews w j)) = true
        /\ is_success (snd (reviews w j)) = true
        /\ exists l, quick_consensus w j = Ok l /\ In issue l).
Proof.
  induction n as [ | n IH ]; intros i evs s; cbn [loop].
  - intros [= <- <-]. split; [ intros j [] | intros j issue [] ].
  - unfold quick_consensus in *.
    destruct (reviews w i) as [g c] eqn:Hrev.
    destruct (iteration_body target m i g c) as [evs1 f] eqn:Hbody.
    destruct (iteration_body_events _ _ _ _ _ _ _ Hbody) as (rest & -> & Hrest).
    assert (Hsl : forall j, In (Slept j) (Reviewed i g c :: rest) -> j < m).
    { intros j [H | H]; [ discriminate | ].
      destruct (Hrest _ H) as [[avg Heq] | Hfix]; [ discriminate | ].
      destruct (fix_phase_kinds _ _ _ _ _ Hfix) as [[[= ->] Hlt] | (x & l & Heq & _)];
        [ exact Hlt | discriminate ]. }
    assert (Hfx : forall j issue, In (FixAttempt j issue) (Reviewed i g c :: rest) ->
              is_success (fst (reviews w j)) = true
              /\ is_success (snd (reviews w j)) = true
              /\ exists l,
                   (gd <- the_data (fst (reviews w j)) ;;
                    cd <- the_data (snd (reviews w j)) ;;
                    find_consensus_issues gd cd) = Ok l /\ In issue l).
    { intros j issue [H | H]; [ discriminate | ].
      destruct (Hrest _ H) as [[avg Heq] | Hfix]; [ discriminate | ].
      destruct (fix_phase_kinds _ _ _ _ _ Hfix)
        as [[Heq _] | (x & l & [= -> ->] & Hg & Hc & Hl & Hin)]; [ discriminate | ].
      rewrite Hrev. cbn [fst snd]. split; [ exact Hg | split; [ exact Hc | ] ].
      now exists l. }
    destruct f as [ s1 | ].
    + intros [= <- <-]. now split.
    + destruct (loop w target m n (i + 1)) as [evs2 s2] eqn:Hloop.
      destruct (IH _ _ _ Hloop) as (Hsl2 & Hfx2).
      intros [= <- <-]. split.
      * intros j Hj. rewrite List.app_comm_cons in Hj.
        apply in_app_or in Hj. destruct Hj as [Hj | Hj];
          [ now apply Hsl | now apply Hsl2 ].
      * intros j issue Hj. rewrite List.app_comm_cons in Hj.
        apply in_app_or in Hj. destruct Hj as [Hj | Hj];
          [ now apply Hfx | now apply Hfx2 ].
Qed.

(** X6 (quick workflow, [main]): the loop reviews iterations 1, 2, ..., k
    in order and exactly once each, with k at most [max_iterations]; every
    logged event belongs to one of these iterations; the loop runs out of
    iterations only after exactly [max_iterations] reviews, and any other
    way of stopping happens after at least one review. *)
Theorem X6_quick_review_budget (w : world) (target : Q) (max_iterations : Z) :
  exists k,
    (k <= Z.to_nat max_iterations)%nat
    /\ List.map event_index
         (List.filter is_reviewed (fst (main w target max_iterations)))
       = iterations 1 k
    /\ (snd (main w target max_iterations) = LoopFinished ->
        k = Z.to_nat max_iterations)
    /\ (snd (main w target max_iterations) <> LoopFinished -> (1 <= k)%nat)
    /\ (forall e, In e (fst (main w target max_iterations)) ->
        1 <= event_index e <= Z.of_nat k).
Proof.
  unfold main.
  destruct (loop w target max_iterations (Z.to_nat max_iterations) 1)
    as [evs s] eqn:Hloop.
  destruct (quick_loop_budget _ _ _ _ _ _ _ Hloop) as (k & Hk & Hrev & Hfin & Hnot & Hrange).
  exists k. cbn [fst snd].
  split; [ exact Hk | split; [ exact Hrev | split; [ exact Hfin | split; [ exact Hnot | ] ] ] ].
  intros e He. specialize (Hrange e He). lia.
Qed.

(** X7 (quick workflow, [main]): the loop pauses only before a further
    iteration (a pause after iteration j means j < max_iterations); every
    repair call of iteration j is for a consensus issue of that iteration's
    two reviews, both of which succeeded; so with a tool missing no repair
    is ever attempted. *)
Theorem X7_quick_repairs (w : world) (target : Q) (max_iterations : Z) :
  (forall j, In (Slept j) (fst (main w target max_iterations)) ->
     j < max_iterations)
  /\ (forall j issue,
        In (FixAttempt j issue) (fst (main w target max_iterations)) ->
        is_success (fst (reviews w j)) = true
        /\ is_success (snd (reviews w j)) = true
        /\ exists l, quick_consensus w j = Ok l /\ In issue l)
  /\ (has_gemini w = false \/ has_codex w = false ->
      forall e, In e (fst (main w target max_iterations)) -> is_fix e = false).
Proof.
  unfold main.
  destruct (loop w target max_iterations (Z.to_nat max_iterations) 1)
    as [evs s] eqn:Hloop.
  destruct (quick_loop_repairs _ _ _ _ _ _ _ Hloop) as (Hsl & Hfx).
  cbn [fst]. split; [ exact Hsl | split; [ exact Hfx | ] ].
  intros Hmissing e He. destruct e as [ j g c | j avg | j issue | j ]; try reflexivity.
  destruct (Hfx _ _ He) as (Hg & Hc & _). exfalso.
  unfold reviews in Hg, Hc. cbn [fst snd] in Hg, Hc.
  destruct Hmissing as [H | H]; rewrite H in *; discriminate.
Qed.

(** Two tools that agree on one issue and score 5 against a target of 8:
    the first iteration attempts the repair and pauses, the second (and
    last) attempts it again and does not pause. *)
Lemma X7_quick_repairs_witness :
  (exists issue, In (FixAttempt 1 issue) (fst (main (quick_both issue_and_score_5) 8 2)))
  /\ In (Slept 1) (fst (main (quick_both issue_and_score_5) 8 2))
  /\ 1 < 2
  /\ is_success (fst (reviews (quick_both issue_and_score_5) 1)) = true
  /\ has_codex (quick_gemini_only score_8) = false
  /\ forall e, In e (fst (main (quick_gemini_only score_8) 9 2)) -> is_fix e = false.
Proof.
  destruct (X7_quick_repairs (quick_both issue_and_score_5) 8 2) as (Hsl & Hfx & _).
  destruct (X7_quick_repairs (quick_gemini_only score_8) 9 2) as (_ & _ & Hnone).
  assert (Hin : In (Slept 1) (fst (main (quick_both issue_and_score_5) 8 2)))
    by (vm_compute; tauto).
  split; [ | split; [ exact Hin | split; [ exact (Hsl 1 Hin) | ] ] ].
  - eexists. vm_compute. right. right. left. reflexivity.
  - assert (Hfix : exists issue,
               In (FixAttempt 1 issue) (fst (main (quick_both issue_and_score_5) 8 2))).
    { eexists. vm_compute. right. right. left. reflexivity. }
    destruct Hfix as (issue & Hissue).
    destruct (Hfx 1 issue Hissue) as (Hg & _).
    split; [ exact Hg | split; [ reflexivity | ] ].
    apply Hnone. now right.
Defined.

End QuickLoopMore.

(** ** The loop of the iterative workflow: history, pauses, repairs *)

Module IterativeMore.
Import Iterative Spec.

Lemma report_issues (g c : review_result) (i : Z) (rep : consensus) :
  generate_consensus_report g c i = Ok rep ->
  find_consensus g c = Ok (consensus_issues rep)
  /\ gemini_status rep = status g
  /\ codex_status rep = status c.
Proof.
  unfold generate_consensus_report.
  destruct (collect_scores g c); [ | discriminate ]. cbn [bind].
  destruct (average _); [ | discriminate ]. cbn [bind].
  destruct (find_consensus g c); [ | discriminate ]. cbn [bind].
  intros [= <-]. now repeat split.
Qed.

Lemma find_consensus_counts (g c : review_result) (l : list keyword_match) :
  find_consensus g c = Ok l -> l <> [] ->
  counted (status g) = true /\ counted (status c) = true.
Proof.
  unfold find_consensus, counts, counted.
  destruct (String.eqb (status g) "success" || String.eqb (status g) "partial");
    cbn [andb]; [ | intros [= <-]; congruence ].
  destruct (String.eqb (status c) "success" || String.eqb (status c) "partial");
    [ now split | intros [= <-]; congruence ].
Qed.

(** What one call of [run_iteration] adds to the history and to the log. *)
Lemma run_iteration_trace (w : world) (target : Q) (m i : Z) (t : tools)
  (st st1 : improver) (r : result consensus) :
  run_iteration w target m i t st = (r, st1) ->
  match r with
  | Raise _ => st1 = st
  | Ok c =>
      iteration c = i
      /\ review_history st1 = (review_history st ++ [c])%list
      /\ (consensus_issues c <> [] ->
          counted (gemini_status c) = true /\ counted (codex_status c) = true
          /\ gemini t = true /\ codex t = true)
      /\ exists fixes,
           log st1 = (log st ++ fixes)%list
           /\ forall e, In e fixes ->
                exists issue,
                  e = FixAttempt i issue /\ In issue (consensus_issues c)
                  /\ i < m /\ ~ converged target c
  end.
Proof.
  unfold run_iteration.
  set (g := if gemini t then _ else _). set (c := if codex t then _ else _).
  destruct (generate_consensus_report g c i) as [ rep | err ] eqn:Hrep;
    [ | now intros [= <- <-] ].
  pose proof (IterativeFacts.report_iteration _ _ _ _ Hrep) as Hi.
  destruct (report_issues _ _ _ _ Hrep) as (Hfind & Hgs & Hcs).
  assert (Htools : consensus_issues rep <> [] ->
            counted (gemini_status rep) = true /\ counted (codex_status rep) = true
            /\ gemini t = true /\ codex t = true).
  { intros Hne. destruct (find_consensus_counts _ _ _ Hfind Hne) as (Hg & Hc).
    rewrite Hgs, Hcs. split; [ exact Hg | split; [ exact Hc | ] ].
    subst g c. split.
    - destruct (gemini t); [ reflexivity | discriminate ].
    - destruct (codex t); [ reflexivity | discriminate ]. }
  destruct (Qle_bool target (average_score rep)) eqn:Hle.
  - intros [= <- <-]. cbn [append_history review_history log].
    split; [ exact Hi | split; [ reflexivity | split; [ exact Htools | ] ] ].
    exists []. split; [ now rewrite List.app_nil_r | intros e [] ].
  - assert (Hnc : ~ converged target rep).
    { unfold converged. rewrite <- Qle_bool_iff. congruence. }
    destruct (i <? m) eqn:Him.
    + apply Z.ltb_lt in Him. intros [= <- <-]. unfold apply_improvements.
      split; [ exact Hi | ].
      destruct (consensus_issues rep) as [ | issue issues ] eqn:Hissues;
        cbn [snd append_log append_history review_history log].
      * split; [ reflexivity | split; [ exact Htools | ] ].
        exists []. split; [ now rewrite List.app_nil_r | intros e [] ].
      * split; [ reflexivity | split; [ exact Htools | ] ].
        exists (List.map (FixAttempt i) (issue :: issues)).
        split; [ reflexivity | ].
        intros e He. apply in_map_iff in He. destruct He as (x & <- & Hx).
        exists x. now repeat split.
    + intros [= <- <-]. cbn [append_history review_history log].
      split; [ exact Hi | split; [ reflexivity | split; [ exact Htools | ] ] ].
      exists []. split; [ now rewrite List.app_nil_r | intros e [] ].
Qed.

Lemma iterative_loop_trace (w : world) (target : Q) (m : Z) (t : tools) (n : nat) :
  forall (i : Z) (st st' : improver) (s : stop),
  loop w target m t n i st = (s, st') ->
  exists (k : nat) (new : list consensus) (newlog : list event),
    (k <= n)%nat
    /\ review_history st' = (review_history st ++ new)%list
    /\ List.map iteration new = iterations i k
    /\ log st' = (log st ++ newlog)%list
    /\ (s = LoopFinished -> k = n)
    /\ (s = TargetReached -> (1 <= k)%nat)
    /\ (forall e, s = Uncaught e -> (k < n)%nat)
    /\ s <> NoTools
    /\ (forall j, In (Slept j) newlog -> i <= j < i + Z.of_nat k /\ j < m)
    /\ (forall j issue, In (FixAttempt j issue) newlog ->
          j < m
          /\ exists c, In c new /\ iteration c = j
                       /\ In issue (consensus_issues c)
                       /\ ~ converged target c)
    /\ (forall c, In c new -> consensus_issues c <> [] ->
          counted (gemini_status c) = true /\ counted (codex_status c) = true
          /\ gemini t = true /\ codex t = true).
Proof.
  induction n as [ | n IH ]; intros i st st' s; cbn [loop].
  - intros [= <- <-]. exists O, [], [].
    rewrite !List.app_nil_r.
    split; [ lia | split; [ reflexivity | split; [ reflexivity | ] ] ].
    split; [ reflexivity | split; [ reflexivity | split; [ discriminate | ] ] ].
    split; [ intros e; discriminate | split; [ discriminate | ] ].
    split; [ intros j [] | split; [ intros j issue [] | intros c [] ] ].
  - destruct (run_iteration w target m i t st) as [[ c | err ] st1] eqn:Hrun;
      pose proof (run_iteration_trace _ _ _ _ _ _ _ _ Hrun) as Htrace;
      cbn in Htrace.
    + destruct Htrace as (Hi & Hh & Htools & fixes & Hl & Hfixes).
      assert (Hnoslept : forall j, ~ In (Slept j) fixes).
      { intros j Hj. destruct (Hfixes _ Hj) as (x & Hx & _). discriminate. }
      assert (Hfix1 : forall j issue, In (FixAttempt j issue) fixes ->
                j = i /\ i < m /\ In issue (consensus_issues c)
                /\ ~ converged target c).
      { intros j issue Hj. destruct (Hfixes _ Hj) as (x & [= -> ->] & Hx & Hlt & Hnc).
        now repeat split. }
      destruct (Qle_bool target (average_score c)) eqn:Hle.
      * intros [= <- <-]. exists 1%nat, [c], fixes.
        split; [ lia | split; [ exact Hh | ] ].
        split; [ cbn [List.map]; rewrite QuickLoopMore.iterations_succ, Hi; reflexivity | ].
        split; [ exact Hl | split; [ discriminate | split; [ lia | ] ] ].
        split; [ discriminate | split; [ discriminate | ] ].
        split; [ intros j Hj; now destruct (Hnoslept j) | ].
        split.
        -- intros j issue Hj. destruct (Hfix1 _ _ Hj) as (-> & Hlt & Hin & Hnc).
           split; [ exact Hlt | ]. exists c. split; [ now left | now repeat split ].
        -- intros c' [<- | []]. exact Htools.
      * set (pause := if i <? m then [Slept i] else []).
        set (st2 := if i <? m then append_log [Slept i] st1 else st1).
        assert (Hst2 : review_history st2 = review_history st1
                       /\ log st2 = (log st1 ++ pause)%list).
        { subst st2 pause. destruct (i <? m); cbn [append_log review_history log];
            [ now split | now rewrite List.app_nil_r ]. }
        assert (Hpause : forall j, In (Slept j) pause -> j = i /\ i < m).
        { subst pause. intros j. destruct (i <? m) eqn:Him; [ | intros [] ].
          apply Z.ltb_lt in Him. intros [[= <-] | []]. now split. }
        assert (Hpause' : forall j issue, ~ In (FixAttempt j issue) pause).
        { subst pause. intros j issue. destruct (i <? m); [ | intros [] ].
          intros [H | []]. discriminate. }
        clearbody st2 pause. destruct Hst2 as (Hh2 & Hl2).
        intros Hloop.
        destruct (IH _ _ _ _ Hloop)
          as (k & new & newlog & Hk & Hh' & Hmap & Hl' & Hfin & Htr & Hunc & Hnt
              & Hsl & Hfx & Htl).
        exists (S k), (c :: new), (fixes ++ pause ++ newlog)%list.
        split; [ lia | ].
        split; [ rewrite Hh', Hh2, Hh, <- List.app_assoc; reflexivity | ].
        split; [ cbn [List.map]; rewrite QuickLoopMore.iterations_succ, Hi, Hmap;
                 reflexivity | ].
        split; [ rewrite Hl', Hl2, Hl, <- !List.app_assoc; reflexivity | ].
        split; [ intros Hs; now rewrite (Hfin Hs) | ].
        split; [ lia | ].
        split; [ intros e He; specialize (Hunc e He); lia | ].
        split; [ exact Hnt | ].
        split; [ | split ].
        -- intros j Hj. apply in_app_or in Hj. destruct Hj as [Hj | Hj];
             [ now destruct (Hnoslept j) | ].
           apply in_app_or in Hj. destruct Hj as [Hj | Hj].
           ++ destruct (Hpause j Hj) as (-> & Hlt). lia.
           ++ destruct (Hsl j Hj) as (Hr & Hlt). lia.
        -- intros j issue Hj. apply in_app_or in Hj. destruct Hj as [Hj | Hj].
           ++ destruct (Hfix1 _ _ Hj) as (-> & Hlt & Hin & Hnc).
              split; [ exact Hlt | ]. exists c. split; [ now left | now repeat split ].
           ++ apply in_app_or in Hj. destruct Hj as [Hj | Hj];
                [ now destruct (Hpause' j issue) | ].
              destruct (Hfx _ _ Hj) as (Hlt & c' & Hc' & Hrest).
              split; [ exact Hlt | ]. exists c'. split; [ now right | exact Hrest ].
        -- intros c' [<- | Hc']; [ exact Htools | now apply Htl ].
    + subst st1. intros [= <- <-]. exists O, [], [].
      rewrite !List.app_nil_r.
      split; [ lia | split; [ reflexivity | split; [ reflexivity | ] ] ].
      split; [ reflexivity | split; [ discriminate | split; [ discriminate | ] ] ].
      split; [ intros e _; lia | split; [ discriminate | ] ].
      split; [ intros j [] | split; [ intros j issue [] | intros c [] ] ].
Qed.

Lemma iterations_range (i : Z) (k : nat) (x : Z) :
  In x (iterations i k) -> i <= x < i + Z.of_nat k.
Proof.
  unfold iterations. intros H. apply in_map_iff in H.
  destruct H as (j & <- & Hj). apply List.in_seq in Hj. lia.
Qed.

Lemma iterations_length (i : Z) (k : nat) : List.length (iterations i k) = k.
Proof. unfold iterations. now rewrite List.length_map, List.length_seq. Qed.

Lemma final_report_some (target : Q) (st : improver)
  (hist : list consensus) (c : consensus) :
  review_history st = (hist ++ [c])%list ->
  generate_final_report target st
  = Some {| progress :=
              List.map (fun review =>
                          (average_score review,
                           Qle_bool target (average_score review)))
                       (hist ++ [c]);
            final_score := average_score c;
            improvement := (average_score c - average_score (List.hd c hist))%Q;
            reached := Qle_bool target (average_score c) |}.
Proof.
  unfold generate_final_report. intros ->.
  destruct hist as [ | first hist ]; [ reflexivity | ].
  cbn [List.app List.hd].
  change (first :: (hist ++ [c])%list) with ((first :: hist) ++ [c])%list.
  now rewrite List.last_last.
Qed.

(** X8 (iterative workflow, [run]): the history holds one report per
    completed iteration, numbered 1, 2, ..., k in order, with k at most
    [max_iterations]; without any tool nothing is reviewed or logged; the
    loop runs out of iterations only with exactly [max_iterations]
    reports; it reaches the target only with at least one report; and an
    iteration that raises leaves no report, so fewer than
    [max_iterations] are recorded. *)
Theorem X8_iterative_history (w : world) (target : Q) (max_iterations : Z)
  (t : tools) :
  exists k,
    (k <= Z.to_nat max_iterations)%nat
    /\ List.map iteration
         (review_history (snd (run w target max_iterations t)))
       = iterations 1 k
    /\ (fst (run w target max_iterations t) = NoTools <->
        gemini t = false /\ codex t = false)
    /\ (fst (run w target max_iterations t) = NoTools ->
        k = O /\ log (snd (run w target max_iterations t)) = [])
    /\ (fst (run w target max_iterations t) = LoopFinished ->
        k = Z.to_nat max_iterations)
    /\ (fst (run w target max_iterations t) = TargetReached -> (1 <= k)%nat)
    /\ (forall e, fst (run w target max_iterations t) = Uncaught e ->
        (k < Z.to_nat max_iterations)%nat).
Proof.
  unfold run.
  destruct (gemini t) eqn:Hg, (codex t) eqn:Hc; cbn [negb andb].
  4: { exists O. cbn [fst snd new_improver review_history log List.map].
       split; [ lia | split; [ reflexivity | ] ].
       split; [ now split | split; [ now split | ] ].
       split; [ discriminate | split; [ discriminate | intros e; discriminate ] ]. }
  all: destruct (loop w target max_iterations t (Z.to_nat max_iterations) 1
                   new_improver) as [s st] eqn:Hloop;
    destruct (iterative_loop_trace _ _ _ _ _ _ _ _ _ Hloop)
      as (k & new & newlog & Hk & Hh & Hmap & _ & Hfin & Htr & Hunc & Hnt & _);
    cbn [new_improver review_history List.app] in Hh;
    exists k; cbn [fst snd]; rewrite Hh;
    (split; [ exact Hk | split; [ exact Hmap | ] ]);
    (split; [ split; [ intros Hs; now destruct Hnt | intros [H1 H2]; discriminate ] | ]);
    (split; [ intros Hs; now destruct Hnt | ]);
    (split; [ exact Hfin | split; [ exact Htr | exact Hunc ] ]).
Qed.

(** X9 (iterative workflow, [run]): pauses and repair calls happen only
    in iterations 1 .. max_iterations - 1, so never in the last one; every
    repair call of iteration j is for a consensus issue of the report
    recorded for iteration j, whose average missed the target and whose
    two reviews both counted (status success or partial); with one tool
    missing no repair is ever attempted. *)
Theorem X9_iterative_repairs (w : world) (target : Q) (max_iterations : Z)
  (t : tools) :
  (forall j, In (Slept j) (log (snd (run w target max_iterations t))) ->
     1 <= j < max_iterations)
  /\ (forall j issue,
        In (FixAttempt j issue) (log (snd (run w target max_iterations t))) ->
        1 <= j < max_iterations
        /\ exists c,
             In c (review_history (snd (run w target max_iterations t)))
             /\ iteration c = j
             /\ In issue (consensus_issues c)
             /\ ~ converged target c
             /\ counted (gemini_status c) = true
             /\ counted (codex_status c) = true)
  /\ (gemini t = false \/ codex t = false ->
      forall j issue,
        ~ In (FixAttempt j issue) (log (snd (run w target max_iterations t)))).
Proof.
  unfold run.
  destruct (negb (gemini t) && negb (codex t)).
  - cbn [snd new_improver log review_history].
    split; [ intros j [] | split; [ intros j issue [] | intros _ j issue [] ] ].
  - destruct (loop w target max_iterations t (Z.to_nat max_iterations) 1
                new_improver) as [s st] eqn:Hloop.
    destruct (iterative_loop_trace _ _ _ _ _ _ _ _ _ Hloop)
      as (k & new & newlog & Hk & Hh & Hmap & Hl & _ & _ & _ & _ & Hsl & Hfx & Htl).
    cbn [new_improver review_history log List.app] in Hh, Hl.
    cbn [snd]. rewrite Hh, Hl.
    assert (Hall : forall j issue, In (FixAttempt j issue) newlog ->
              1 <= j < max_iterations
              /\ exists c, In c new /\ iteration c = j
                   /\ In issue (consensus_issues c) /\ ~ converged target c
                   /\ counted (gemini_status c) = true
                   /\ counted (codex_status c) = true
                   /\ gemini t = true /\ codex t = true).
    { intros j issue Hj. destruct (Hfx _ _ Hj) as (Hlt & c & Hc & Hi & Hin & Hnc).
      assert (Hne : consensus_issues c <> []) by (intros E; rewrite E in Hin; destruct Hin).
      destruct (Htl c Hc Hne) as (Hgs & Hcs & Hg & Hcx).
      assert (Hr : In (iteration c) (iterations 1 k))
        by (rewrite <- Hmap; now apply List.in_map).
      apply iterations_range in Hr.
      split; [ lia | ]. exists c. now repeat split. }
    split; [ | split ].
    + intros j Hj. destruct (Hsl j Hj) as (Hr & Hlt). lia.
    + intros j issue Hj. destruct (Hall _ _ Hj) as (Hr & c & Hc & Hi & Hin & Hnc & Hgs & Hcs & _).
      split; [ exact Hr | ]. exists c. now repeat split.
    + intros Hmissing j issue Hj.
      destruct (Hall _ _ Hj) as (_ & c & _ & _ & _ & _ & _ & _ & Hg & Hcx).
      destruct Hmissing as [H | H]; congruence.
Qed.

(** Two tools that report the same hard-coded device and score 5 against
    a target of 8, for two iterations: the first repairs and pauses, the
    last does neither. *)
Lemma X9_iterative_repairs_witness :
  (exists issue,
     In (FixAttempt 1 issue)
        (log (snd (run (both_answer device_and_score_5) 8 2 both_tools))))
  /\ In (Slept 1) (log (snd (run (both_answer device_and_score_5) 8 2 both_tools)))
  /\ 1 <= 1 < 2
  /\ codex gemini_only_tools = false
  /\ forall j issue,
       ~ In (FixAttempt j issue)
            (log (snd (run (gemini_only score_8) 9 2 gemini_only_tools))).
Proof.
  destruct (X9_iterative_repairs (both_answer device_and_score_5) 8 2 both_tools)
    as (Hsl & _ & _).
  destruct (X9_iterative_repairs (gemini_only score_8) 9 2 gemini_only_tools)
    as (_ & _ & Hnone).
  assert (Hin : In (Slept 1)
                   (log (snd (run (both_answer device_and_score_5) 8 2 both_tools))))
    by (vm_compute; tauto).
  split; [ eexists; vm_compute; left; reflexivity | ].
  split; [ exact Hin | split; [ exact (Hsl 1 Hin) | split; [ reflexivity | ] ] ].
  apply Hnone. now right.
Defined.

(** X10 (iterative workflow, [run] then [generate_final_report]): there
    is no final report exactly when the history is empty; after the loop
    ran out of a positive number of iterations the report has one progress
    line per iteration, none marked as reaching the target, and says the
    target was missed; after the loop stopped on the target the report
    says it was reached, and the last progress line is the only one marked
    so. *)
Theorem X10_final_report (w : world) (target : Q) (max_iterations : Z)
  (t : tools) :
  (generate_final_report target (snd (run w target max_iterations t)) = None <->
   review_history (snd (run w target max_iterations t)) = [])
  /\ (fst (run w target max_iterations t) = LoopFinished ->
      max_iterations <= 0 ->
      generate_final_report target (snd (run w target max_iterations t)) = None)
  /\ (fst (run w target max_iterations t) = LoopFinished ->
      0 < max_iterations ->
      exists rep,
        generate_final_report target (snd (run w target max_iterations t))
        = Some rep
        /\ reached rep = false
        /\ List.length (progress rep) = Z.to_nat max_iterations
        /\ forall p, In p (progress rep) -> snd p = false)
  /\ (fst (run w target max_iterations t) = TargetReached ->
      exists rep earlier,
        generate_final_report target (snd (run w target max_iterations t))
        = Some rep
        /\ reached rep = true
        /\ progress rep = (earlier ++ [(final_score rep, true)])%list
        /\ forall p, In p earlier -> snd p = false).
Proof.
  split.
  { unfold generate_final_report.
    destruct (review_history (snd (run w target max_iterations t)));
      split; congruence. }
  unfold run.
  destruct (negb (gemini t) && negb (codex t)).
  { cbn [fst snd]. split; [ discriminate | split; discriminate ]. }
  destruct (loop w target max_iterations t (Z.to_nat max_iterations) 1
              new_improver) as [s st] eqn:Hloop.
  destruct (iterative_loop_trace _ _ _ _ _ _ _ _ _ Hloop)
    as (k & new & newlog & Hk & Hh & Hmap & _ & Hfin & _).
  cbn [new_improver review_history List.app] in Hh.
  assert (Hs := IterativeFacts.loop_spec w target max_iterations t _ _ _ _ s
                  (fun c (H : In c (review_history new_improver)) =>
                     match H return ~ converged target c with end)
                  (fun j issue (H : In (FixAttempt j issue) (log new_improver)) =>
                     match H return j < 1 with end)
                  Hloop).
  assert (Hlen : List.length new = k).
  { rewrite <- (List.length_map iteration), Hmap. apply iterations_length. }
  assert (Hflag : forall c, ~ converged target c ->
            Qle_bool target (average_score c) = false).
  { intros c Hc. destruct (Qle_bool target (average_score c)) eqn:E; [ | reflexivity ].
    apply Qle_bool_iff in E. now destruct Hc. }
  cbn [fst snd]. split; [ | split ].
  - intros -> Hm. unfold generate_final_report. rewrite Hh.
    destruct new; [ reflexivity | ]. cbn [List.length] in Hlen. lia.
  - intros -> Hm. cbn in Hs. rewrite (Hfin eq_refl) in Hlen.
    destruct (List.exists_last (l := new)) as (hist & c & Hnew).
    { intros ->. cbn [List.length] in Hlen. lia. }
    rewrite Hnew in *. rewrite (final_report_some target st hist c Hh).
    eexists. split; [ reflexivity | ]. cbn [reached progress].
    rewrite Hh in Hs.
    split; [ apply Hflag, Hs, in_or_app; right; now left | ].
    split; [ now rewrite List.length_map | ].
    intros p Hp. apply in_map_iff in Hp. destruct Hp as (c' & <- & Hc').
    cbn [snd]. now apply Hflag, Hs.
  - intros ->. destruct Hs as (hist & c & Hhist & Hconv & Hearlier & _).
    rewrite (final_report_some target st hist c Hhist).
    assert (Hc : Qle_bool target (average_score c) = true) by now apply Qle_bool_iff.
    eexists. exists (List.map (fun review =>
                        (average_score review,
                         Qle_bool target (average_score review))) hist).
    split; [ reflexivity | ]. cbn [reached progress final_score].
    split; [ exact Hc | ].
    split; [ rewrite List.map_app; cbn [List.map]; now rewrite Hc | ].
    intros p Hp. apply in_map_iff in Hp. destruct Hp as (c' & <- & Hc').
    cbn [snd]. now apply Hflag, Hearlier.
Qed.

(** One tool that scores 8 against a target of 9 for two iterations, and
    against a target of 8. *)
Lemma X10_final_report_witness :
  (exists rep,
     generate_final_report 9 (snd (run (gemini_only score_8) 9 2 gemini_only_tools))
     = Some rep
     /\ reached rep = false
     /\ List.length (progress rep) = Z.to_nat 2
     /\ forall p, In p (progress rep) -> snd p = false)
  /\ (exists rep earlier,
        generate_final_report 8 (snd (run (gemini_only score_8) 8 2 gemini_only_tools))
        = Some rep
        /\ reached rep = true
        /\ progress rep = (earlier ++ [(final_score rep, true)])%list
        /\ forall p, In p earlier -> snd p = false).
Proof.
  destruct (X10_final_report (gemini_only score_8) 9 2 gemini_only_tools)
    as (_ & _ & Hmissed & _).
  destruct (X10_final_report (gemini_only score_8) 8 2 gemini_only_tools)
    as (_ & _ & _ & Hreached).
  split; [ apply Hmissed; [ vm_compute; reflexivity | lia ] | ].
  apply Hreached. vm_compute. reflexivity.
Defined.

End IterativeMore.

(** ** The review results of the iterative workflow and the report on them *)

Module IterativeReviewMore.
Import Iterative Spec.

Lemma decode_well_formed (t json_str output : string) :
  iterative_well_formed t (decode t json_str output)
  /\ status (decode t json_str output) <> "skipped"
  /\ (status (decode t json_str output) = "partial" ->
      data (decode t json_str output) = Some (parse_text_review output)).
Proof.
  unfold decode, iterative_well_formed.
  destruct (loads json_str) as [ d | err ].
  - destruct d; cbn [attr_get];
      try (split; [ split; [ reflexivity | right; right; left; now repeat split ]
                  | split; discriminate ]).
    split; [ split; [ reflexivity | left ] | split; discriminate ].
    split; [ reflexivity | split; [ now eexists | now split ] ].
  - destruct err;
      try (split; [ split; [ reflexivity | right; right; left; now repeat split ]
                  | split; discriminate ]).
    split; [ split; [ reflexivity | right; left ] | split; [ discriminate | reflexivity ] ].
    split; [ reflexivity | split; [ now exists output | reflexivity ] ].
Qed.

Lemma failed_well_formed (t : string) (e : error_detail) :
  iterative_well_formed t (failed t e)
  /\ status (failed t e) <> "skipped"
  /\ (status (failed t e) = "partial" -> False).
Proof.
  unfold iterative_well_formed.
  split; [ split; [ reflexivity | right; right; left; now repeat split ] | ].
  split; discriminate.
Qed.

(** The shape of what the two review methods return. *)
Lemma review_shapes (run : result completed) :
  iterative_well_formed "gemini" (run_gemini_review run)
  /\ iterative_well_formed "codex" (run_codex_review run)
  /\ status (run_gemini_review run) <> "skipped"
  /\ status (run_codex_review run) <> "skipped"
  /\ (forall p, run = Ok p ->
        (status (run_gemini_review run) = "partial" ->
         data (run_gemini_review run) = Some (parse_text_review (stdout p)))
        /\ (status (run_codex_review run) = "partial" ->
            data (run_codex_review run)
            = Some (parse_text_review (stdout p ++ stderr p)))).
Proof.
  unfold run_gemini_review, run_codex_review.
  destruct run as [ p | err ].
  - pose proof (decode_well_formed "gemini" (gemini_json_str (stdout p)) (stdout p))
      as (Hg1 & Hg2 & Hg3).
    pose proof (decode_well_formed "codex" (codex_json_str (stdout p ++ stderr p))
                  (stdout p ++ stderr p)) as (Hc1 & Hc2 & Hc3).
    pose proof (failed_well_formed "gemini" (Stderr (stderr p))) as (Hf1 & Hf2 & Hf3).
    pose proof (failed_well_formed "codex" RequiresPlus) as (Hp1 & Hp2 & Hp3).
    cbv zeta.
    destruct (returncode p =? 0), (contains plus_marker (stdout p ++ stderr p));
      (split; [ assumption | split; [ assumption | split; [ assumption | ] ] ]);
      (split; [ assumption | ]);
      intros p' [= <-]; split; first [ assumption | intros H; now exfalso ].
  - assert (Hg : forall e, iterative_well_formed "gemini" (failed "gemini" e))
      by (intros e; apply failed_well_formed).
    assert (Hc : forall e, iterative_well_formed "codex" (failed "codex" e))
      by (intros e; apply failed_well_formed).
    destruct err;
      (split; [ apply Hg | split; [ apply Hc | ] ]);
      (split; [ discriminate | split; [ discriminate | intros p; discriminate ] ]).
Qed.

(** X11 (iterative workflow, review methods): whatever the process does,
    each review method returns a well-formed result for its own tool, and
    never the status skipped: data is present exactly on success (a
    decoded dict) and on partial, where it is what [parse_text_review]
    mines from the text that failed to decode: the standard output for
    Gemini, standard output followed by standard error for Codex. *)
Theorem X11_iterative_review_shape (run : result completed) :
  iterative_well_formed "gemini" (run_gemini_review run)
  /\ iterative_well_formed "codex" (run_codex_review run)
  /\ status (run_gemini_review run) <> "skipped"
  /\ status (run_codex_review run) <> "skipped"
  /\ (forall p, run = Ok p ->
        (status (run_gemini_review run) = "partial" ->
         data (run_gemini_review run) = Some (parse_text_review (stdout p)))
        /\ (status (run_codex_review run) = "partial" ->
            data (run_codex_review run)
            = Some (parse_text_review (stdout p ++ stderr p)))).
Proof. exact (review_shapes run). Qed.

Lemma parsed_score (raw : string) (d : json) :
  attr_get (parse_text_review raw) "overall_score" d
  = Ok (JFloat (avg_score (score_texts raw))).
Proof. reflexivity. Qed.

Lemma parsed_issues (raw : string) (d : json) :
  attr_get (parse_text_review raw) "critical_issues" d
  = Ok (JArr (List.firstn 5 (List.map text_issue (severity_matches raw)))).
Proof. reflexivity. Qed.

Lemma pair_entries_length (g c : json) : (List.length (pair_entries g c) <= 1)%nat.
Proof.
  unfold pair_entries. destruct (first_keyword _ _ _); cbn [List.length]; lia.
Qed.

Lemma flat_map_length_bound {A B : Type} (f : A -> list B) (l : list A) (n : nat) :
  (forall a, In a l -> (List.length (f a) <= n)%nat) ->
  (List.length (List.flat_map f l) <= List.length l * n)%nat.
Proof.
  induction l as [ | a l IH ]; intros H; cbn [List.flat_map List.length]; [ lia | ].
  rewrite List.length_app.
  pose proof (H a (or_introl eq_refl)) as Ha.
  assert (Hl : (List.length (List.flat_map f l) <= List.length l * n)%nat)
    by (apply IH; intros b Hb; apply H; now right).
  lia.
Qed.

Lemma flat_map_length_exact {A B : Type} (f : A -> list B) (l : list A) (n : nat) :
  (forall a, In a l -> List.length (f a) = n) ->
  List.length (List.flat_map f l) = (List.length l * n)%nat.
Proof.
  induction l as [ | a l IH ]; intros H; cbn [List.flat_map List.length]; [ lia | ].
  rewrite List.length_app, (H a (or_introl eq_refl)), IH; [ lia | ].
  intros b Hb. apply H. now right.
Qed.

Lemma keyword_consensus_length (gs cs : list json) :
  (List.length (keyword_consensus gs cs) <= List.length gs * List.length cs)%nat.
Proof.
  unfold keyword_consensus. apply flat_map_length_bound. intros g _.
  replace (List.length cs) with (List.length cs * 1)%nat by lia.
  apply flat_map_length_bound. intros c _. apply pair_entries_length.
Qed.

(** A well-formed review without the status success either does not
    count or carries mined data. *)
Lemma not_success_cases (t : string) (r : review_result) :
  iterative_well_formed t r -> status r <> "success" ->
  (counts r = false)
  \/ (counts r = true /\ exists raw, data r = Some (parse_text_review raw)).
Proof.
  unfold iterative_well_formed, counts.
  intros (_ & [ (Hs & _) | [ (Hs & (raw & _ & Hd) & _) | [ (Hs & _) | (Hs & _) ] ] ]) Hns.
  - now destruct Hns.
  - right. rewrite Hs. split; [ reflexivity | now exists raw ].
  - left. now rewrite Hs.
  - left. now rewrite Hs.
Qed.

Lemma mean_one_nonneg (q : Q) : (0 <= q)%Q -> (0 <= (0 + q) / inject_Z 1)%Q.
Proof.
  intros H. apply Qle_shift_div_l; [ reflexivity | ].
  rewrite Qmult_0_l, Qplus_0_l. exact H.
Qed.

Lemma mean_two_nonneg (a b : Q) :
  (0 <= a)%Q -> (0 <= b)%Q -> (0 <= (0 + a + b) / inject_Z 2)%Q.
Proof.
  intros Ha Hb. apply Qle_shift_div_l; [ reflexivity | ].
  rewrite Qmult_0_l, Qplus_0_l.
  apply (Qplus_le_compat 0 a 0 b Ha Hb).
Qed.

(** X12 (iterative workflow, [generate_consensus_report]): when neither
    review decoded as JSON (each is a text fallback, failed or skipped),
    the report is always produced: nothing raises, the average is not
    negative, there is one score per review that counts, and there are at
    most 25 consensus issues (five mined issues a side). *)
Theorem X12_text_fallback_accepted (tg tc : string) (g c : review_result) (i : Z) :
  iterative_well_formed tg g -> iterative_well_formed tc c ->
  status g <> "success" -> status c <> "success" ->
  exists rep,
    generate_consensus_report g c i = Ok rep
    /\ (0 <= average_score rep)%Q
    /\ List.length (scores rep) = List.length (List.filter counts [g; c])
    /\ (List.length (consensus_issues rep) <= 25)%nat.
Proof.
  intros Hg Hc Hgs Hcs.
  unfold generate_consensus_report, collect_scores, find_consensus, data_get.
  cbn [List.filter].
  destruct (not_success_cases _ _ Hg Hgs) as [ Hng | (Hyg & rg & Hdg) ];
    destruct (not_success_cases _ _ Hc Hcs) as [ Hnc | (Hyc & rc & Hdc) ];
    rewrite ?Hng, ?Hnc, ?Hyg, ?Hyc, ?Hdg, ?Hdc, ?parsed_score, ?parsed_issues;
    cbn [andb bind List.app List.map snd average mean sum sum_from num_of
         len iter List.length];
    eexists; (split; [ reflexivity | ]);
    cbn [average_score scores consensus_issues List.length].
  - split; [ apply Qle_refl | split; [ reflexivity | lia ] ].
  - split; [ apply mean_one_nonneg, TextFacts.avg_score_nonneg | ].
    split; [ reflexivity | lia ].
  - split; [ apply mean_one_nonneg, TextFacts.avg_score_nonneg | ].
    split; [ reflexivity | lia ].
  - split; [ apply mean_two_nonneg; apply TextFacts.avg_score_nonneg | ].
    split; [ reflexivity | ].
    etransitivity; [ apply keyword_consensus_length | ].
    rewrite !List.length_firstn.
    pose proof (Nat.le_min_l 5 (List.length (List.map text_issue (severity_matches rg)))).
    pose proof (Nat.le_min_l 5 (List.length (List.map text_issue (severity_matches rc)))).
    nia.
Qed.

Lemma X12_text_fallback_accepted_witness :
  exists rep,
    generate_consensus_report
      (run_gemini_review (answer "Score: 7/10. HIGH: cuda device is hard-coded"))
      (run_codex_review (answer "score 6/10, high: hard-coded device"))
      1 = Ok rep
    /\ (0 <= average_score rep)%Q
    /\ List.length (scores rep)
       = List.length
           (List.filter counts
              [run_gemini_review (answer "Score: 7/10. HIGH: cuda device is hard-coded");
               run_codex_review (answer "score 6/10, high: hard-coded device")])
    /\ (List.length (consensus_issues rep) <= 25)%nat.
Proof.
  apply (X12_text_fallback_accepted "gemini" "codex").
  - apply review_shapes.
  - apply review_shapes.
  - vm_compute. discriminate.
  - vm_compute. discriminate.
Defined.

(** A well-formed review that counts answers the score lookup. *)
Lemma counted_score (t : string) (r : review_result) (d : json) :
  iterative_well_formed t r -> counts r = true ->
  exists x, data_get r "overall_score" d = Ok x.
Proof.
  unfold iterative_well_formed, counts, data_get.
  intros (_ & [ (_ & (o & ->) & _) | [ (_ & (raw & _ & ->) & _) | [ (Hs & _) | (Hs & _) ] ] ]).
  - intros _. now eexists.
  - intros _. now eexists.
  - rewrite Hs. discriminate.
  - rewrite Hs. discriminate.
Qed.

Lemma report_type_error (tg tc : string) (g c : review_result) (i : Z) :
  iterative_well_formed tg g -> iterative_well_formed tc c ->
  (counts g = true /\ (exists o, data g = Some (JObj o)) /\ score_of (data g) = None)
  \/ (counts c = true /\ (exists o, data c = Some (JObj o)) /\ score_of (data c) = None) ->
  generate_consensus_report g c i = Raise TypeError.
Proof.
  intros Hg Hc Hbad.
  unfold generate_consensus_report, collect_scores.
  destruct Hbad as [ (Hcg & (o & Hd) & Hnone) | (Hcc & (o & Hd) & Hnone) ].
  - rewrite Hcg. unfold data_get at 1. rewrite Hd in *. cbn [score_of] in Hnone.
    cbn [attr_get bind].
    destruct (counts c) eqn:Hcc.
    + destruct (counted_score _ _ (JInt 0) Hc Hcc) as (x & ->).
      cbn [bind List.app List.map snd average]. unfold mean, sum.
      cbn [sum_from]. now rewrite Hnone.
    + cbn [bind List.app List.map snd average]. unfold mean, sum.
      cbn [sum_from]. now rewrite Hnone.
  - rewrite Hcc. unfold data_get at 2. rewrite Hd in *. cbn [score_of] in Hnone.
    cbn [attr_get bind].
    destruct (counts g) eqn:Hcg.
    + destruct (counted_score _ _ (JInt 0) Hg Hcg) as (x & ->).
      cbn [bind List.app List.map snd average]. unfold mean, sum.
      cbn [sum_from].
      destruct (num_of x); [ now rewrite Hnone | reflexivity ].
    + cbn [bind List.app List.map snd average]. unfold mean, sum.
      cbn [sum_from]. now rewrite Hnone.
Qed.

(** X13 (iterative workflow, [run]): a first review that decodes to a
    dict whose overall score is not a number (a string, null, a list)
    makes the mean raise TypeError; nothing catches it, so the run ends in
    its first iteration with an empty history and an empty log. *)
Theorem X13_score_not_a_number (w : world) (target : Q) (max_iterations : Z)
  (t : tools) :
  0 < max_iterations ->
  (gemini t = true
   /\ status (run_gemini_review (gemini_run w 1)) = "success"
   /\ score_of (data (run_gemini_review (gemini_run w 1))) = None)
  \/ (codex t = true
      /\ status (run_codex_review (codex_run w 1)) = "success"
      /\ score_of (data (run_codex_review (codex_run w 1))) = None) ->
  run w target max_iterations t = (Uncaught TypeError, new_improver).
Proof.
  intros Hm Hbad. unfold run.
  assert (Htools : negb (gemini t) && negb (codex t) = false).
  { destruct Hbad as [ (-> & _) | (-> & _) ]; [ reflexivity | ].
    now destruct (gemini t). }
  rewrite Htools.
  destruct (Z.to_nat max_iterations) as [ | n ] eqn:Hn; [ lia | ].
  cbn [loop]. unfold run_iteration.
  set (g := if gemini t then _ else _). set (c := if codex t then _ else _).
  assert (Hg : iterative_well_formed "gemini" g).
  { subst g. destruct (gemini t); [ apply review_shapes | ].
    split; [ reflexivity | right; right; right; now repeat split ]. }
  assert (Hc : iterative_well_formed "codex" c).
  { subst c. destruct (codex t); [ apply review_shapes | ].
    split; [ reflexivity | right; right; right; now repeat split ]. }
  assert (Hdict : forall tl r, iterative_well_formed tl r -> status r = "success" ->
            counts r = true /\ exists o, data r = Some (JObj o)).
  { intros tl r (_ & [ (_ & Hd & _) | [ (Hs & _) | [ (Hs & _) | (Hs & _) ] ] ]) Hst;
      try (rewrite Hs in Hst; discriminate).
    unfold counts. rewrite Hst. now split. }
  rewrite (report_type_error _ _ g c 1 Hg Hc); [ reflexivity | ].
  destruct Hbad as [ (Ht & Hs & Hnone) | (Ht & Hs & Hnone) ]; [ left | right ].
  - subst g. rewrite Ht in *. destruct (Hdict _ _ Hg Hs) as (Hcnt & Hd). now repeat split.
  - subst c. rewrite Ht in *. destruct (Hdict _ _ Hc Hs) as (Hcnt & Hd). now repeat split.
Qed.

Lemma X13_score_not_a_number_witness :
  run (gemini_only score_not_a_number) 8 3 gemini_only_tools
  = (Uncaught TypeError, new_improver).
Proof.
  apply X13_score_not_a_number; [ lia | left ].
  split; [ reflexivity | split; vm_compute; reflexivity ].
Defined.

(** X14 (iterative workflow, consensus by keyword): the consensus list
    has one entry per matching pair and nothing is merged: it has at most
    as many entries as there are pairs of issues, none when either side
    is empty or no pair shares a keyword, and exactly one per pair when
    every pair shares a keyword, so a single issue can be reported, and
    later repaired, once per issue of the other tool. *)
Theorem X14_keyword_consensus_size (gs cs : list json) :
  (List.length (keyword_consensus gs cs) <= List.length gs * List.length cs)%nat
  /\ (gs = [] \/ cs = [] -> keyword_consensus gs cs = [])
  /\ ((forall g c, In g gs -> In c cs -> pair_entries g c = []) ->
      keyword_consensus gs cs = [])
  /\ ((forall g c, In g gs -> In c cs -> pair_entries g c <> []) ->
      List.length (keyword_consensus gs cs)
      = (List.length gs * List.length cs)%nat).
Proof.
  split; [ apply keyword_consensus_length | ].
  assert (Hnone : (forall g c, In g gs -> In c cs -> pair_entries g c = []) ->
                  keyword_consensus gs cs = []).
  { intros H. apply List.length_zero_iff_nil. unfold keyword_consensus.
    rewrite (flat_map_length_exact _ gs 0); [ lia | ].
    intros g Hg. rewrite (flat_map_length_exact _ cs 0); [ lia | ].
    intros c Hc. now rewrite (H g c Hg Hc). }
  split; [ | split; [ exact Hnone | ] ].
  - intros [ -> | -> ]; apply Hnone; intros g c; [ intros [] | intros _ [] ].
  - intros H. unfold keyword_consensus.
    apply flat_map_length_exact. intros g Hg.
    replace (List.length cs) with (List.length cs * 1)%nat by lia.
    apply flat_map_length_exact. intros c Hc.
    pose proof (pair_entries_length g c).
    specialize (H g c Hg Hc).
    destruct (pair_entries g c) as [ | e [ | e' l ] ]; cbn [List.length] in *;
      [ congruence | reflexivity | lia ].
Qed.

Lemma X14_keyword_consensus_size_witness :
  List.length (keyword_consensus device_issues gpu_issues) = (2 * 2)%nat
  /\ keyword_consensus device_issues [] = [].
Proof.
  destruct (X14_keyword_consensus_size device_issues gpu_issues) as (_ & _ & _ & Hall).
  destruct (X14_keyword_consensus_size device_issues []) as (_ & Hempty & _).
  split; [ | apply Hempty; now right ].
  apply Hall. intros g c Hg Hc.
  destruct Hg as [ <- | [ <- | [] ] ]; destruct Hc as [ <- | [ <- | [] ] ];
    vm_compute; discriminate.
Defined.

End IterativeReviewMore.

(** ** The directory review and what the aggregation passes over *)

Module WorkflowMore.
Import Workflow Spec.

Lemma aggregate_keeps_reviews (rs : list review) (d : string) (rep : report) :
  _aggregate_reviews rs d = Ok rep ->
  reviews rep = rs /\ directory rep = d
  /\ total_files (report_summary rep) = List.length rs.
Proof.
  unfold _aggregate_reviews. destruct (collect rs) as [sc iss].
  destruct (match sc with [] => Ok 0%Q | _ => mean sc end); [ | discriminate ].
  cbn [bind].
  destruct (count_severity "critical" iss); [ | discriminate ]. cbn [bind].
  destruct (count_severity "high" iss); [ | discriminate ]. cbn [bind].
  destruct (count_severity "medium" iss); [ | discriminate ]. cbn [bind].
  destruct (count_severity "low" iss); [ | discriminate ]. cbn [bind].
  intros [= <-]. now repeat split.
Qed.

Lemma files_to_review_spec (w : world) (patterns : list string) (f p : string) :
  In f (files_to_review w patterns) -> In p patterns -> path_match w f p = false.
Proof.
  unfold files_to_review. intros Hf Hp. apply List.filter_In in Hf.
  destruct Hf as (_ & Hf). apply Bool.negb_true_iff in Hf.
  destruct (path_match w f p) eqn:E; [ | reflexivity ].
  assert (Hex : List.existsb (path_match w f) patterns = true)
    by (apply List.existsb_exists; now exists p).
  congruence.
Qed.

Lemma initialize_cases (secrets : LlmUtils.config_file) (construct : result unit) :
  (api_key_of secrets = None ->
   _initialize_gemini_client secrets construct = Raise ValueError)
  /\ (forall k, api_key_of secrets = Some k -> LlmUtils.truthy k = false ->
        _initialize_gemini_client secrets construct = Raise ValueError)
  /\ (forall s, api_key_of secrets = Some (JStr s) -> strip s = "" ->
        _initialize_gemini_client secrets construct = Raise ValueError)
  /\ (forall k, api_key_of secrets = Some k -> LlmUtils.truthy k = true ->
        (forall s, k <> JStr s) ->
        _initialize_gemini_client secrets construct = Raise AttributeError)
  /\ (forall s, api_key_of secrets = Some (JStr s) -> strip s <> "" ->
        _initialize_gemini_client secrets construct = construct).
Proof.
  unfold _initialize_gemini_client.
  split; [ now intros -> | ].
  split; [ now intros k -> -> | ].
  split.
  { intros s -> Hs. cbn [LlmUtils.truthy LlmUtils.str_strip bind].
    destruct (String.eqb s ""); [ reflexivity | ]. cbn [negb].
    now rewrite Hs. }
  split.
  { intros k -> Ht Hk. rewrite Ht. cbn [negb].
    destruct k; try reflexivity. now destruct (Hk s). }
  intros s -> Hs. cbn [LlmUtils.truthy LlmUtils.str_strip bind].
  destruct (String.eqb s "") eqn:He.
  - apply String.eqb_eq in He. subst s. now destruct Hs.
  - cbn [negb]. apply String.eqb_neq in Hs. now rewrite Hs.
Qed.



Lemma absorb_review_passed_over (acc : list json * list json) (r : review) :
  status r = "success" -> passed_over r -> absorb_review acc r = acc.
Proof.
  intros Hs [ Hns | [ Hnone | (text & Htext & Hcase) ] ].
  - now destruct Hns.
  - unfold absorb_review. now rewrite Hnone.
  - unfold absorb_review. rewrite Htext.
    destruct Hcase as [ Hlt | [ Hle | (e & He) ] ].
    + assert (H0 : (0 <=? find "{" text) = false) by (apply Z.leb_gt; lia).
      now rewrite H0.
    + assert (H1 : (find "{" text <? rfind "}" text + 1) = false)
        by (apply Z.ltb_ge; lia).
      rewrite H1. now rewrite Bool.andb_false_r.
    + rewrite He. now destruct (_ && _).
Qed.

Lemma collect_passed_over (rs1 rs2 : list review) (r : review) :
  passed_over r -> collect (rs1 ++ r :: rs2) = collect (rs1 ++ rs2).
Proof.
  intros Hr. unfold collect. rewrite !List.filter_app. cbn [List.filter].
  destruct (is_status "success" r) eqn:Hs; [ | reflexivity ].
  rewrite !List.fold_left_app. cbn [List.fold_left].
  rewrite absorb_review_passed_over; [ reflexivity | | exact Hr ].
  unfold is_status in Hs. now apply String.eqb_eq in Hs.
Qed.

(** X16 ([_aggregate_reviews]): a review that is not successful, has no
    text, has no brace-delimited part, or whose brace-delimited part does
    not decode, is passed over in silence: with or without it the
    aggregation gives the same scores, issues, average and severity
    counts (or raises alike); it is still counted as a file. *)
Theorem X16_passed_over_review (rs1 rs2 : list review) (r : review)
  (directory_path : string) :
  passed_over r ->
  collect (rs1 ++ r :: rs2) = collect (rs1 ++ rs2)
  /\ match _aggregate_reviews (rs1 ++ r :: rs2) directory_path,
           _aggregate_reviews (rs1 ++ rs2) directory_path with
     | Ok rep, Ok rep' =>
         let s := report_summary rep in
         let s' := report_summary rep' in
         total_files s = S (total_files s')
         /\ average_score s = average_score s'
         /\ total_issues s = total_issues s'
         /\ critical_issues s = critical_issues s'
         /\ high_issues s = high_issues s'
         /\ medium_issues s = medium_issues s'
         /\ low_issues s = low_issues s'
     | Raise e, Raise e' => e = e'
     | _, _ => False
     end.
Proof.
  intros Hr. pose proof (collect_passed_over rs1 rs2 r Hr) as Hcollect.
  split; [ exact Hcollect | ].
  unfold _aggregate_reviews. rewrite Hcollect.
  destruct (collect (rs1 ++ rs2)) as [sc iss].
  destruct (match sc with [] => Ok 0%Q | _ => mean sc end); [ | reflexivity ].
  cbn [bind].
  destruct (count_severity "critical" iss); [ | reflexivity ]. cbn [bind].
  destruct (count_severity "high" iss); [ | reflexivity ]. cbn [bind].
  destruct (count_severity "medium" iss); [ | reflexivity ]. cbn [bind].
  destruct (count_severity "low" iss); [ | reflexivity ]. cbn [bind].
  cbn [report_summary total_files average_score total_issues critical_issues
       high_issues medium_issues low_issues].
  split; [ | now repeat split ].
  rewrite !List.length_app. cbn [List.length]. lia.
Qed.

Lemma X16_passed_over_review_witness :
  collect (sample_reviews ++ prose_review :: []) = collect (sample_reviews ++ []).
Proof.
  assert (H : passed_over prose_review).
  { right. right. exists "Looks fine, 9/10.". split; [ reflexivity | ].
    left. vm_compute. reflexivity. }
  destruct (X16_passed_over_review sample_reviews [] prose_review "out" H)
    as (Hcollect & _).
  exact Hcollect.
Defined.

(** [round(q, 2)] is the hundredth nearest to [q]. *)
Lemma round2_spec (q : Q) :
  exists k,
    round2 q = (inject_Z k / 100)%Q
    /\ (inject_Z k - (1 # 2) <= q * 100)%Q
    /\ (q * 100 <= inject_Z k + (1 # 2))%Q.
Proof.
  unfold round2.
  pose proof (Qfloor_le (q * 100)) as Hlo.
  pose proof (Qlt_floor (q * 100)) as Hhi.
  rewrite inject_Z_plus in Hhi. change (inject_Z 1) with 1%Q in Hhi.
  destruct (Qcompare (q * 100 - inject_Z (Qfloor (q * 100))) (1 # 2)) eqn:Hcmp.
  - apply Qeq_alt in Hcmp.
    destruct (Z.odd (Qfloor (q * 100))); eexists; (split; [ reflexivity | ]);
      rewrite ?inject_Z_plus; change (inject_Z 1) with 1%Q;
      set (x := inject_Z (Qfloor (q * 100))) in *; split; lra.
  - apply Qlt_alt in Hcmp. eexists. split; [ reflexivity | ].
    set (x := inject_Z (Qfloor (q * 100))) in *; split; lra.
  - apply Qgt_alt in Hcmp. eexists. split; [ reflexivity | ].
    rewrite ?inject_Z_plus; change (inject_Z 1) with 1%Q.
    set (x := inject_Z (Qfloor (q * 100))) in *; split; lra.
Qed.

Lemma aggregate_average (rs : list review) (d : string) (rep : report) :
  _aggregate_reviews rs d = Ok rep ->
  exists q,
    average_score (report_summary rep) = round2 q
    /\ (fst (collect rs) = [] -> q = 0%Q)
    /\ (fst (collect rs) <> [] -> mean (fst (collect rs)) = Ok q).
Proof.
  unfold _aggregate_reviews. destruct (collect rs) as [sc iss]. cbn [fst].
  destruct (match sc with [] => Ok 0%Q | _ => mean sc end) as [ q | ] eqn:Hq;
    [ | discriminate ].
  cbn [bind].
  destruct (count_severity "critical" iss); [ | discriminate ]. cbn [bind].
  destruct (count_severity "high" iss); [ | discriminate ]. cbn [bind].
  destruct (count_severity "medium" iss); [ | discriminate ]. cbn [bind].
  destruct (count_severity "low" iss); [ | discriminate ]. cbn [bind].
  intros [= <-]. exists q. cbn [report_summary average_score].
  split; [ reflexivity | ].
  destruct sc; split; congruence.
Qed.



End WorkflowMore.

(** ** utils/llm_utils.py: provider choice, segmentation, agent servers *)

Module LlmMore.
Import LlmUtils Spec.

Lemma strip_empty_key (k : string) : k = "" -> strip k = "".
Proof. now intros ->. Qed.

(** X18 ([get_preferred_llm_class]): a provider named in the main
    configuration (in any letter case) decides whatever the secrets file
    holds, and any other name hands over to the secrets file; a main
    configuration that cannot be read, is not a mapping, or names a
    provider that is not a string gives OpenAI whatever the secrets file
    holds; so does a missing or unreadable secrets file; otherwise
    Anthropic is chosen exactly when its API key has a character that is
    not white space, then Ollama when it has a non-empty entry, then
    OpenAI. *)
Theorem X18_preferred_llm_class (secrets main : config_file) :
  (forall o p,
     main = Some (Ok (JObj o)) ->
     get o "default_llm_provider" (JStr "") = JStr p ->
     (lower p = "ollama" ->
      get_preferred_llm_class secrets main = OllamaAugmentedLLM)
     /\ (lower p = "anthropic" ->
         get_preferred_llm_class secrets main = AnthropicAugmentedLLM)
     /\ (lower p = "openai" ->
         get_preferred_llm_class secrets main = OpenAIAugmentedLLM)
     /\ (lower p <> "ollama" -> lower p <> "anthropic" -> lower p <> "openai" ->
         get_preferred_llm_class secrets main
         = get_preferred_llm_class secrets None))
  /\ (forall e, main = Some (Raise e) ->
        get_preferred_llm_class secrets main = OpenAIAugmentedLLM)
  /\ (forall x, main = Some (Ok x) -> ~ is_dict x ->
        get_preferred_llm_class secrets main = OpenAIAugmentedLLM)
  /\ (forall o x,
        main = Some (Ok (JObj o)) ->
        get o "default_llm_provider" (JStr "") = x ->
        (forall p, x <> JStr p) ->
        get_preferred_llm_class secrets main = OpenAIAugmentedLLM)
  /\ (main = None ->
      secrets = None \/ (exists e, secrets = Some (Raise e)) ->
      get_preferred_llm_class secrets main = OpenAIAugmentedLLM)
  /\ (forall o a k,
        main = None ->
        secrets = Some (Ok (JObj o)) ->
        get o "anthropic" (JObj []) = JObj a ->
        get a "api_key" (JStr "") = JStr k ->
        get_preferred_llm_class secrets main
        = if negb (String.eqb (strip k) "") then AnthropicAugmentedLLM
          else if truthy (get o "ollama" (JObj [])) then OllamaAugmentedLLM
          else OpenAIAugmentedLLM).
Proof.
  unfold get_preferred_llm_class, preferred_class.
  split; [ | split; [ | split; [ | split; [ | split ] ] ] ].
  - intros o p -> Hp. cbn [attr_get bind]. rewrite Hp. cbn [str_lower bind].
    split; [ now intros -> | ]. split; [ now intros -> | ].
    split; [ now intros -> | ].
    intros H1 H2 H3.
    apply String.eqb_neq in H1, H2, H3. now rewrite H1, H2, H3.
  - now intros e ->.
  - intros x -> Hx. destruct x; try reflexivity. destruct Hx. now eexists.
  - intros o x -> Hx Hnot. cbn [attr_get bind]. rewrite Hx.
    destruct x; try reflexivity. now destruct (Hnot s).
  - intros -> [ -> | (e & ->) ]; reflexivity.
  - intros o a k -> -> Ha Hk. unfold class_from_secrets.
    cbn [attr_get bind]. rewrite Ha. cbn [attr_get bind]. rewrite Hk.
    cbn [truthy str_strip bind py_eq num_of].
    destruct (String.eqb k "") eqn:Hempty; cbn [negb bind andb].
    + apply String.eqb_eq in Hempty. rewrite (strip_empty_key k Hempty).
      cbn [String.eqb negb]. now destruct (truthy (get o "ollama" (JObj []))).
    + rewrite Bool.andb_true_r.
      destruct (String.eqb (strip k) ""); cbn [negb]; [ | reflexivity ].
      now destruct (truthy (get o "ollama" (JObj []))).
Qed.

Lemma X18_preferred_llm_class_witness :
  get_preferred_llm_class (anthropic_secrets "sk-1") (provider_config "Ollama")
  = OllamaAugmentedLLM
  /\ get_preferred_llm_class (anthropic_secrets "sk-1") (Some (Raise OSError))
     = OpenAIAugmentedLLM
  /\ get_preferred_llm_class (anthropic_secrets "   ") None = OllamaAugmentedLLM.
Proof.
  destruct (X18_preferred_llm_class (anthropic_secrets "sk-1") (provider_config "Ollama"))
    as (Hnamed & _).
  destruct (X18_preferred_llm_class (anthropic_secrets "sk-1") (Some (Raise OSError)))
    as (_ & Hraise & _).
  destruct (X18_preferred_llm_class (anthropic_secrets "   ") None)
    as (_ & _ & _ & _ & _ & Hkey).
  split; [ | split ].
  - destruct (Hnamed [("default_llm_provider", JStr "Ollama")] "Ollama" eq_refl eq_refl)
      as (H & _).
    now apply H.
  - now apply (Hraise OSError).
  - exact (Hkey _ [("api_key", JStr "   ")] "   " eq_refl eq_refl eq_refl eq_refl).
Defined.

Lemma format_number_total (x : json) (t : Q) :
  num_of x = Some t -> exists shown, format_number x = Ok shown.
Proof. destruct x; cbn; try discriminate; intros _; now eexists. Qed.

(** X19 (document segmentation): a configuration file that is missing,
    unreadable or not a mapping, or whose segmentation entry is not a
    mapping, gives the defaults (enabled, 50000 characters); when the
    enabled entry is false or empty the answer is no, whatever the size
    and the threshold; otherwise the answer is yes exactly when the
    document is strictly longer than the threshold, and a threshold that
    is not a number raises TypeError. *)
Theorem X19_segmentation_decision (document_content : string)
  (config : config_file) :
  (config = None \/ (exists e, config = Some (Raise e))
   \/ (exists x, config = Some (Ok x) /\ ~ is_dict x)
   \/ (exists o x, config = Some (Ok (JObj o))
                   /\ lookup "document_segmentation" o = Some x /\ ~ is_dict x) ->
   get_document_segmentation_config config = default_segmentation)
  /\ (truthy (enabled (get_document_segmentation_config config)) = false ->
      should_use_document_segmentation document_content config
      = Ok (false, "Document segmentation disabled in configuration"))
  /\ (forall t,
        truthy (enabled (get_document_segmentation_config config)) = true ->
        num_of (size_threshold_chars (get_document_segmentation_config config))
        = Some t ->
        exists b reason,
          should_use_document_segmentation document_content config = Ok (b, reason)
          /\ (b = true <->
              (t < inject_Z (Z.of_nat (String.length document_content)))%Q))
  /\ (truthy (enabled (get_document_segmentation_config config)) = true ->
      num_of (size_threshold_chars (get_document_segmentation_config config))
      = None ->
      should_use_document_segmentation document_content config = Raise TypeError).
Proof.
  split; [ | split; [ | split ] ].
  - intros [ -> | [ (e & ->) | [ (x & -> & Hx) | (o & x & -> & Hl & Hx) ] ] ];
      try reflexivity.
    + destruct x; try reflexivity. destruct Hx. now eexists.
    + unfold get_document_segmentation_config. cbn [attr_get bind].
      unfold get. rewrite Hl.
      destruct x; try reflexivity. destruct Hx. now eexists.
  - unfold should_use_document_segmentation. now intros ->.
  - intros t He Ht. unfold should_use_document_segmentation.
    rewrite He, Ht. cbn [negb].
    destruct (format_number_total _ _ Ht) as (shown & ->). cbn [bind].
    destruct (Qle_bool (inject_Z (Z.of_nat (String.length document_content))) t)
      eqn:Hle; eexists; eexists; (split; [ reflexivity | ]).
    + apply Qle_bool_iff in Hle. split; [ discriminate | ].
      intros Hlt. exfalso. now apply (Qlt_not_le _ _ Hlt).
    + split; [ intros _ | reflexivity ].
      apply Qnot_le_lt. intros H. apply Qle_bool_iff in H. congruence.
  - intros He Ht. unfold should_use_document_segmentation.
    now rewrite He, Ht.
Qed.

Lemma X19_segmentation_decision_witness :
  get_document_segmentation_config (Some (Raise OSError)) = default_segmentation
  /\ should_use_document_segmentation "abc" (segmentation_file (JBool false) JNull)
     = Ok (false, "Document segmentation disabled in configuration")
  /\ (exists b reason,
        should_use_document_segmentation "abc" (segmentation_file (JBool true) (JInt 3))
        = Ok (b, reason)
        /\ (b = true <-> (inject_Z 3 < inject_Z (Z.of_nat (String.length "abc")))%Q))
  /\ should_use_document_segmentation "abc" (segmentation_file (JBool true) (JStr "3"))
     = Raise TypeError.
Proof.
  destruct (X19_segmentation_decision "abc" (Some (Raise OSError))) as (Hdef & _).
  destruct (X19_segmentation_decision "abc" (segmentation_file (JBool false) JNull))
    as (_ & Hoff & _).
  destruct (X19_segmentation_decision "abc" (segmentation_file (JBool true) (JInt 3)))
    as (_ & _ & Hnum & _).
  destruct (X19_segmentation_decision "abc" (segmentation_file (JBool true) (JStr "3")))
    as (_ & _ & _ & Hbad).
  split; [ apply Hdef; right; left; now exists OSError | ].
  split; [ now apply Hoff | ].
  split; [ now apply Hnum | now apply Hbad ].
Defined.

Lemma append_missing_spec (name : string) (names : list string) :
  In name (append_missing name names)
  /\ (exists tail, append_missing name names = (names ++ tail)%list
                   /\ (tail = [] \/ tail = [name]))
  /\ (In name names -> append_missing name names = names)
  /\ (~ In name names -> append_missing name names = (names ++ [name])%list)
  /\ (NoDup names -> NoDup (append_missing name names)).
Proof.
  unfold append_missing.
  destruct (List.existsb (String.eqb name) names) eqn:Hex.
  - apply List.existsb_exists in Hex. destruct Hex as (x & Hx & Heq).
    apply String.eqb_eq in Heq. subst x.
    split; [ exact Hx | ].
    split; [ exists []; split; [ now rewrite List.app_nil_r | now left ] | ].
    split; [ reflexivity | split; [ intros H; now destruct H | auto ] ].
  - assert (Hnot : ~ In name names).
    { intros Hin.
      assert (H : List.existsb (String.eqb name) names = true)
        by (apply List.existsb_exists; exists name; split;
            [ exact Hin | apply String.eqb_refl ]).
      congruence. }
    split; [ apply in_or_app; right; now left | ].
    split; [ exists [name]; split; [ reflexivity | now right ] | ].
    split; [ intros H; now destruct Hnot | split; [ reflexivity | ] ].
    intros Hnd. apply List.NoDup_app; [ exact Hnd | repeat constructor; intros [] | ].
    intros x Hx [ <- | [] ]. now destruct Hnot.
Qed.

(** X20 ([get_adaptive_agent_config]): the concept analysis agent gets
    exactly the one server of the mode (document-segmentation or
    filesystem); the other two agents get the same list: the given search
    servers in their order, followed by the mode's server unless it is
    already among them, so the server is always present, nothing is
    dropped, a list without repetition stays so, and configuring again
    with the result changes nothing. *)
Theorem X20_adaptive_agent_config (use_segmentation : bool)
  (search_server_names : option (list string)) :
  concept_analysis (get_adaptive_agent_config use_segmentation search_server_names)
  = [server_of use_segmentation]
  /\ code_planner (get_adaptive_agent_config use_segmentation search_server_names)
     = algorithm_analysis
         (get_adaptive_agent_config use_segmentation search_server_names)
  /\ In (server_of use_segmentation)
        (algorithm_analysis
           (get_adaptive_agent_config use_segmentation search_server_names))
  /\ (forall names, search_server_names = Some names ->
        (exists tail,
           algorithm_analysis
             (get_adaptive_agent_config use_segmentation search_server_names)
           = (names ++ tail)%list
           /\ (tail = [] <-> In (server_of use_segmentation) names)
           /\ (tail = [] \/ tail = [server_of use_segmentation]))
        /\ (NoDup names ->
            NoDup (algorithm_analysis
                     (get_adaptive_agent_config use_segmentation
                                                search_server_names))))
  /\ (search_server_names = None ->
      algorithm_analysis
        (get_adaptive_agent_config use_segmentation search_server_names)
      = [server_of use_segmentation])
  /\ get_adaptive_agent_config use_segmentation
       (Some (algorithm_analysis
                (get_adaptive_agent_config use_segmentation search_server_names)))
     = get_adaptive_agent_config use_segmentation search_server_names.
Proof.
  unfold get_adaptive_agent_config.
  change (if use_segmentation then "document-segmentation" else "filesystem")
    with (server_of use_segmentation).
  set (server := server_of use_segmentation).
  set (names := match search_server_names with None => [] | Some l => l end).
  cbn [concept_analysis code_planner algorithm_analysis].
  destruct (append_missing_spec server names)
    as (Hin & (tail & Htail & Hcases) & Hthere & Hmissing & Hnodup).
  split; [ reflexivity | split; [ reflexivity | split; [ exact Hin | ] ] ].
  split; [ | split ].
  - intros l ->. subst names. split; [ | exact Hnodup ].
    destruct (List.in_dec String.string_dec server l) as [ Hl | Hl ].
    + exists []. rewrite List.app_nil_r.
      split; [ now apply Hthere | split; [ now split | now left ] ].
    + exists [server]. split; [ now apply Hmissing | ].
      split; [ split; [ discriminate | intros H; now destruct Hl ] | now right ].
  - intros ->. subst names. reflexivity.
  - destruct (append_missing_spec server (append_missing server names))
      as (_ & _ & Hsame & _).
    now rewrite (Hsame Hin).
Qed.

Lemma X20_adaptive_agent_config_witness :
  (exists tail,
     algorithm_analysis
       (get_adaptive_agent_config true (Some ["brave"; "filesystem"]))
     = (["brave"; "filesystem"] ++ tail)%list
     /\ (tail = [] <-> In (server_of true) ["brave"; "filesystem"])
     /\ (tail = [] \/ tail = [server_of true]))
  /\ algorithm_analysis (get_adaptive_agent_config false None) = [server_of false].
Proof.
  destruct (X20_adaptive_agent_config true (Some ["brave"; "filesystem"]))
    as (_ & _ & _ & Hnames & _).
  destruct (X20_adaptive_agent_config false None) as (_ & _ & _ & _ & Hnone & _).
  split; [ | now apply Hnone ].
  destruct (Hnames _ eq_refl) as (Htail & _). exact Htail.
Defined.

Lemma section_model (o : dict) (k default : string) :
  section_ok o k ->
  attr_get (or_empty (get o k JNull)) "default_model" (JStr default)
  = Ok (model_of o k default).
Proof.
  unfold section_ok, or_empty, model_of.
  intros [ Hfalse | (section & Hsec) ].
  - rewrite Hfalse. cbn [attr_get].
    destruct (get o k JNull) as [ | | | | | | [ | kv section ] ];
      try reflexivity; discriminate.
  - rewrite Hsec. destruct section; reflexivity.
Qed.

Lemma section_broken (o : dict) (k default : string) :
  ~ section_ok o k ->
  exists e,
    attr_get (or_empty (get o k JNull)) "default_model" (JStr default) = Raise e.
Proof.
  unfold section_ok, or_empty. intros Hbad.
  destruct (truthy (get o k JNull)) eqn:Ht; [ | now destruct Hbad; left ].
  destruct (get o k JNull); cbn [attr_get]; try (now eexists).
  destruct Hbad. right. now eexists.
Qed.

(** X22 ([get_default_models]): a configuration that is missing,
    unreadable or not a mapping gives the three built-in models; when each
    of the three sections is absent, null, empty or a mapping, each
    provider gets the [default_model] of its own section, the built-in
    one where the section or the entry is missing; and as soon as one
    section is anything else (a string, a number, a list), all three
    providers get the built-in models, whatever the other sections say. *)
Theorem X22_default_models (config : config_file) :
  (config = None \/ (exists e, config = Some (Raise e))
   \/ (exists x, config = Some (Ok x) /\ ~ is_dict x) ->
   get_default_models config = fallback_models)
  /\ (forall o,
        config = Some (Ok (JObj o)) ->
        section_ok o "anthropic" -> section_ok o "openai" -> section_ok o "ollama" ->
        get_default_models config
        = {| anthropic := model_of o "anthropic" "claude-sonnet-4-20250514";
             openai := model_of o "openai" "o3-mini";
             ollama := model_of o "ollama" "qwen3-coder:30b" |})
  /\ (forall o,
        config = Some (Ok (JObj o)) ->
        ~ section_ok o "anthropic" \/ ~ section_ok o "openai"
        \/ ~ section_ok o "ollama" ->
        get_default_models config = fallback_models).
Proof.
  split; [ | split ].
  - intros [ -> | [ (e & ->) | (x & -> & Hx) ] ]; try reflexivity.
    destruct x; try reflexivity. destruct Hx. now eexists.
  - intros o -> Ha Ho Hl. unfold get_default_models. cbn [attr_get bind].
    rewrite (section_model o "anthropic" _ Ha). cbn [bind].
    rewrite (section_model o "openai" _ Ho). cbn [bind].
    rewrite (section_model o "ollama" _ Hl). reflexivity.
  - intros o -> Hbad. unfold get_default_models. cbn [attr_get bind].
    destruct Hbad as [ Ha | [ Ho | Hl ] ].
    + destruct (section_broken o "anthropic" "claude-sonnet-4-20250514" Ha) as (e & ->).
      reflexivity.
    + destruct (attr_get (or_empty (get o "anthropic" JNull)) _ _); [ | reflexivity ].
      cbn [bind].
      destruct (section_broken o "openai" "o3-mini" Ho) as (e & ->). reflexivity.
    + destruct (attr_get (or_empty (get o "anthropic" JNull)) _ _); [ | reflexivity ].
      cbn [bind].
      destruct (attr_get (or_empty (get o "openai" JNull)) _ _); [ | reflexivity ].
      cbn [bind].
      destruct (section_broken o "ollama" "qwen3-coder:30b" Hl) as (e & ->).
      reflexivity.
Qed.

Lemma X22_default_models_witness :
  get_default_models models_file
  = {| anthropic := JStr "claude-sonnet-4-20250514";
       openai := JStr "gpt-4o";
       ollama := JStr "qwen3-coder:30b" |}
  /\ get_default_models broken_models_file = fallback_models
  /\ get_default_models (Some (Raise OSError)) = fallback_models.
Proof.
  destruct (X22_default_models models_file) as (_ & Hgood & _).
  destruct (X22_default_models broken_models_file) as (_ & _ & Hbad).
  destruct (X22_default_models (Some (Raise OSError))) as (Hraise & _).
  split; [ | split ].
  - apply (Hgood _ eq_refl).
    + left. reflexivity.
    + right. now eexists.
    + left. reflexivity.
  - apply (Hbad _ eq_refl). left. intros [ H | (x & H) ]; discriminate.
  - apply Hraise. right. left. now exists OSError.
Defined.

End LlmMore.

(** ** The scores mined from text *)

Module TextMore.
Import Iterative Spec.

Lemma match_score_numeral (post s : string) (n : nat) :
  match_score post = Some (s, n) -> numeral s.
Proof.
  unfold match_score.
  destruct (skip_word "score" post) as [ r | ]; [ | discriminate ].
  destruct (String.length (skip_seps r) <? String.length r)%nat; [ | discriminate ].
  pose proof (TextFacts.span_digits_digits (skip_seps r)) as Hd.
  destruct (span_digits (skip_seps r)) as [d r2]. cbn [fst] in Hd.
  destruct d as [ | c d ]; [ discriminate | ].
  pose proof (TextFacts.span_fraction_digits r2) as Hf.
  destruct (span_fraction r2) as [f r3]. cbn [fst] in Hf.
  destruct (startswith "/10" r3); [ | discriminate ].
  intros [= <- _]. exists (String c d), f.
  split; [ exact Hd | split; [ discriminate | split; [ exact Hf | ] ] ].
  destruct f; [ now left | right; split; [ discriminate | reflexivity ] ].
Qed.

(** X21 ([parse_text_review], the scores): every text handed to [float]
    is a numeral: at least one digit, then possibly a point and at least
    one more digit, with no sign and no exponent; so the conversion cannot
    raise, and no score mined from text is negative. *)
Theorem X21_score_texts_numerals (text : string) :
  Forall numeral (score_texts text).
Proof.
  apply Forall_forall; intros s Hs. unfold score_texts in Hs.
  destruct (TextFacts.findall_sound _ _ _ _ Hs) as (pre & post & n & _ & Hm).
  exact (match_score_numeral _ _ _ Hm).
Qed.

End TextMore.
